(** * Geetha Tex production dashboard: derivation engine and state container

    A shallow embedding of the logic of the application module (the state
    container [AppProvider], the derived projections [calculatedBatches] and
    [batchesByMachine], the submit handlers of the batch-type page, the
    settings page and the setup wizard, the add and edit forms, the totals
    of the dashboard and of the monthly report, the calendar and the
    calculator), with the properties proved about it.

    Conventions of the embedding.
    - A JavaScript [number] that holds a measured or typed-in quantity
      ([meterValue], [numberOfMachines], [average]) is an exact rational
      ([Q]); a [number] that is integral by construction ([ftotal],
      [machineNumber], array indices, clock readings) is an integer ([Z]).
      A rational stands for a binary64 number: a meter value for the
      number of that value, an average for the number read back from its
      two decimals.  The one operation of the derivation that is inexact on
      binary64 numbers, the division of the meter value by [ftotal], is
      rounded as the engine rounds it ([JS.binary64]); the division by [4]
      and [Math.round] are exact on binary64 numbers.
    - A JavaScript string is a [string] of 8-bit characters; case mapping and
      white space are the ASCII ones.
    - React state is an explicit record that every operation takes and
      returns; the seeding effect is a function run after each operation.
      Storage mirrors the state and is not kept apart from it. *)

From Stdlib Require Import ZArith QArith Qround Qabs Lqa Lia.
From Stdlib Require Import List Bool Ascii String DecimalString DecimalZ.
From Stdlib Require Decimal DecimalPos.
From Stdlib Require Import Sorted Permutation.
From Stdlib Require PrimFloat SpecFloat FloatOps.
Import ListNotations.

Local Open Scope string_scope.
Local Open Scope list_scope.
Local Open Scope Z_scope.

(** ** Host functions *)

Module JS.

(** [Math.round]: the nearest integer, a tie going to the larger one. *)
Definition Math_round (x : Q) : Z := Qfloor (x + (1 # 2)).

(** *** Binary64 arithmetic

    The result of an arithmetic operation is the binary64 number nearest to
    the exact result, a tie going to the even significand.  A significand
    has 53 bits; below [2^-1022] the spacing stays that of [2^-1022].
    Results beyond the largest finite number, which the engine gives as
    [Infinity], are outside the model. *)
Definition roundTiesToEven (x : Q) : Z :=
  let f := Qfloor x in
  match (x - inject_Z f ?= 1 # 2)%Q with
  | Lt => f
  | Gt => f + 1
  | Eq => if Z.even f then f else f + 1
  end.

(** The exponent [e] of a positive number: [2^e <= x < 2^(e+1)]. *)
Definition exponentOf (x : Q) : Z :=
  let e := Z.log2 (Qnum x) - Z.log2 (Z.pos (Qden x)) in
  if Qle_bool (2 ^ e) x then e else e - 1.

Definition binary64 (x : Q) : Q :=
  let r := Qred (Qabs x) in
  if Qeq_bool r 0 then 0%Q
  else
    let e := Z.max (exponentOf r) (-1022) in
    let ulp := (2 ^ (e - 52))%Q in
    let y := (inject_Z (roundTiesToEven (r / ulp)) * ulp)%Q in
    if Qlt_le_dec x 0 then (- y)%Q else y.

(** [parseFloat(x.toFixed(f))]: below [10^21] in magnitude [toFixed] takes
    the integer [n] with [n / 10^f] nearest to the magnitude of [x] (the
    larger one when two are equally near) and prints sign, digits and
    point; from [10^21] on it prints [x] itself.  [parseFloat] reads the
    printed value back: the result stands for the decimal number printed. *)
Definition toFixed (x : Q) (f : nat) : Q :=
  let p := inject_Z (10 ^ Z.of_nat f) in
  let ax := Qabs x in
  if Qle_bool (inject_Z (10 ^ 21)) ax then x
  else
    let n := Qfloor (ax * p + (1 # 2)) in
    if Qlt_le_dec x 0 then - (inject_Z n / p) else inject_Z n / p.

(** [String.prototype.toUpperCase] on ASCII text. *)
Definition toUpperCase_char (c : ascii) : ascii :=
  let n := nat_of_ascii c in
  if (97 <=? n)%nat && (n <=? 122)%nat then ascii_of_nat (n - 32) else c.

Fixpoint toUpperCase (s : string) : string :=
  match s with
  | EmptyString => EmptyString
  | String c r => String (toUpperCase_char c) (toUpperCase r)
  end.

(** [String.prototype.trim]: white space and line terminators are taken
    off both ends (tab, LF, VT, FF, CR and space, in ASCII). *)
Definition isWhiteSpace (c : ascii) : bool :=
  let n := nat_of_ascii c in
  ((9 <=? n)%nat && (n <=? 13)%nat) || (n =? 32)%nat.

Fixpoint trimStart (s : string) : string :=
  match s with
  | EmptyString => EmptyString
  | String c r => if isWhiteSpace c then trimStart r else s
  end.

Fixpoint trimEnd (s : string) : string :=
  match s with
  | EmptyString => EmptyString
  | String c r =>
      match trimEnd r with
      | EmptyString => if isWhiteSpace c then EmptyString else String c EmptyString
      | r' => String c r'
      end
  end.

Definition trim (s : string) : string := trimEnd (trimStart s).

(** Truthiness of a string: every string but the empty one. *)
Definition truthy (s : string) : bool :=
  match s with EmptyString => false | _ => true end.

(** [Array.prototype.includes] on an array of strings. *)
Definition includes (l : list string) (x : string) : bool :=
  existsb (String.eqb x) l.

(** [Number.prototype.toString] of an integer (below [10^21]): its decimal
    digits, with a minus sign when negative. *)
Definition Number_toString (n : Z) : string :=
  NilZero.string_of_int (Z.to_int n).

(** *** Dates

    [new Date(s).getTime()] for the date-only form [YYYY-MM-DD], which is
    what a date input holds when it is not empty: milliseconds from the
    epoch to that day's UTC midnight.  Any other text, the empty string
    included, is an invalid date, whose time value is NaN: [None]. *)
Definition digit (c : ascii) : option Z :=
  let n := nat_of_ascii c in
  if (48 <=? n)%nat && (n <=? 57)%nat then Some (Z.of_nat (n - 48)) else None.

Definition isLeapYear (y : Z) : bool :=
  ((y mod 4 =? 0) && negb (y mod 100 =? 0)) || (y mod 400 =? 0).

Definition DaysInMonth (y m : Z) : Z :=
  if m =? 2 then (if isLeapYear y then 29 else 28)
  else if (m =? 4) || (m =? 6) || (m =? 9) || (m =? 11) then 30 else 31.

Definition DayFromYear (y : Z) : Z :=
  365 * (y - 1970) + (y - 1969) / 4 - (y - 1901) / 100 + (y - 1601) / 400.

(** Days before the first of month [m] within year [y]. *)
Definition DayWithinYear (y m : Z) : Z :=
  let leap := if isLeapYear y then 1 else 0 in
  match m with
  | 1 => 0 | 2 => 31 | 3 => 59 + leap | 4 => 90 + leap
  | 5 => 120 + leap | 6 => 151 + leap | 7 => 181 + leap
  | 8 => 212 + leap | 9 => 243 + leap | 10 => 273 + leap
  | 11 => 304 + leap | _ => 334 + leap
  end.

Definition msPerDay : Z := 86400000.

Definition MakeDate (y m d : Z) : option Z :=
  if (1 <=? m) && (m <=? 12) && (1 <=? d) && (d <=? DaysInMonth y m)
  then Some ((DayFromYear y + DayWithinYear y m + (d - 1)) * msPerDay)
  else None.

Definition Date_getTime (s : string) : option Z :=
  match s with
  | String y1 (String y2 (String y3 (String y4 (String "-"
      (String m1 (String m2 (String "-"
      (String d1 (String d2 EmptyString))))))))) =>
      match digit y1, digit y2, digit y3, digit y4,
            digit m1, digit m2, digit d1, digit d2 with
      | Some a, Some b, Some c, Some d, Some e, Some f, Some g, Some h =>
          MakeDate (1000 * a + 100 * b + 10 * c + d) (10 * e + f) (10 * g + h)
      | _, _, _, _, _, _, _, _ => None
      end
  | _ => None
  end.

(** *** Sorting

    A comparator returns a number, NaN ([None]) included; the sort reads
    NaN as [+0].

    When the comparator is consistent on the elements of the array (it is
    never NaN there, and its signs are those of an ordering),
    [Array.prototype.sort] returns the elements in the order of the
    comparator, equal elements in their former order.  There is one such
    arrangement, whatever the engine; insertion computes it.

    When the comparator is not consistent the language leaves the order to
    the engine.  The model then follows V8, which sorts an array of fewer
    than 64 elements as one run: the run that the array starts with is
    found (and reversed, when strictly descending), and each further
    element is put in by binary insertion.  V8 merges a longer array from
    several such runs; the model sorts it as one run as well. *)
Definition SortCompare {A} (comparefn : A -> A -> option Z) (x y : A) : Z :=
  match comparefn x y with
  | Some v => v
  | None => 0
  end.

Section Sort.
Context {A : Type} (comparefn : A -> A -> option Z).

Fixpoint insert (x : A) (l : list A) : list A :=
  match l with
  | [] => [x]
  | y :: r =>
      if SortCompare comparefn x y <=? 0 then x :: l else y :: insert x r
  end.

Fixpoint insertionSort (l : list A) : list A :=
  match l with
  | [] => []
  | x :: r => insert x (insertionSort r)
  end.

(** The conditions of a consistent comparator, on three elements: a number
    for each pair, [a = a], the symmetry and the transitivity of [=], and
    the transitivity of [<] and of [>]. *)
Definition consistentOn (a b c : A) : bool :=
  match comparefn a a, comparefn a b, comparefn b a, comparefn b c,
        comparefn a c with
  | Some aa, Some ab, Some ba, Some bc, Some ac =>
      (aa =? 0)
      && implb (ab =? 0) (ba =? 0)
      && implb ((ab =? 0) && (bc =? 0)) (ac =? 0)
      && implb ((ab <? 0) && (bc <? 0)) (ac <? 0)
      && implb ((0 <? ab) && (0 <? bc)) (0 <? ac)
  | _, _, _, _, _ => false
  end.

Definition consistent (l : list A) : bool :=
  forallb (fun a => forallb (fun b => forallb (consistentOn a b) l) l) l.

(** [CountAndMakeRun]: how far the run of the first two elements goes on,
    ascending (in the comparator's sense) or strictly descending. *)
Fixpoint runTail (isDescending : bool) (previousElement : A) (rest : list A)
    : nat :=
  match rest with
  | [] => 0%nat
  | currentElement :: rest' =>
      let order := SortCompare comparefn currentElement previousElement in
      if (if isDescending then 0 <=? order else order <? 0) then 0%nat
      else S (runTail isDescending currentElement rest')
  end.

Definition CountAndMakeRun (work : list A) : list A * nat :=
  match work with
  | elementHigh :: elementLow :: rest =>
      let isDescending := SortCompare comparefn elementLow elementHigh <? 0 in
      let runLength := (2 + runTail isDescending elementLow rest)%nat in
      (if isDescending
       then rev (firstn runLength work) ++ skipn runLength work
       else work,
       runLength)
  | _ => (work, 1%nat)
  end.

(** The binary search of [BinaryInsertionSort]: the place of [pivot] in
    [work[left .. right)].  The interval shrinks at every step, so a fuel
    above its length is never used up. *)
Fixpoint search (fuel : nat) (pivot : A) (work : list A) (left right : nat)
    : nat :=
  match fuel with
  | O => left
  | S fuel' =>
      if (left <? right)%nat then
        let mid := (left + (right - left) / 2)%nat in
        match nth_error work mid with
        | Some element =>
            if SortCompare comparefn pivot element <? 0
            then search fuel' pivot work left mid
            else search fuel' pivot work (S mid) right
        | None => left
        end
      else left
  end.

Definition insertPivot (sorted : list A) (pivot : A) : list A :=
  let left :=
    search (S (List.length sorted)) pivot sorted 0 (List.length sorted) in
  firstn left sorted ++ pivot :: skipn left sorted.

Definition TimSort (work : list A) : list A :=
  match work with
  | [] | [_] => work
  | _ =>
      let (work', runLength) := CountAndMakeRun work in
      fold_left insertPivot (skipn runLength work') (firstn runLength work')
  end.

Definition sort (l : list A) : list A :=
  if consistent l then insertionSort l else TimSort l.
End Sort.

End JS.

(** ** Data model ([types.ts]) *)

Inductive Theme := light | dark.

Inductive BatchStatus := InProgress | Completed | Delayed.

Record BatchType := mkBatchType {
  bt_id : string;
  bt_batchNumber : string;
  bt_color : string
}.

Record Batch := mkBatch {
  id : string;
  name : option string;
  batchNumber : string;
  machineNumber : Z;
  startDate : string;
  endDate : string;
  meterValue : Q;
  status : BatchStatus;
  color : option string;
  image : option string
}.

Record CalculatedBatch := mkCalculated {
  batch :> Batch;
  ftotal : Z;
  average : Q
}.

Record Settings := mkSettings {
  companyName : string;
  numberOfMachines : Q
}.

(** [Omit<Batch, 'id' | 'status' | 'name'>], the argument of [addBatch]. *)
Record NewBatch := mkNewBatch {
  nb_batchNumber : string;
  nb_machineNumber : Z;
  nb_startDate : string;
  nb_endDate : string;
  nb_meterValue : Q;
  nb_color : option string;
  nb_image : option string
}.

(** [Omit<BatchType, 'id'>], the argument of [addBatchType]. *)
Record NewBatchType := mkNewBatchType {
  nbt_batchNumber : string;
  nbt_color : string
}.

(** ** Mock data

    An entry of [MOCK_BATCHES] is a batch without its [status]: a function
    of the status it is later given. *)
Definition MOCK_BATCHES : list (BatchStatus -> Batch) :=
  [ (fun st => mkBatch "1" (Some "Autumn Collection Run 1") "ACR001" 1
       "2023-10-01" "2023-10-05" (12505 # 10) st (Some "#16a34a") None);
    (fun st => mkBatch "2" (Some "Winter Fabric Prep") "WFP001" 2
       "2023-10-03" "2023-10-08" (21002 # 10) st (Some "#16a34a") None);
    (fun st => mkBatch "3" (Some "Spring Pattern Test") "SPT001" 1
       "2023-10-10" "2023-10-15" (950 # 1) st (Some "#f59e0b") None);
    (fun st => mkBatch "4" (Some "Holiday Special Edition") "HSE001" 3
       "2023-10-12" "2023-10-20" (35008 # 10) st (Some "#f59e0b") None);
    (fun st => mkBatch "5" (Some "Denim Wash Experiment") "DWE001" 2
       "2023-10-18" "2023-10-25" (22007 # 10) st (Some "#dc2626") None) ].

Definition MOCK_BATCH_TYPES : list BatchType :=
  [ mkBatchType "1" "ACR001" "#16a34a";
    mkBatchType "2" "WFP001" "#06b6d4";
    mkBatchType "3" "SPT001" "#f59e0b";
    mkBatchType "4" "HSE001" "#ef4444";
    mkBatchType "5" "DWE001" "#3b82f6";
    mkBatchType "6" "SUMMER-LITE" "#eab308" ].

(** ** Derivation ([calculatedBatches]) *)

(** [meterValue / 4] is exact on binary64 numbers, a division by a power
    of two; [meterValue / ftotal] is rounded. *)
Definition deriveBatch (b : Batch) : CalculatedBatch :=
  let ftotal := JS.Math_round (meterValue b / 4) in
  let average :=
    if 0 <? ftotal
    then JS.toFixed (JS.binary64 (meterValue b / inject_Z ftotal)) 2
    else 0%Q in
  mkCalculated b ftotal average.

(** The comparator of the sort: [time(b) - time(a)], NaN when either date
    is invalid. *)
Definition byStartDateDesc (a b : CalculatedBatch) : option Z :=
  match JS.Date_getTime (startDate b), JS.Date_getTime (startDate a) with
  | Some tb, Some ta => Some (tb - ta)
  | _, _ => None
  end.

Definition calculatedBatches (batches : list Batch) : list CalculatedBatch :=
  JS.sort byStartDateDesc (map deriveBatch batches).

(** ** Per-machine aggregation ([MachinesPage.batchesByMachine]) *)

Record MachineBucket := mkBucket {
  mb_machineNumber : Z;
  mb_batches : list CalculatedBatch
}.

(** [Array.from({ length: n }, (_, i) => f i)]: the length is [n] cut to an
    integer, and nothing when negative (the cap of [2^53 - 1] on array
    lengths lies beyond any array that is built). *)
Definition Array_from {A} (length : Q) (f : nat -> A) : list A :=
  map f (seq 0 (Z.to_nat (Qfloor length))).

Definition batchesByMachine (calculated : list CalculatedBatch)
    (numberOfMachines : Q) : list MachineBucket :=
  map (fun num =>
         mkBucket num (filter (fun b => machineNumber (batch b) =? num) calculated))
      (Array_from numberOfMachines (fun i => Z.of_nat i + 1)).

(** ** State container ([AppProvider]) *)

Record AppState := mkState {
  settings : option Settings;
  batches : list Batch;
  batchTypes : list BatchType;
  theme : Theme;
  notification : option string
}.

(** What [useLocalStorage] and [useState] start from on a first run. *)
Definition initialState : AppState := mkState None [] [] light None.

Definition setSettings (v : option Settings) (s : AppState) : AppState :=
  mkState v (batches s) (batchTypes s) (theme s) (notification s).

Definition setBatches (v : list Batch) (s : AppState) : AppState :=
  mkState (settings s) v (batchTypes s) (theme s) (notification s).

Definition setBatchTypes (v : list BatchType) (s : AppState) : AppState :=
  mkState (settings s) (batches s) v (theme s) (notification s).

Definition setTheme (v : Theme) (s : AppState) : AppState :=
  mkState (settings s) (batches s) (batchTypes s) v (notification s).

Definition setNotification (v : option string) (s : AppState) : AppState :=
  mkState (settings s) (batches s) (batchTypes s) (theme s) v.

Definition toggleTheme (s : AppState) : AppState :=
  setTheme (match theme s with light => dark | dark => light end) s.

(** [now] is the reading of [Date.now()]. *)
Definition addBatch (now : Z) (newBatch : NewBatch) (s : AppState) : AppState :=
  let batchWithId :=
    mkBatch (JS.Number_toString now) (Some ""%string)
      (nb_batchNumber newBatch) (nb_machineNumber newBatch)
      (nb_startDate newBatch) (nb_endDate newBatch) (nb_meterValue newBatch)
      InProgress (nb_color newBatch) (nb_image newBatch) in
  setNotification (Some "New batch added successfully!"%string)
    (setBatches (batchWithId :: batches s) s).

Definition updateBatch (updatedBatch : Batch) (s : AppState) : AppState :=
  setNotification
    (Some ("Batch " ++ batchNumber updatedBatch ++ " updated!")%string)
    (setBatches
       (map (fun b => if (id b =? id updatedBatch)%string then updatedBatch else b)
            (batches s)) s).

Definition deleteBatch (batchId : string) (s : AppState) : AppState :=
  setNotification (Some "Batch deleted successfully!"%string)
    (setBatches (filter (fun b => negb (id b =? batchId)%string) (batches s)) s).

Definition addBatchType (now : Z) (newBatchType : NewBatchType) (s : AppState)
    : AppState :=
  let typeWithId :=
    mkBatchType (JS.Number_toString now)
      (nbt_batchNumber newBatchType) (nbt_color newBatchType) in
  setNotification (Some "Batch type added successfully!"%string)
    (setBatchTypes (batchTypes s ++ [typeWithId]) s).

Definition updateBatchType (updatedBatchType : BatchType) (s : AppState)
    : AppState :=
  setBatchTypes
    (map (fun bt => if (bt_id bt =? bt_id updatedBatchType)%string
                    then updatedBatchType else bt)
         (batchTypes s)) s.

Definition deleteBatchType (batchTypeId : string) (s : AppState) : AppState :=
  setNotification (Some "Batch type deleted successfully!"%string)
    (setBatchTypes
       (filter (fun bt => negb (bt_id bt =? batchTypeId)%string) (batchTypes s)) s).

(** The seeding effect.  Its dependency list holds the two setters, which
    are new functions at every render, so it runs after every render. *)
Definition seedingCondition (s : AppState) : bool :=
  match settings s with
  | Some _ => (List.length (batches s) =? 0)%nat
  | None => false
  end.

Definition seedingEffect (s : AppState) : AppState :=
  if seedingCondition s then
    setBatchTypes MOCK_BATCH_TYPES
      (setBatches (map (fun b => b InProgress) MOCK_BATCHES) s)
  else s.

(** ** Page handlers *)

(** [UserDetailsPage]. *)
Definition existingBatchNumbers (batchTypes : list BatchType) : list string :=
  map (fun bt => JS.toUpperCase (bt_batchNumber bt)) batchTypes.

Definition handleAddBatchType (now : Z) (newBatchNumber newBatchColor : string)
    (s : AppState) : AppState :=
  if negb (JS.truthy (JS.trim newBatchNumber)) then
    setNotification (Some "Batch number cannot be empty."%string) s
  else if JS.includes (existingBatchNumbers (batchTypes s))
            (JS.toUpperCase (JS.trim newBatchNumber)) then
    setNotification (Some "Batch number must be unique."%string) s
  else
    addBatchType now
      (mkNewBatchType (JS.toUpperCase (JS.trim newBatchNumber)) newBatchColor) s.

Definition handleUpdateColor (typeId color : string) (s : AppState) : AppState :=
  match find (fun bt => (bt_id bt =? typeId)%string) (batchTypes s) with
  | Some batchType =>
      updateBatchType
        (mkBatchType (bt_id batchType) (bt_batchNumber batchType) color) s
  | None => s
  end.

(** [SettingsPage]. *)
Definition handleSettingsSubmit (formData : Settings) (s : AppState) : AppState :=
  setNotification (Some "Company settings updated successfully!"%string)
    (setSettings (Some formData) s).

Definition handleReset (s : AppState) : AppState :=
  setBatches [] (setSettings None s).

(** [SetupWizard]. *)
Definition handleComplete (formData : Settings) (s : AppState) : AppState :=
  if JS.truthy (companyName formData)
     && negb (Qle_bool (numberOfMachines formData) 0)
  then setSettings (Some formData) s
  else s.

(** ** Runs of the application

    A command is one user event; the handler runs, the component renders
    again, and the seeding effect runs after the render. *)
Inductive Command :=
| CompleteSetup (formData : Settings)
| SubmitSettings (formData : Settings)
| ResetAll
| AddBatch (now : Z) (newBatch : NewBatch)
| UpdateBatch (updatedBatch : Batch)
| DeleteBatch (batchId : string)
| SubmitBatchType (now : Z) (newBatchNumber newBatchColor : string)
| UpdateColor (typeId color : string)
| DeleteBatchType (batchTypeId : string)
| ToggleTheme.

Definition handle (c : Command) : AppState -> AppState :=
  match c with
  | CompleteSetup formData => handleComplete formData
  | SubmitSettings formData => handleSettingsSubmit formData
  | ResetAll => handleReset
  | AddBatch now newBatch => addBatch now newBatch
  | UpdateBatch updatedBatch => updateBatch updatedBatch
  | DeleteBatch batchId => deleteBatch batchId
  | SubmitBatchType now n c => handleAddBatchType now n c
  | UpdateColor i c => handleUpdateColor i c
  | DeleteBatchType i => deleteBatchType i
  | ToggleTheme => toggleTheme
  end.

Definition step (c : Command) (s : AppState) : AppState :=
  seedingEffect (handle c s).

Fixpoint run (cs : list Command) (s : AppState) : AppState :=
  match cs with
  | [] => s
  | c :: r => run r (step c s)
  end.

(** How many times the seeding effect seeded during a run. *)
Fixpoint seedings (cs : list Command) (s : AppState) : nat :=
  match cs with
  | [] => 0
  | c :: r =>
      ((if seedingCondition (handle c s) then 1 else 0) + seedings r (step c s))%nat
  end.

(** ** Further views and handlers *)

(** [DashboardPage.stats.overallFtotal]:
    [calculatedBatches.reduce((sum, b) => sum + b.ftotal, 0)]. *)
Definition overallFtotal (calculated : list CalculatedBatch) : Z :=
  fold_left (fun sum b => sum + ftotal b) calculated 0.

(** [MachineCard.latestBatch]: the first batch of the card's list, [null]
    when the list is empty. *)
Definition latestBatch (batches : list CalculatedBatch) : option CalculatedBatch :=
  match batches with
  | [] => None
  | b :: _ => Some b
  end.

(** [Omit<Batch, 'status'>], the form data of [EditBatchModal].  The form
    is filled from the batch being edited; opened from a machine card that
    batch is a calculated one, whose [ftotal] and [average] go with the
    form into the stored batch, where [calculatedBatches] overwrites both.
    The model keeps the fields of a [Batch] only. *)
Record BatchForm := mkBatchForm {
  bf_id : string;
  bf_name : option string;
  bf_batchNumber : string;
  bf_machineNumber : Z;
  bf_startDate : string;
  bf_endDate : string;
  bf_meterValue : Q;
  bf_color : option string;
  bf_image : option string
}.

(** [AppContent.existingBatchNumbers], handed to [EditBatchModal]. *)
Definition batchNumbersOf (batches : list Batch) : list string :=
  map (fun b => batchNumber b) batches.

Record EditErrors := mkEditErrors {
  err_batchNumber : string;
  err_meterValue : string
}.

(** [EditBatchModal.validate]: the errors it sets and its result.  The form
    holds [meterValue] as a number read from a number input, which is never
    NaN, so the [isNaN] test has no case here. *)
Definition EditBatchModal_validate (existingBatchNumbers : list string)
    (batchToEdit : Batch) (formData : BatchForm) : EditErrors * bool :=
  let e1 :=
    if JS.includes existingBatchNumbers
         (JS.toUpperCase (JS.trim (bf_batchNumber formData)))
       && negb (JS.toUpperCase (bf_batchNumber formData)
                =? JS.toUpperCase (batchNumber batchToEdit))%string
    then (mkEditErrors "Batch number must be unique." "", false)
    else (mkEditErrors "" "", true) in
  let e2 :=
    if negb (JS.truthy (JS.trim (bf_batchNumber formData)))
    then (mkEditErrors "Batch number is required." (err_meterValue (fst e1)), false)
    else e1 in
  if Qle_bool (bf_meterValue formData) 0
  then (mkEditErrors (err_batchNumber (fst e2)) "Enter a valid meter value.", false)
  else e2.

(** [EditBatchModal.handleSubmit]. *)
Definition EditBatchModal_handleSubmit (existingBatchNumbers : list string)
    (batchToEdit : Batch) (formData : BatchForm) (s : AppState) : AppState :=
  if snd (EditBatchModal_validate existingBatchNumbers batchToEdit formData)
  then
    updateBatch
      (mkBatch (bf_id formData) (bf_name formData)
         (JS.toUpperCase (bf_batchNumber formData)) (bf_machineNumber formData)
         (bf_startDate formData) (bf_endDate formData) (bf_meterValue formData)
         (status batchToEdit) (bf_color formData) (bf_image formData)) s
  else s.

(** The modal as [AppContent] mounts it: the existing batch numbers are
    those of the current batch list. *)
Definition submitEdit (batchToEdit : Batch) (formData : BatchForm)
    (s : AppState) : AppState :=
  EditBatchModal_handleSubmit (batchNumbersOf (batches s)) batchToEdit formData s.

(** The form data of [AddBatchModal].  [af_machineNumber] and
    [af_meterValue] are [Number(formData.machineNumber)] and
    [Number(formData.meterValue)], the readings of a select of numbers and of
    a number input: neither is NaN, and the empty text of the input reads
    as [0]. *)
Record AddForm := mkAddForm {
  af_batchNumber : string;
  af_machineNumber : Z;
  af_startDate : string;
  af_endDate : string;
  af_meterValue : Q;
  af_color : string
}.

(** [AddBatchModal.handleBatchNumberChange]: the form takes the chosen
    batch number, and the colour of the first batch type that has it. *)
Definition handleBatchNumberChange (batchTypes : list BatchType)
    (selectedBatchNumber : string) (formData : AddForm) : AddForm :=
  let selectedBatchType :=
    find (fun bt => (bt_batchNumber bt =? selectedBatchNumber)%string) batchTypes in
  mkAddForm selectedBatchNumber (af_machineNumber formData)
    (af_startDate formData) (af_endDate formData) (af_meterValue formData)
    (match selectedBatchType with
     | Some bt => bt_color bt
     | None => "#f59e0b"
     end).

(** [AddBatchModal.validate]: the error it sets and its result.  An empty
    text reads as [0], so the first test of the source is a case of the
    last. *)
Definition AddBatchModal_validate (formData : AddForm) : string * bool :=
  if Qle_bool (af_meterValue formData) 0
  then ("Enter a valid meter value.", false)
  else ("", true).

(** [AddBatchModal.handleSubmit]; the form has no image. *)
Definition AddBatchModal_handleSubmit (now : Z) (formData : AddForm)
    (s : AppState) : AppState :=
  if snd (AddBatchModal_validate formData)
  then
    addBatch now
      (mkNewBatch (JS.toUpperCase (af_batchNumber formData))
         (af_machineNumber formData) (af_startDate formData)
         (af_endDate formData) (af_meterValue formData)
         (Some (af_color formData)) None) s
  else s.

(** ** Runs through the forms

    The pages reach [addBatch] and [updateBatch] through the two forms
    only. *)
Inductive UIEvent :=
| AddSubmitted (now : Z) (formData : AddForm)
| EditSubmitted (batchToEdit : Batch) (formData : BatchForm)
| Commanded (c : Command).

Definition uiHandle (e : UIEvent) (s : AppState) : AppState :=
  match e with
  | AddSubmitted now formData => AddBatchModal_handleSubmit now formData s
  | EditSubmitted batchToEdit formData => submitEdit batchToEdit formData s
  | Commanded c => handle c s
  end.

Definition uiStep (e : UIEvent) (s : AppState) : AppState :=
  seedingEffect (uiHandle e s).

Fixpoint uiRun (es : list UIEvent) (s : AppState) : AppState :=
  match es with
  | [] => s
  | e :: r => uiRun r (uiStep e s)
  end.

(** ** The calculator ([CalculatorModal])

    The numbers are the host's: [parseFloat], [String] and the four
    operations are left to it. *)
Class HostNumber := {
  num : Type;
  parseFloat : string -> num;
  String_of_number : num -> string;
  num_add : num -> num -> num;
  num_sub : num -> num -> num;
  num_mul : num -> num -> num;
  num_div : num -> num -> num
}.

(** The three state variables of the component. *)
Record Calculator (number : Type) := mkCalculator {
  calc_input : string;
  calc_operator : option string;
  calc_previousValue : option number
}.

Arguments mkCalculator {number} _ _ _.
Arguments calc_input {number} _.
Arguments calc_operator {number} _.
Arguments calc_previousValue {number} _.

(** [useState('0')], [useState(null)], [useState(null)]. *)
Definition initialCalculator {number : Type} : Calculator number :=
  mkCalculator "0" None None.

Definition setInput {number} (v : string) (c : Calculator number) : Calculator number :=
  mkCalculator v (calc_operator c) (calc_previousValue c).

Definition setOperator {number} (v : option string) (c : Calculator number)
    : Calculator number :=
  mkCalculator (calc_input c) v (calc_previousValue c).

Definition setPreviousValue {number} (v : option number) (c : Calculator number)
    : Calculator number :=
  mkCalculator (calc_input c) (calc_operator c) v.

(** [String.prototype.includes]: [searchString] occurs in [s]. *)
Fixpoint String_includes (s searchString : string) : bool :=
  String.prefix searchString s
  || match s with
     | EmptyString => false
     | String _ r => String_includes r searchString
     end.

(** A handler reads the state variables of the render it was made in,
    [snap], and the setters it calls are applied in their order to the
    state that the render ends with, [pending]: a later call of a setter
    replaces what an earlier call of it set. *)
Definition handleInput {number} (value : string) (snap pending : Calculator number)
    : Calculator number :=
  if (calc_input snap =? "0")%string && negb (value =? ".")%string
  then setInput value pending
  else if (value =? ".")%string && String_includes (calc_input snap) "."
  then pending
  else setInput (calc_input snap ++ value) pending.

(** The [switch] of [handleEquals]. *)
Definition arith `{HostNumber} (operator : string) : option (num -> num -> num) :=
  if (operator =? "+")%string then Some num_add
  else if (operator =? "-")%string then Some num_sub
  else if (operator =? "*")%string then Some num_mul
  else if (operator =? "/")%string then Some num_div
  else None.

Definition handleEquals `{HostNumber} (snap pending : Calculator num)
    : Calculator num :=
  match calc_operator snap, calc_previousValue snap with
  | Some operator, Some previousValue =>
      if JS.truthy operator then
        let currentValue := parseFloat (calc_input snap) in
        match arith operator with
        | Some f =>
            setPreviousValue None
              (setOperator None
                 (setInput (String_of_number (f previousValue currentValue))
                    pending))
        | None => pending
        end
      else pending
  | _, _ => pending
  end.

Definition handleOperator `{HostNumber} (op : string) (snap pending : Calculator num)
    : Calculator num :=
  let pending1 :=
    match calc_previousValue snap with
    | Some _ => handleEquals snap pending
    | None => pending
    end in
  setInput "0"
    (setOperator (Some op)
       (setPreviousValue (Some (parseFloat (calc_input snap))) pending1)).

Definition handleClear {number} (snap pending : Calculator number)
    : Calculator number :=
  setPreviousValue None (setOperator None (setInput "0" pending)).

(** The buttons; [DEL] has an empty handler. *)
Inductive Button :=
| ButtonClear
| ButtonDel
| ButtonOperator (op : string)
| ButtonInput (value : string)
| ButtonEquals.

Definition press `{HostNumber} (b : Button) (c : Calculator num) : Calculator num :=
  match b with
  | ButtonClear => handleClear c c
  | ButtonDel => c
  | ButtonOperator op => handleOperator op c c
  | ButtonInput value => handleInput value c c
  | ButtonEquals => handleEquals c c
  end.

Definition pressAll `{HostNumber} (bs : list Button) (c : Calculator num)
    : Calculator num :=
  fold_left (fun c b => press b c) bs c.

(** ** Local dates and the monthly report ([ReportsPage])

    [getFullYear] and [getMonth] read a time value in local time: the time
    value plus the offset of the local zone at that time, [LocalTZA], which
    belongs to the host and is a parameter here.  An invalid date gives NaN
    for both ([None]). *)
Definition Day (t : Z) : Z := t / JS.msPerDay.

(** The year [y] with [DayFromYear y <= d < DayFromYear (y + 1)], found from
    an estimate that is off by one at most. *)
Definition YearFromDay (d : Z) : Z :=
  let y := 1970 + (400 * d) / 146097 in
  if d <? JS.DayFromYear y then y - 1
  else if JS.DayFromYear (y + 1) <=? d then y + 1
  else y.

Definition YearFromTime (t : Z) : Z := YearFromDay (Day t).

Definition MonthFromTime (t : Z) : Z :=
  let y := YearFromTime t in
  let d := Day t - JS.DayFromYear y in
  let leap := if JS.isLeapYear y then 1 else 0 in
  if d <? 31 then 0
  else if d <? 59 + leap then 1
  else if d <? 90 + leap then 2
  else if d <? 120 + leap then 3
  else if d <? 151 + leap then 4
  else if d <? 181 + leap then 5
  else if d <? 212 + leap then 6
  else if d <? 243 + leap then 7
  else if d <? 273 + leap then 8
  else if d <? 304 + leap then 9
  else if d <? 334 + leap then 10
  else 11.

Definition LocalTime (LocalTZA : Z -> Z) (t : Z) : Z := t + LocalTZA t.

Definition getFullYear (LocalTZA : Z -> Z) (date : string) : option Z :=
  option_map (fun t => YearFromTime (LocalTime LocalTZA t)) (JS.Date_getTime date).

Definition getMonth (LocalTZA : Z -> Z) (date : string) : option Z :=
  option_map (fun t => MonthFromTime (LocalTime LocalTZA t)) (JS.Date_getTime date).

(** [a === b] on numbers that may be NaN. *)
Definition strictEquals (a : option Z) (b : Z) : bool :=
  match a with
  | Some x => x =? b
  | None => false
  end.

(** [ReportsPage.monthBatches]; [year] and [month] are
    [currentDate.getFullYear()] and [currentDate.getMonth()]. *)
Definition monthBatches (LocalTZA : Z -> Z) (calculated : list CalculatedBatch)
    (year month : Z) : list CalculatedBatch :=
  filter (fun b => strictEquals (getFullYear LocalTZA (startDate (batch b))) year
                   && strictEquals (getMonth LocalTZA (startDate (batch b))) month)
         calculated.

(** The numbers of [ReportsPage.monthlyReport]; the month label, which the
    host formats by locale, is left out. *)
Record MonthlyTotals := mkTotals {
  totalBatches : nat;
  totalMeter : Q;
  totalFtotal : Z
}.

Definition monthlyReport (monthBatches : list CalculatedBatch) : MonthlyTotals :=
  mkTotals (List.length monthBatches)
    (fold_left (fun sum b => (sum + meterValue (batch b))%Q) monthBatches 0%Q)
    (fold_left (fun sum b => sum + ftotal b) monthBatches 0).

(** ** The calendar ([BatchCalendar])

    A [Map] from date text to an array of batches: the entries in the order
    in which their keys were first set. *)
Definition DateMap := list (string * list CalculatedBatch).

Definition Map_has (m : DateMap) (key : string) : bool :=
  existsb (fun e => (fst e =? key)%string) m.

Definition Map_get (m : DateMap) (key : string) : option (list CalculatedBatch) :=
  option_map snd (find (fun e => (fst e =? key)%string) m).

Definition Map_set (m : DateMap) (key : string) (v : list CalculatedBatch)
    : DateMap :=
  if Map_has m key
  then map (fun e => if (fst e =? key)%string then (key, v) else e) m
  else m ++ [(key, v)].

(** [map.get(key)?.push(b)]: the array under [key], if there is one, gets
    [b] at its end. *)
Definition Map_push (m : DateMap) (key : string) (b : CalculatedBatch) : DateMap :=
  map (fun e => if (fst e =? key)%string then (fst e, snd e ++ [b]) else e) m.

(** The body of [batches.forEach] in [calendarData]. *)
Definition addToCalendar (LocalTZA : Z -> Z) (year month : Z)
    (batchesByDate : DateMap) (b : CalculatedBatch) : DateMap :=
  if strictEquals (getFullYear LocalTZA (startDate (batch b))) year
     && strictEquals (getMonth LocalTZA (startDate (batch b))) month
  then
    let dateString := startDate (batch b) in
    let m := if negb (Map_has batchesByDate dateString)
             then Map_set batchesByDate dateString []
             else batchesByDate in
    Map_push m dateString b
  else batchesByDate.

Definition batchesByDate (LocalTZA : Z -> Z) (year month : Z)
    (batches : list CalculatedBatch) : DateMap :=
  fold_left (addToCalendar LocalTZA year month) batches [].

(** [String(n).padStart(2, '0')]. *)
Definition padStart2 (s : string) : string :=
  match s with
  | String c EmptyString => String "0" (String c EmptyString)
  | EmptyString => "00"
  | _ => s
  end.

(** The key of a day cell:
    [`${year}-${String(month + 1).padStart(2, '0')}-${String(day).padStart(2, '0')}`]. *)
Definition dateString (year month day : Z) : string :=
  (JS.Number_toString year ++ "-" ++ padStart2 (JS.Number_toString (month + 1))
   ++ "-" ++ padStart2 (JS.Number_toString day))%string.

(** [calendarData.batchesByDate.get(dateString) || []]. *)
Definition dayBatches (LocalTZA : Z -> Z) (year month : Z)
    (batches : list CalculatedBatch) (day : Z) : list CalculatedBatch :=
  match Map_get (batchesByDate LocalTZA year month batches)
          (dateString year month day) with
  | Some l => l
  | None => []
  end.

(** What a day cell shows: the first two batches of the day, and how many
    more there are when there are more than two. *)
Record DayCell := mkDayCell {
  cell_day : Z;
  cell_shown : list CalculatedBatch;
  cell_more : option nat
}.

Definition dayCell (LocalTZA : Z -> Z) (year month : Z)
    (batches : list CalculatedBatch) (day : Z) : DayCell :=
  let l := dayBatches LocalTZA year month batches day in
  mkDayCell day (firstn 2 l)
    (if (2 <? List.length l)%nat then Some (List.length l - 2)%nat else None).

(** The day cells of a month view, for the days [1] to
    [new Date(year, month + 1, 0).getDate()], the number of days of the
    month (the view's year is [currentDate.getFullYear()], taken outside the
    range [0..99] that the [Date] constructor reads as [19xx]). *)
Definition dayCells (LocalTZA : Z -> Z) (year month : Z)
    (batches : list CalculatedBatch) : list DayCell :=
  map (fun i => dayCell LocalTZA year month batches (Z.of_nat i + 1))
      (seq 0 (Z.to_nat (JS.DaysInMonth year (month + 1)))).

(** ** Vocabulary of the properties *)

(** [n] is the integer nearest to [x], the larger one on a tie. *)
Definition nearest (x : Q) (n : Z) : Prop :=
  (x - (1 # 2) < inject_Z n /\ inject_Z n <= x + (1 # 2))%Q.

(** [y] is [x] rounded to [f] decimal places: a whole number of [10^-f]
    units, the nearest one to [x]. *)
Definition roundedTo (f : nat) (x y : Q) : Prop :=
  exists n : Z,
    (y == inject_Z n / inject_Z (10 ^ Z.of_nat f))%Q
    /\ nearest (x * inject_Z (10 ^ Z.of_nat f)) n.

(** The meter value of the scenario, [1250.5]. *)
Definition scenarioMeter : Q := 12505 # 10.

(** The meter value typed as [22.11]: the binary64 number nearest to it,
    which lies a little below. *)
Definition typed22_11 : Q := JS.binary64 (2211 # 100).

(** A batch of a given meter value. *)
Definition meterBatch (meterValue : Q) : Batch :=
  mkBatch "1" None "ACR001" 1 "2023-10-01" "2023-10-05" meterValue InProgress
    None None.

(** The time value of a calculated batch's start date. *)
Definition time (c : CalculatedBatch) : option Z :=
  JS.Date_getTime (startDate c).

Definition validStart (b : Batch) : Prop :=
  JS.Date_getTime (startDate b) <> None.

(** [a] starts no earlier than [b]: both dates are valid and in that order. *)
Definition notEarlier (a b : CalculatedBatch) : Prop :=
  exists ta tb, time a = Some ta /\ time b = Some tb /\ tb <= ta.

(** The weakest reading of "in descending order": a pair is out of order
    only when both dates are valid and the later one comes second. *)
Definition inOrder (a b : CalculatedBatch) : Prop :=
  match time a, time b with
  | Some ta, Some tb => tb <= ta
  | _, _ => True
  end.

Definition option_Z_eqb (x y : option Z) : bool :=
  match x, y with
  | Some a, Some b => a =? b
  | None, None => true
  | _, _ => false
  end.

(** The batches whose start date has time value [t]. *)
Definition startsAt (t : option Z) (c : CalculatedBatch) : bool :=
  option_Z_eqb (time c) t.

(** Three batches: January, a cleared start date, February. *)
Definition undatedInput : list Batch :=
  [ mkBatch "a" (Some "") "ACR001" 1 "2023-01-01" "2023-01-05" 100 InProgress None None;
    mkBatch "b" (Some "") "ACR001" 1 "" "2023-01-05" 100 InProgress None None;
    mkBatch "c" (Some "") "ACR001" 1 "2023-02-01" "2023-02-05" 100 InProgress None None ].

(** Seven batches, four of them of the first of February, one with a
    cleared start date. *)
Definition unstableInput : list Batch :=
  [ mkBatch "a" (Some "") "ACR001" 1 "2023-02-01" "2023-02-05" 100 InProgress None None;
    mkBatch "b" (Some "") "ACR001" 1 "2023-03-01" "2023-03-05" 100 InProgress None None;
    mkBatch "c" (Some "") "ACR001" 1 "2023-02-01" "2023-02-05" 100 InProgress None None;
    mkBatch "d" (Some "") "ACR001" 1 "2023-01-01" "2023-01-05" 100 InProgress None None;
    mkBatch "e" (Some "") "ACR001" 1 "" "2023-01-05" 100 InProgress None None;
    mkBatch "f" (Some "") "ACR001" 1 "2023-02-01" "2023-02-05" 100 InProgress None None;
    mkBatch "g" (Some "") "ACR001" 1 "2023-02-01" "2023-02-05" 100 InProgress None None ].

(** What C7 says of ids: the batch that [addBatch] puts in front has an id
    that no batch already in the list has. *)
Definition freshId (now : Z) (newBatch : NewBatch) (s : AppState) : Prop :=
  forall b b',
    In b (batches s) ->
    hd_error (batches (addBatch now newBatch s)) = Some b' ->
    id b' <> id b.

(** The submitted text equals the batch number of [bt] but for case. *)
Definition sameButCase (text : string) (bt : BatchType) : Prop :=
  JS.toUpperCase (bt_batchNumber bt) = JS.toUpperCase text.

(** The state once the wizard is completed with its defaults and the
    seeding effect has run. *)
Definition seededState : AppState :=
  step (CompleteSetup (mkSettings "Geetha Tex" 3)) initialState.

(** Setup with the wizard's defaults, then the five mock batches deleted
    one after the other. *)
Definition deleteEverything : list Command :=
  [ CompleteSetup (mkSettings "Geetha Tex" 3);
    DeleteBatch "1"; DeleteBatch "2"; DeleteBatch "3"; DeleteBatch "4";
    DeleteBatch "5" ].

(** ** The scenario in binary64

    The scenario's two divisions as the engine performs them, on binary64
    numbers. *)
Module Binary64.
Import PrimFloat.

Definition meter : float := 1250.5%float.

Definition quarter : float := (meter / 4)%float.

Definition quotient : float := (meter / 313)%float.

(** [801 / 200], a quotient whose exact value [4.005] is a decimal tie. *)
Definition tie : float := (801 / 200)%float.

(** The number typed as [22.11], and its quotient by [6]. *)
Definition typed : float := 0x1.61c28f5c28f5cp+4%float.

Definition typedQuotient : float := (typed / 6)%float.

(** The exact value of a finite binary64 number. *)
Definition exact (f : float) : option Q :=
  match FloatOps.Prim2SF f with
  | SpecFloat.S754_zero _ => Some 0%Q
  | SpecFloat.S754_finite s m e =>
      Some ((if s then -1 else 1) * inject_Z (Z.pos m) * 2 ^ e)%Q
  | _ => None
  end.

End Binary64.

(** A batch number as the batch-type form stores it: not blank, without
    surrounding white space, in upper case. *)
Definition normalNumber (x : string) : Prop :=
  x <> "" /\ JS.trim x = x /\ JS.toUpperCase x = x.

(** The batch numbers differ from one another even when case is ignored. *)
Definition distinctNumbers (types : list BatchType) : Prop :=
  NoDup (existingBatchNumbers types).

(** An event as the pages raise it: a batch is added or updated by a form,
    not by a bare command. *)
Definition throughForms (e : UIEvent) : Prop :=
  match e with
  | Commanded (AddBatch _ _) | Commanded (UpdateBatch _) => False
  | _ => True
  end.

(** What the display shows after the values are keyed in on a cleared
    calculator. *)
Definition shown `{HostNumber} (values : list string) : string :=
  calc_input (pressAll (map ButtonInput values) initialCalculator).

(** The number of decimal points of a text. *)
Fixpoint points (s : string) : nat :=
  match s with
  | EmptyString => 0
  | String c r => ((if (c =? ".")%char then 1 else 0) + points r)%nat
  end.

(** The value of an input button: the point, or a text without one. *)
Definition buttonValue (value : string) : Prop :=
  value = "." \/ points value = 0%nat.

(** The character of a decimal digit. *)
Definition digitChar (k : Z) : ascii := ascii_of_nat (48 + Z.to_nat k).

(** The decimal numeral that has digit [k] in front of [t]. *)
Definition digitUint (k : Z) (t : Decimal.uint) : Decimal.uint :=
  match k with
  | 0 => Decimal.D0 t | 1 => Decimal.D1 t | 2 => Decimal.D2 t
  | 3 => Decimal.D3 t | 4 => Decimal.D4 t | 5 => Decimal.D5 t
  | 6 => Decimal.D6 t | 7 => Decimal.D7 t | 8 => Decimal.D8 t
  | _ => Decimal.D9 t
  end.

(** Appending a further run of batches to what a key holds. *)
Definition extend (o : option (list CalculatedBatch)) (l : list CalculatedBatch)
    : option (list CalculatedBatch) :=
  match l with
  | [] => o
  | _ => Some (match o with Some l0 => l0 ++ l | None => l end)
  end.

(** * Properties *)

(** ** Rounding *)

Lemma Math_round_nearest (x : Q) : nearest x (JS.Math_round x).
Proof.
  unfold nearest, JS.Math_round.
  pose proof (Qfloor_le (x + (1 # 2))) as Hle.
  pose proof (Qlt_floor (x + (1 # 2))) as Hlt.
  rewrite inject_Z_plus in Hlt.
  change (inject_Z 1) with 1%Q in Hlt.
  split; lra.
Qed.

Lemma nearest_unique (x : Q) (n m : Z) : nearest x n -> nearest x m -> n = m.
Proof.
  unfold nearest. intros [Hn1 Hn2] [Hm1 Hm2].
  assert (Hnm : (inject_Z n < inject_Z m + 1)%Q) by lra.
  assert (Hmn : (inject_Z m < inject_Z n + 1)%Q) by lra.
  change 1%Q with (inject_Z 1) in Hnm, Hmn.
  rewrite <- inject_Z_plus in Hnm, Hmn.
  rewrite <- Zlt_Qlt in Hnm, Hmn. lia.
Qed.

Lemma Math_round_nonneg (x : Q) : (0 <= x)%Q -> 0 <= JS.Math_round x.
Proof.
  intros Hx. unfold JS.Math_round.
  change 0 with (Qfloor 0). apply Qfloor_resp_le. lra.
Qed.

(** Below [10^21] a non-negative number is printed from the nearest
    multiple of [10^-f]. *)
Lemma toFixed_small (x : Q) (f : nat) :
  (0 <= x)%Q -> (x < inject_Z (10 ^ 21))%Q ->
  JS.toFixed x f =
  (inject_Z (Qfloor (x * inject_Z (10 ^ Z.of_nat f) + (1 # 2)))
   / inject_Z (10 ^ Z.of_nat f))%Q.
Proof.
  intros H0 Hup. unfold JS.toFixed.
  destruct (Qle_bool (inject_Z (10 ^ 21)) (Qabs x)) eqn:Hb.
  - apply Qle_bool_iff in Hb. rewrite Qabs_pos in Hb by assumption. lra.
  - destruct (Qlt_le_dec x 0) as [Hneg | _]; [lra |].
    rewrite Qabs_pos by assumption. reflexivity.
Qed.

(** ** Binary64 rounding *)

Lemma roundTiesToEven_near (x : Q) :
  (x - (1 # 2) <= inject_Z (JS.roundTiesToEven x) <= x + (1 # 2))%Q.
Proof.
  unfold JS.roundTiesToEven.
  pose proof (Qfloor_le x) as Hle.
  pose proof (Qlt_floor x) as Hlt.
  rewrite inject_Z_plus in Hlt. change (inject_Z 1) with 1%Q in Hlt.
  destruct (x - inject_Z (Qfloor x) ?= 1 # 2)%Q eqn:E.
  - apply Qeq_alt in E.
    destruct (Z.even (Qfloor x)); [lra |].
    rewrite inject_Z_plus. change (inject_Z 1) with 1%Q. lra.
  - apply Qlt_alt in E. lra.
  - apply Qgt_alt in E. rewrite inject_Z_plus. change (inject_Z 1) with 1%Q. lra.
Qed.

Lemma roundTiesToEven_ge (x : Q) (k : Z) :
  (inject_Z k <= x)%Q -> k <= JS.roundTiesToEven x.
Proof.
  intros H. destruct (roundTiesToEven_near x) as [Hlo _].
  assert (Hk : (inject_Z k < inject_Z (JS.roundTiesToEven x) + 1)%Q) by lra.
  change 1%Q with (inject_Z 1) in Hk. rewrite <- inject_Z_plus in Hk.
  rewrite <- Zlt_Qlt in Hk. lia.
Qed.

Lemma roundTiesToEven_le (x : Q) (k : Z) :
  (x <= inject_Z k)%Q -> JS.roundTiesToEven x <= k.
Proof.
  intros H. destruct (roundTiesToEven_near x) as [_ Hhi].
  assert (Hk : (inject_Z (JS.roundTiesToEven x) < inject_Z k + 1)%Q) by lra.
  change 1%Q with (inject_Z 1) in Hk. rewrite <- inject_Z_plus in Hk.
  rewrite <- Zlt_Qlt in Hk. lia.
Qed.

(** The rounding depends on the value only, not on how the fraction is
    written. *)
Lemma binary64_comp (x y : Q) : (x == y)%Q -> JS.binary64 x = JS.binary64 y.
Proof.
  intros E. unfold JS.binary64.
  assert (Er : Qred (Qabs x) = Qred (Qabs y)).
  { apply Qred_complete. rewrite E. reflexivity. }
  rewrite Er.
  destruct (Qlt_le_dec x 0), (Qlt_le_dec y 0); try reflexivity; lra.
Qed.

(** The exponent of a number between [2] and [8]. *)
Lemma exponentOf_2_8 (x : Q) :
  (2 <= x)%Q -> (x < 8)%Q ->
  JS.exponentOf x = (if Qlt_le_dec x 4 then 1 else 2).
Proof.
  intros Hlo Hhi. unfold JS.exponentOf.
  destruct x as [a b]. unfold Qle, Qlt in Hlo, Hhi. simpl in Hlo, Hhi.
  cbn [Qnum Qden].
  assert (H2 : Z.log2 (Z.pos b * 2 ^ 1) = 1 + Z.log2 (Z.pos b))
    by (apply Z.log2_mul_pow2; lia).
  assert (H4 : Z.log2 (Z.pos b * 2 ^ 2) = 2 + Z.log2 (Z.pos b))
    by (apply Z.log2_mul_pow2; lia).
  assert (H8 : Z.log2 (Z.pos b * 2 ^ 3) = 3 + Z.log2 (Z.pos b))
    by (apply Z.log2_mul_pow2; lia).
  change (2 ^ 1) with 2 in H2. change (2 ^ 2) with 4 in H4.
  change (2 ^ 3) with 8 in H8.
  assert (L2 : Z.log2 (Z.pos b * 2) <= Z.log2 a) by (apply Z.log2_le_mono; lia).
  assert (L8 : Z.log2 a <= Z.log2 (Z.pos b * 8)) by (apply Z.log2_le_mono; lia).
  destruct (Qlt_le_dec (a # b) 4) as [H4' | H4'].
  - unfold Qlt in H4'. simpl in H4'.
    assert (L4 : Z.log2 a <= Z.log2 (Z.pos b * 4)) by (apply Z.log2_le_mono; lia).
    assert (E : Z.log2 a - Z.log2 (Z.pos b) = 1 \/ Z.log2 a - Z.log2 (Z.pos b) = 2)
      by lia.
    destruct E as [-> | ->].
    + assert (Hb' : Qle_bool (2 ^ 1) (a # b) = true).
      { apply Qle_bool_iff. unfold Qle. simpl. lia. }
      rewrite Hb'. reflexivity.
    + destruct (Qle_bool (2 ^ 2) (a # b)) eqn:Hb'; [| reflexivity].
      apply Qle_bool_iff in Hb'. unfold Qle in Hb'. simpl in Hb'. lia.
  - unfold Qle in H4'. simpl in H4'.
    assert (L4 : Z.log2 (Z.pos b * 4) <= Z.log2 a) by (apply Z.log2_le_mono; lia).
    assert (E : Z.log2 a - Z.log2 (Z.pos b) = 2 \/ Z.log2 a - Z.log2 (Z.pos b) = 3)
      by lia.
    destruct E as [-> | ->].
    + assert (Hb' : Qle_bool (2 ^ 2) (a # b) = true).
      { apply Qle_bool_iff. unfold Qle. simpl. lia. }
      rewrite Hb'. reflexivity.
    + destruct (Qle_bool (2 ^ 3) (a # b)) eqn:Hb'; [| reflexivity].
      apply Qle_bool_iff in Hb'. unfold Qle in Hb'. simpl in Hb'. lia.
Qed.

(** Rounding [r] to a whole number of steps [c] moves it by half a step at
    most, and never across a whole number of steps. *)
Lemma round_scaled (r c : Q) :
  (0 < c)%Q ->
  (r - c * (1 # 2) <= inject_Z (JS.roundTiesToEven (r / c)) * c
   <= r + c * (1 # 2))%Q
  /\ (forall lo : Z, (inject_Z lo * c <= r)%Q ->
        (inject_Z lo * c <= inject_Z (JS.roundTiesToEven (r / c)) * c)%Q)
  /\ (forall hi : Z, (r <= inject_Z hi * c)%Q ->
        (inject_Z (JS.roundTiesToEven (r / c)) * c <= inject_Z hi * c)%Q).
Proof.
  intros Hc.
  assert (Hne : ~ (c == 0)%Q) by lra.
  set (z := (r / c)%Q).
  assert (Hz : (z * c == r)%Q) by (unfold z; field; exact Hne).
  destruct (roundTiesToEven_near z) as [N1 N2].
  set (n := inject_Z (JS.roundTiesToEven z)) in *.
  assert (M1 : ((z - (1 # 2)) * c <= n * c)%Q)
    by (apply Qmult_le_compat_r; [exact N1 | lra]).
  assert (M2 : (n * c <= (z + (1 # 2)) * c)%Q)
    by (apply Qmult_le_compat_r; [exact N2 | lra]).
  assert (D1 : ((z - (1 # 2)) * c == z * c - c * (1 # 2))%Q) by ring.
  assert (D2 : ((z + (1 # 2)) * c == z * c + c * (1 # 2))%Q) by ring.
  split; [split; lra |]. split.
  - intros lo Hlo. apply Qmult_le_compat_r; [| lra].
    unfold n. rewrite <- Zle_Qle. apply roundTiesToEven_ge.
    apply (Qmult_le_r _ _ c Hc). lra.
  - intros hi Hhi. apply Qmult_le_compat_r; [| lra].
    unfold n. rewrite <- Zle_Qle. apply roundTiesToEven_le.
    apply (Qmult_le_r _ _ c Hc). lra.
Qed.

(** Between [2] and [8] the binary64 number nearest to [x] is within
    [2^-51] of it, and no rounding crosses [2] or [6]. *)
Lemma binary64_2_8 (x : Q) :
  (2 <= x)%Q -> (x < 8)%Q ->
  (x - (1 # 2 ^ 51) <= JS.binary64 x <= x + (1 # 2 ^ 51))%Q
  /\ (2 <= JS.binary64 x)%Q
  /\ ((x <= 6)%Q -> (JS.binary64 x <= 6)%Q).
Proof.
  intros Hlo Hhi. unfold JS.binary64.
  assert (Hr : (Qred (Qabs x) == x)%Q).
  { rewrite Qred_correct. apply Qabs_pos. lra. }
  set (r := Qred (Qabs x)) in *.
  destruct (Qeq_bool r 0) eqn:E0; [apply Qeq_bool_iff in E0; lra |].
  destruct (Qlt_le_dec x 0) as [Hneg | _]; [lra |].
  rewrite exponentOf_2_8 by lra.
  destruct (Qlt_le_dec r 4) as [H4 | H4].
  - change (Z.max 1 (-1022) - 52) with (-51).
    set (c := (2 ^ (-51))%Q).
    assert (Hc : (0 < c)%Q) by reflexivity.
    destruct (round_scaled r c Hc) as [[N1 N2] [Hge Hle]].
    assert (Ehalf : (c * (1 # 2) <= 1 # 2 ^ 51)%Q)
      by (apply Qle_bool_iff; vm_compute; reflexivity).
    assert (E2 : (inject_Z (2 ^ 52) * c == 2)%Q) by reflexivity.
    assert (E4 : (inject_Z (2 ^ 53) * c == 4)%Q) by reflexivity.
    specialize (Hge (2 ^ 52)). specialize (Hle (2 ^ 53)).
    rewrite E2 in Hge. rewrite E4 in Hle.
    split; [split; lra |]. split; [lra |]. intros _. lra.
  - change (Z.max 2 (-1022) - 52) with (-50).
    set (c := (2 ^ (-50))%Q).
    assert (Hc : (0 < c)%Q) by reflexivity.
    destruct (round_scaled r c Hc) as [[N1 N2] [Hge Hle]].
    assert (Ehalf : (c * (1 # 2) <= 1 # 2 ^ 51)%Q)
      by (apply Qle_bool_iff; vm_compute; reflexivity).
    assert (E4 : (inject_Z (2 ^ 52) * c == 4)%Q) by reflexivity.
    assert (E6 : (inject_Z (6 * 2 ^ 50) * c == 6)%Q) by reflexivity.
    specialize (Hge (2 ^ 52)). specialize (Hle (6 * 2 ^ 50)).
    rewrite E4 in Hge. rewrite E6 in Hle.
    split; [split; lra |]. split; [lra |]. intros H6. lra.
Qed.

(** ** The derived quantities *)

Lemma ftotal_bounds (b : Batch) :
  (0 < meterValue b)%Q ->
  0 <= ftotal (deriveBatch b)
  /\ (meterValue b < 4 * inject_Z (ftotal (deriveBatch b)) + 2)%Q.
Proof.
  intros Hm. simpl.
  destruct (Math_round_nearest (meterValue b / 4)) as [Hlo _].
  split.
  - apply Math_round_nonneg.
    apply Qle_shift_div_l; lra.
  - assert (Hq : (meterValue b / 4 * 4 == meterValue b)%Q) by (field).
    lra.
Qed.

Lemma quotient_range (b : Batch) :
  (0 < meterValue b)%Q ->
  0 < ftotal (deriveBatch b) ->
  (2 <= meterValue b / inject_Z (ftotal (deriveBatch b)))%Q
  /\ (meterValue b / inject_Z (ftotal (deriveBatch b)) < 6)%Q.
Proof.
  intros Hm Hpos.
  destruct (ftotal_bounds b Hm) as [_ Hup].
  destruct (Math_round_nearest (meterValue b / 4)) as [_ Hhi].
  assert (Hq : (meterValue b / 4 * 4 == meterValue b)%Q) by field.
  simpl in *.
  set (ft := JS.Math_round (meterValue b / 4)) in *.
  assert (Hft : (1 <= inject_Z ft)%Q).
  { change 1%Q with (inject_Z 1). rewrite <- Zle_Qle. lia. }
  split.
  - apply Qle_shift_div_l; lra.
  - apply Qlt_shift_div_r; lra.
Qed.

Lemma deriveBatch_average_rounded (b : Batch) :
  (0 < meterValue b)%Q ->
  0 < ftotal (deriveBatch b) ->
  roundedTo 2 (JS.binary64 (meterValue b / inject_Z (ftotal (deriveBatch b))))
            (average (deriveBatch b)).
Proof.
  intros Hm Hpos.
  destruct (quotient_range b Hm Hpos) as [H2 H6].
  destruct (binary64_2_8 _ H2) as [_ [Hf2 Hf6]]; [lra |].
  specialize (Hf6 (Qlt_le_weak _ _ H6)).
  simpl in *.
  set (ft := JS.Math_round (meterValue b / 4)) in *.
  destruct (0 <? ft) eqn:Hlt; [| apply Z.ltb_ge in Hlt; lia].
  rewrite toFixed_small.
  - eexists. split; [reflexivity |]. apply Math_round_nearest.
  - lra.
  - apply Qle_lt_trans with (y := 6%Q); [exact Hf6 | reflexivity].
Qed.

(** C1, as the code has it.  For a batch with a positive meter value,
    [ftotal] is the integer nearest to [meterValue / 4]; [average] is [0]
    when [ftotal] is [0]; otherwise it is the binary64 quotient of the
    meter value by [ftotal], rounded to two decimal places.  That quotient
    is within [2^-51] of [meterValue / ftotal], so the average is within
    [0.005 + 2^-51] of it. *)
Theorem deriveBatch_ftotal_average (b : Batch) :
  (0 < meterValue b)%Q ->
  nearest (meterValue b / 4) (ftotal (deriveBatch b))
  /\ (ftotal (deriveBatch b) = 0 -> (average (deriveBatch b) == 0)%Q)
  /\ (0 < ftotal (deriveBatch b) ->
      roundedTo 2
        (JS.binary64 (meterValue b / inject_Z (ftotal (deriveBatch b))))
        (average (deriveBatch b))
      /\ (Qabs (JS.binary64 (meterValue b / inject_Z (ftotal (deriveBatch b)))
                - meterValue b / inject_Z (ftotal (deriveBatch b)))
          <= 1 # 2 ^ 51)%Q
      /\ (Qabs (average (deriveBatch b)
                - meterValue b / inject_Z (ftotal (deriveBatch b)))
          <= (1 # 200) + (1 # 2 ^ 51))%Q).
Proof.
  intros Hm.
  split; [apply Math_round_nearest |].
  split.
  - intros H0. simpl in *. rewrite H0. reflexivity.
  - intros Hpos.
    pose proof (deriveBatch_average_rounded b Hm Hpos) as Hr.
    destruct (quotient_range b Hm Hpos) as [H2 H6].
    destruct (binary64_2_8 _ H2) as [[Hlo Hhi] _]; [lra |].
    split; [exact Hr |].
    set (x := (meterValue b / inject_Z (ftotal (deriveBatch b)))%Q) in *.
    split.
    + apply Qabs_Qle_condition. split; lra.
    + destruct Hr as [n [Hn [N1 N2]]].
      change (inject_Z (10 ^ Z.of_nat 2)) with 100%Q in *.
      assert (Hd : (inject_Z n / 100 * 100 == inject_Z n)%Q) by field.
      rewrite Hn. apply Qabs_Qle_condition. split; lra.
Qed.

Lemma deriveBatch_ftotal_average_witness :
  (0 < 12505 # 10)%Q
  /\ nearest ((12505 # 10) / 4) 313
  /\ roundedTo 2 (JS.binary64 ((12505 # 10) / inject_Z 313)) (400 # 100).
Proof.
  pose (b := mkBatch "1" None "ACR001" 1 "2023-10-01" "2023-10-05"
               (12505 # 10) InProgress None None).
  assert (Hm : (0 < meterValue b)%Q) by reflexivity.
  destruct (deriveBatch_ftotal_average b Hm) as [Hn [_ Hr]].
  split; [exact Hm |].
  split; [exact Hn |].
  apply Hr. reflexivity.
Defined.

(** C1 as the specification words it does not hold.  For the meter value
    typed as [22.11], [ftotal] is [6] and the quotient lies below [3.685],
    so that [3.68] is the nearest number of two decimal places; the
    binary64 quotient is not below [3.685], and the average is [3.69].  For
    the meter value [801], [ftotal] is [200] and the quotient is [4.005]
    exactly, a tie that two decimal places round to [4.01]; the binary64
    quotient lies below it, and the average is [4.00]. *)
Lemma deriveBatch_average_not_nearest :
  (ftotal (deriveBatch (meterBatch typed22_11)) = 6
   /\ (average (deriveBatch (meterBatch typed22_11)) == 369 # 100)%Q
   /\ (typed22_11 / 6 < 3685 # 1000)%Q
   /\ (3685 # 1000 <= JS.binary64 (typed22_11 / 6))%Q
   /\ (Qabs ((368 # 100) - typed22_11 / 6)
       < Qabs ((369 # 100) - typed22_11 / 6))%Q
   /\ ~ roundedTo 2 (typed22_11 / inject_Z 6)
          (average (deriveBatch (meterBatch typed22_11))))
  /\ (ftotal (deriveBatch (meterBatch 801)) = 200
      /\ (average (deriveBatch (meterBatch 801)) == 4)%Q
      /\ (801 / inject_Z 200 == 4005 # 1000)%Q
      /\ (JS.binary64 (801 / inject_Z 200) < 4005 # 1000)%Q
      /\ ~ roundedTo 2 (801 / inject_Z 200)
             (average (deriveBatch (meterBatch 801)))).
Proof.
  assert (Ha : (average (deriveBatch (meterBatch typed22_11)) == 369 # 100)%Q)
    by (vm_compute; reflexivity).
  assert (Hq : (typed22_11 / 6 < 3685 # 1000)%Q) by (vm_compute; reflexivity).
  assert (Hb : (average (deriveBatch (meterBatch 801)) == 4)%Q)
    by (vm_compute; reflexivity).
  assert (Ht : (801 / inject_Z 200 == 4005 # 1000)%Q) by reflexivity.
  split.
  - split; [vm_compute; reflexivity |].
    split; [exact Ha |]. split; [exact Hq |].
    split; [apply Qle_bool_iff; vm_compute; reflexivity |].
    split; [vm_compute; reflexivity |].
    intros [n [Hn [_ N2]]]. rewrite Ha in Hn.
    change (inject_Z 6) with 6%Q in N2.
    change (inject_Z (10 ^ Z.of_nat 2)) with 100%Q in *.
    assert (Hd : (inject_Z n / 100 * 100 == inject_Z n)%Q) by field.
    lra.
  - split; [vm_compute; reflexivity |].
    split; [exact Hb |]. split; [exact Ht |].
    split; [vm_compute; reflexivity |].
    intros [n [Hn [N1 _]]]. rewrite Hb in Hn. rewrite Ht in N1.
    change (inject_Z (10 ^ Z.of_nat 2)) with 100%Q in *.
    assert (Hd : (inject_Z n / 100 * 100 == inject_Z n)%Q) by field.
    lra.
Qed.

Lemma deriveBatch_meter_comp (b : Batch) (m : Q) :
  (meterValue b == m)%Q ->
  ftotal (deriveBatch b) = JS.Math_round (m / 4)
  /\ average (deriveBatch b)
     = (if 0 <? JS.Math_round (m / 4)
        then JS.toFixed (JS.binary64 (m / inject_Z (JS.Math_round (m / 4)))) 2
        else 0%Q).
Proof.
  intros He.
  assert (Hf : JS.Math_round (meterValue b / 4) = JS.Math_round (m / 4)).
  { unfold JS.Math_round. rewrite He. reflexivity. }
  simpl. rewrite Hf. split; [reflexivity |].
  destruct (0 <? JS.Math_round (m / 4)); [| reflexivity].
  f_equal. apply binary64_comp. rewrite He. reflexivity.
Qed.

(** C2, as the code has it.  At [meterValue = 1250.5] the derivation gives
    [ftotal = 313] and [average = 4.00]: [1250.5 / 313 = 3.9952...], which
    two decimal places round to [4.00]. *)
Theorem scenario_1250_5 (b : Batch) :
  (meterValue b == scenarioMeter)%Q ->
  ftotal (deriveBatch b) = 313 /\ (average (deriveBatch b) == 4)%Q.
Proof.
  intros He.
  destruct (deriveBatch_meter_comp b scenarioMeter He) as [Hf Ha].
  split.
  - rewrite Hf. reflexivity.
  - rewrite Ha. vm_compute. reflexivity.
Qed.

Lemma scenario_1250_5_witness :
  ftotal (deriveBatch (hd (fun st => mkBatch "" None "" 0 "" "" 0 st None None)
                          MOCK_BATCHES InProgress)) = 313.
Proof.
  apply (scenario_1250_5 (hd (fun st => mkBatch "" None "" 0 "" "" 0 st None None)
                             MOCK_BATCHES InProgress)).
  reflexivity.
Defined.

(** C2 as the specification words it does not hold: the average of the
    scenario is not [3.997]. *)
Lemma scenario_1250_5_not_3997 :
  ~ (ftotal (deriveBatch (mkBatch "1" (Some "Autumn Collection Run 1") "ACR001" 1
                            "2023-10-01" "2023-10-05" scenarioMeter InProgress
                            (Some "#16a34a") None)) = 313
     /\ (average (deriveBatch (mkBatch "1" (Some "Autumn Collection Run 1") "ACR001" 1
                            "2023-10-01" "2023-10-05" scenarioMeter InProgress
                            (Some "#16a34a") None)) == 3997 # 1000)%Q).
Proof.
  intros [_ Ha]. vm_compute in Ha. discriminate Ha.
Qed.

(** The scenario on binary64 numbers agrees.  [1250.5 / 4] is [312.625]
    exactly, which rounds to [313]; the binary64 quotient [1250.5 / 313]
    lies between [3.9951171875] and [4.00390625], hence within
    [3.995 .. 4.005], where two decimal places give [4.00].  The quotients
    that the engine's division gives are those of [JS.binary64]. *)
Module Binary64Facts.
Import PrimFloat.

Example quarter_exact : Binary64.quarter = 312.625%float.
Proof. reflexivity. Qed.

Example quotient_within :
  (3.9951171875 <? Binary64.quotient)%float = true
  /\ (Binary64.quotient <? 4.00390625)%float = true.
Proof. split; reflexivity. Qed.

Example quotient_agrees :
  option_map Qred (Binary64.exact Binary64.quotient)
  = Some (Qred (JS.binary64 (scenarioMeter / 313))).
Proof. vm_compute. reflexivity. Qed.

Example tie_agrees :
  option_map Qred (Binary64.exact Binary64.tie)
  = Some (Qred (JS.binary64 (801 / 200))).
Proof. vm_compute. reflexivity. Qed.

Example typed_agrees :
  option_map Qred (Binary64.exact Binary64.typed) = Some (Qred typed22_11)
  /\ option_map Qred (Binary64.exact Binary64.typedQuotient)
     = Some (Qred (JS.binary64 (typed22_11 / 6))).
Proof. split; vm_compute; reflexivity. Qed.

End Binary64Facts.

(** ** Ordering of the projection *)

Section SortFacts.
Context {A : Type} (comparefn : A -> A -> option Z).

Lemma insert_Permutation (x : A) (l : list A) :
  Permutation (JS.insert comparefn x l) (x :: l).
Proof.
  induction l as [| y r IH]; simpl.
  - apply Permutation_refl.
  - destruct (JS.SortCompare comparefn x y <=? 0).
    + apply Permutation_refl.
    + eapply perm_trans; [apply perm_skip, IH | apply perm_swap].
Qed.

Lemma insertionSort_Permutation (l : list A) :
  Permutation (JS.insertionSort comparefn l) l.
Proof.
  induction l as [| x r IH]; simpl.
  - constructor.
  - eapply perm_trans; [apply insert_Permutation | apply perm_skip, IH].
Qed.

Lemma insertPivot_Permutation (sorted : list A) (pivot : A) :
  Permutation (JS.insertPivot comparefn sorted pivot) (pivot :: sorted).
Proof.
  unfold JS.insertPivot.
  set (left := JS.search comparefn _ pivot sorted 0 (List.length sorted)).
  rewrite <- (firstn_skipn left sorted) at 3.
  apply Permutation_sym, Permutation_middle.
Qed.

Lemma fold_insertPivot_Permutation (rest sorted : list A) :
  Permutation (fold_left (JS.insertPivot comparefn) rest sorted) (sorted ++ rest).
Proof.
  revert sorted. induction rest as [| pivot rest IH]; intros sorted; simpl.
  - rewrite app_nil_r. apply Permutation_refl.
  - eapply perm_trans; [apply IH |].
    eapply perm_trans;
      [apply Permutation_app_tail, insertPivot_Permutation |].
    apply Permutation_middle.
Qed.

Lemma CountAndMakeRun_Permutation (work : list A) :
  Permutation (fst (JS.CountAndMakeRun comparefn work)) work.
Proof.
  destruct work as [| x0 [| x1 rest]]; try apply Permutation_refl.
  unfold JS.CountAndMakeRun.
  destruct (JS.SortCompare comparefn x1 x0 <? 0); [| apply Permutation_refl].
  cbn [fst].
  set (n := (2 + JS.runTail comparefn true x1 rest)%nat).
  rewrite <- (firstn_skipn n (x0 :: x1 :: rest)) at 3.
  apply Permutation_app_tail, Permutation_sym, Permutation_rev.
Qed.

Lemma TimSort_Permutation (work : list A) :
  Permutation (JS.TimSort comparefn work) work.
Proof.
  unfold JS.TimSort.
  destruct work as [| x0 [| x1 rest]]; try apply Permutation_refl.
  pose proof (CountAndMakeRun_Permutation (x0 :: x1 :: rest)) as H.
  destruct (JS.CountAndMakeRun comparefn (x0 :: x1 :: rest)) as [work' n].
  cbn [fst] in H.
  eapply perm_trans; [apply fold_insertPivot_Permutation |].
  rewrite firstn_skipn. exact H.
Qed.

(** Whatever the comparator, the sort rearranges. *)
Lemma sort_Permutation (l : list A) : Permutation (JS.sort comparefn l) l.
Proof.
  unfold JS.sort. destruct (JS.consistent comparefn l).
  - apply insertionSort_Permutation.
  - apply TimSort_Permutation.
Qed.

(** The binary search ends before its fuel does: more fuel changes
    nothing. *)
Lemma search_fuel (pivot : A) (work : list A) (fuel fuel' left right : nat) :
  (right - left < fuel)%nat -> (right - left < fuel')%nat ->
  JS.search comparefn fuel pivot work left right
  = JS.search comparefn fuel' pivot work left right.
Proof.
  revert fuel' left right.
  induction fuel as [| fuel IH]; intros fuel' left right H H'; [lia |].
  destruct fuel' as [| fuel']; [lia |].
  cbn [JS.search].
  destruct (Nat.ltb_spec left right) as [Hlt | _]; [| reflexivity].
  set (mid := (left + (right - left) / 2)%nat).
  assert (Hmid : (left <= mid < right)%nat).
  { unfold mid. split; [lia |].
    assert ((right - left) / 2 < right - left)%nat
      by (apply Nat.div_lt; lia).
    lia. }
  destruct (nth_error work mid) as [element |]; [| reflexivity].
  destruct (JS.SortCompare comparefn pivot element <? 0); apply IH; lia.
Qed.

(** A class of elements that the comparator never separates from one
    another keeps its order under insertion. *)
Variable p : A -> bool.
Hypothesis p_respected :
  forall x y, 0 < JS.SortCompare comparefn x y -> p x = true -> p y = false.

Lemma filter_insert (x : A) (l : list A) :
  filter p (JS.insert comparefn x l) = filter p (x :: l).
Proof.
  induction l as [| y r IH]; [reflexivity |].
  simpl JS.insert.
  destruct (JS.SortCompare comparefn x y <=? 0) eqn:Hc; [reflexivity |].
  apply Z.leb_gt in Hc.
  change (filter p (y :: JS.insert comparefn x r))
    with (if p y then y :: filter p (JS.insert comparefn x r)
          else filter p (JS.insert comparefn x r)).
  rewrite IH. simpl.
  destruct (p x) eqn:Hx.
  - rewrite (p_respected x y Hc Hx). reflexivity.
  - reflexivity.
Qed.

Lemma filter_insertionSort (l : list A) :
  filter p (JS.insertionSort comparefn l) = filter p l.
Proof.
  induction l as [| x r IH]; [reflexivity |].
  simpl JS.insertionSort. rewrite filter_insert. simpl. rewrite IH. reflexivity.
Qed.
End SortFacts.

Lemma byStartDateDesc_valid (a b : CalculatedBatch) (ta tb : Z) :
  time a = Some ta -> time b = Some tb ->
  JS.SortCompare byStartDateDesc a b = tb - ta.
Proof.
  unfold JS.SortCompare, byStartDateDesc, time. intros -> ->. reflexivity.
Qed.

Lemma byStartDateDesc_positive (a b : CalculatedBatch) :
  0 < JS.SortCompare byStartDateDesc a b ->
  exists ta tb, time a = Some ta /\ time b = Some tb /\ ta < tb.
Proof.
  unfold JS.SortCompare, byStartDateDesc, time.
  destruct (JS.Date_getTime (startDate b)) as [tb |];
    destruct (JS.Date_getTime (startDate a)) as [ta |]; try lia.
  intros H. exists ta, tb. repeat split; lia.
Qed.

Lemma startsAt_respected (t : option Z) (x y : CalculatedBatch) :
  0 < JS.SortCompare byStartDateDesc x y ->
  startsAt t x = true -> startsAt t y = false.
Proof.
  intros Hc Hx.
  destruct (byStartDateDesc_positive x y Hc) as [tx [ty [Hax [Hay Hlt]]]].
  unfold startsAt in *. rewrite Hax in Hx. rewrite Hay.
  destruct t as [t |]; simpl in *; [| reflexivity].
  apply Z.eqb_eq in Hx. apply Z.eqb_neq. lia.
Qed.

Lemma notEarlier_trans (a b c : CalculatedBatch) :
  notEarlier a b -> notEarlier b c -> notEarlier a c.
Proof.
  intros [ta [tb [Ha [Hb Hab]]]] [tb' [tc [Hb' [Hc Hbc]]]].
  rewrite Hb in Hb'. injection Hb' as <-.
  exists ta, tc. repeat split; try assumption. lia.
Qed.

Lemma insert_StronglySorted (x : CalculatedBatch) (l : list CalculatedBatch) :
  time x <> None -> Forall (fun c => time c <> None) l ->
  StronglySorted notEarlier l ->
  StronglySorted notEarlier (JS.insert byStartDateDesc x l).
Proof.
  intros Hx Hl Hs.
  induction l as [| y r IH]; simpl.
  - repeat constructor.
  - inversion Hl as [| ? ? Hy Hr]; subst.
    inversion Hs as [| ? ? Hsr Hyr]; subst.
    destruct (time x) as [tx |] eqn:Etx; [| congruence].
    destruct (time y) as [ty |] eqn:Ety; [| congruence].
    rewrite (byStartDateDesc_valid x y tx ty Etx Ety).
    destruct (ty - tx <=? 0) eqn:Hc.
    + apply Z.leb_le in Hc.
      assert (Hxy : notEarlier x y) by (exists tx, ty; repeat split; auto; lia).
      constructor; [exact Hs |].
      constructor; [exact Hxy |].
      eapply Forall_impl; [| exact Hyr].
      intros c Hyc. eapply notEarlier_trans; eassumption.
    + apply Z.leb_gt in Hc.
      constructor; [apply IH; assumption |].
      eapply Permutation_Forall;
        [apply Permutation_sym, insert_Permutation |].
      constructor; [| exact Hyr].
      exists ty, tx. repeat split; auto; lia.
Qed.

Lemma insertionSort_StronglySorted (l : list CalculatedBatch) :
  Forall (fun c => time c <> None) l ->
  StronglySorted notEarlier (JS.insertionSort byStartDateDesc l).
Proof.
  induction l as [| x r IH]; intros Hl; simpl.
  - constructor.
  - inversion Hl; subst.
    apply insert_StronglySorted; auto.
    eapply Permutation_Forall;
      [apply Permutation_sym, insertionSort_Permutation | assumption].
Qed.

(** On valid start dates the comparator is consistent: the sort is the
    one that the language fixes. *)
Lemma byStartDateDesc_consistent (l : list CalculatedBatch) :
  Forall (fun c => time c <> None) l ->
  JS.consistent byStartDateDesc l = true.
Proof.
  intros Hl. rewrite Forall_forall in Hl. unfold JS.consistent.
  apply forallb_forall. intros a Ha.
  apply forallb_forall. intros b Hb.
  apply forallb_forall. intros c Hc.
  pose proof (Hl a Ha) as Va. pose proof (Hl b Hb) as Vb.
  pose proof (Hl c Hc) as Vc.
  unfold JS.consistentOn, byStartDateDesc, time in *.
  destruct (JS.Date_getTime (startDate a)) as [ta |]; [| congruence].
  destruct (JS.Date_getTime (startDate b)) as [tb |]; [| congruence].
  destruct (JS.Date_getTime (startDate c)) as [tc |]; [| congruence].
  repeat match goal with
         | |- context [Z.eqb ?x ?y] => destruct (Z.eqb_spec x y)
         | |- context [Z.ltb ?x ?y] => destruct (Z.ltb_spec x y)
         end; simpl; try reflexivity; lia.
Qed.

Lemma sort_valid (l : list CalculatedBatch) :
  Forall (fun c => time c <> None) l ->
  JS.sort byStartDateDesc l = JS.insertionSort byStartDateDesc l.
Proof.
  intros Hl. unfold JS.sort. rewrite byStartDateDesc_consistent by exact Hl.
  reflexivity.
Qed.

Lemma sort_StronglySorted (l : list CalculatedBatch) :
  Forall (fun c => time c <> None) l ->
  StronglySorted notEarlier (JS.sort byStartDateDesc l).
Proof.
  intros Hl. rewrite sort_valid by exact Hl.
  apply insertionSort_StronglySorted, Hl.
Qed.

Lemma filter_sort (t : option Z) (l : list CalculatedBatch) :
  Forall (fun c => time c <> None) l ->
  filter (startsAt t) (JS.sort byStartDateDesc l) = filter (startsAt t) l.
Proof.
  intros Hl. rewrite sort_valid by exact Hl.
  apply filter_insertionSort, startsAt_respected.
Qed.

Lemma startsAt_time (c : CalculatedBatch) : startsAt (time c) c = true.
Proof.
  unfold startsAt. destruct (time c) as [t |]; simpl; [apply Z.eqb_refl | reflexivity].
Qed.

(** Two arrangements in descending order that list the batches of every
    start date in the same order are one arrangement: on valid dates the
    result does not depend on which stable sort produced it. *)
Lemma stable_descending_unique (l1 l2 : list CalculatedBatch) :
  StronglySorted notEarlier l1 -> StronglySorted notEarlier l2 ->
  (forall t, filter (startsAt t) l1 = filter (startsAt t) l2) ->
  l1 = l2.
Proof.
  revert l2. induction l1 as [| x r1 IH]; intros l2 S1 S2 Hf.
  - destruct l2 as [| y r2]; [reflexivity |].
    specialize (Hf (time y)). simpl in Hf.
    rewrite startsAt_time in Hf. discriminate Hf.
  - destruct l2 as [| y r2].
    { specialize (Hf (time x)). cbn [filter] in Hf.
      rewrite startsAt_time in Hf. discriminate Hf. }
    apply StronglySorted_inv in S1. destruct S1 as [S1 Hx].
    apply StronglySorted_inv in S2. destruct S2 as [S2 Hy].
    assert (Hxy : x = y).
    { assert (Hin1 : In x (y :: r2)).
      { assert (H : In x (filter (startsAt (time x)) (y :: r2))).
        { rewrite <- Hf. cbn [filter]. rewrite startsAt_time. left. reflexivity. }
        apply filter_In in H. tauto. }
      assert (Hin2 : In y (x :: r1)).
      { assert (H : In y (filter (startsAt (time y)) (x :: r1))).
        { rewrite Hf. cbn [filter]. rewrite startsAt_time. left. reflexivity. }
        apply filter_In in H. tauto. }
      destruct Hin1 as [E | Hin1]; [congruence |].
      destruct Hin2 as [E | Hin2]; [congruence |].
      rewrite Forall_forall in Hx, Hy.
      destruct (Hy x Hin1) as [ty [tx [Ety [Etx Hle1]]]].
      destruct (Hx y Hin2) as [tx' [ty' [Etx' [Ety' Hle2]]]].
      rewrite Etx in Etx'. injection Etx' as <-.
      rewrite Ety in Ety'. injection Ety' as <-.
      assert (tx = ty) by lia. subst ty.
      assert (Ex : startsAt (Some tx) x = true)
        by (unfold startsAt; rewrite Etx; apply Z.eqb_refl).
      assert (Ey : startsAt (Some tx) y = true)
        by (unfold startsAt; rewrite Ety; apply Z.eqb_refl).
      specialize (Hf (Some tx)). cbn [filter] in Hf.
      rewrite Ex, Ey in Hf. injection Hf as Hf _. exact Hf. }
    subst y. f_equal.
    apply IH; [assumption | assumption |].
    intros t. specialize (Hf t). cbn [filter] in Hf.
    destruct (startsAt t x); [injection Hf as Hf |]; exact Hf.
Qed.

(** C4, as the code has it.  The projection is a rearrangement of the
    derived batches, for every input.  When every start date is a valid
    date it is in descending order of start date and batches of one start
    date keep their input order; it is the only arrangement of the kind,
    so that it does not depend on the engine. *)
Theorem calculatedBatches_stable_descending (batches : list Batch) :
  Permutation (calculatedBatches batches) (map deriveBatch batches)
  /\ (Forall validStart batches ->
      StronglySorted notEarlier (calculatedBatches batches)
      /\ (forall t, filter (startsAt t) (calculatedBatches batches)
                    = filter (startsAt t) (map deriveBatch batches))
      /\ (forall l, StronglySorted notEarlier l ->
            (forall t, filter (startsAt t) l
                       = filter (startsAt t) (map deriveBatch batches)) ->
            l = calculatedBatches batches)).
Proof.
  unfold calculatedBatches. split; [apply sort_Permutation |].
  intros Hv.
  assert (Hl : Forall (fun c => time c <> None) (map deriveBatch batches))
    by (apply Forall_map; exact Hv).
  pose proof (sort_StronglySorted _ Hl) as Hs.
  split; [exact Hs |].
  split; [intros t; apply filter_sort, Hl |].
  intros l Hsl Hfl. apply stable_descending_unique; [exact Hsl | exact Hs |].
  intros t. rewrite Hfl. symmetry. apply filter_sort, Hl.
Qed.

Lemma calculatedBatches_stable_descending_witness :
  StronglySorted notEarlier
    (calculatedBatches (map (fun b => b InProgress) MOCK_BATCHES)).
Proof.
  assert (Hv : Forall validStart (map (fun b => b InProgress) MOCK_BATCHES))
    by (repeat constructor; unfold validStart; vm_compute; discriminate).
  destruct (calculatedBatches_stable_descending
              (map (fun b => b InProgress) MOCK_BATCHES)) as [_ H].
  destruct (H Hv) as [Hs _]. exact Hs.
Defined.

(** C4 as the specification words it does not hold for every input.  With
    a batch whose start date is empty between them, the January batch stays
    ahead of the February batch.  And with such a batch in the list, of the
    four batches of the first of February the last one, [g], comes out
    ahead of [f]. *)
Lemma calculatedBatches_undated_not_descending :
  map (fun c => id (batch c)) (calculatedBatches undatedInput) = ["a"; "b"; "c"]
  /\ ~ StronglySorted inOrder (calculatedBatches undatedInput)
  /\ map (fun c => id (batch c)) (calculatedBatches unstableInput)
     = ["b"; "a"; "c"; "g"; "d"; "e"; "f"]
  /\ map (fun c => id (batch c))
       (filter (startsAt (JS.Date_getTime "2023-02-01"))
               (calculatedBatches unstableInput))
     = ["a"; "c"; "g"; "f"]
  /\ map (fun c => id (batch c))
       (filter (startsAt (JS.Date_getTime "2023-02-01"))
               (map deriveBatch unstableInput))
     = ["a"; "c"; "f"; "g"].
Proof.
  split; [vm_compute; reflexivity |].
  split; [| repeat split; vm_compute; reflexivity].
  intros Hs.
  apply StronglySorted_inv in Hs. destruct Hs as [_ Hall].
  apply Forall_inv_tail in Hall. apply Forall_inv in Hall.
  vm_compute in Hall. apply Hall. reflexivity.
Qed.

(** With the undated batch first, the order is the input's: the
    comparator is [0] on the only pair. *)
Example calculatedBatches_undated_first :
  map (fun c => id (batch c))
      (calculatedBatches
         [ mkBatch "b" (Some "") "ACR001" 1 "" "2023-01-05" 100 InProgress None None;
           mkBatch "c" (Some "") "ACR001" 1 "2023-02-01" "2023-02-05" 100 InProgress
             None None ])
  = ["b"; "c"].
Proof. reflexivity. Qed.

(** ** Per-machine buckets *)

Lemma Array_from_whole {A} (n : nat) (f : nat -> A) :
  Array_from (inject_Z (Z.of_nat n)) f = map f (seq 0 n).
Proof.
  unfold Array_from. rewrite Qfloor_Z, Nat2Z.id. reflexivity.
Qed.

(** C5.  With [N >= 1] machines configured there are exactly [N] buckets;
    the [k]-th of them is numbered [k] and holds exactly the calculated
    batches of machine [k], in the order of the projection, also when there
    are none. *)
Theorem batchesByMachine_buckets (calculated : list CalculatedBatch) (N : Z) :
  1 <= N ->
  List.length (batchesByMachine calculated (inject_Z N)) = Z.to_nat N
  /\ map mb_machineNumber (batchesByMachine calculated (inject_Z N))
     = map Z.of_nat (seq 1 (Z.to_nat N))
  /\ (forall k, 1 <= k <= N ->
      nth_error (batchesByMachine calculated (inject_Z N)) (Z.to_nat (k - 1))
      = Some (mkBucket k
                (filter (fun b => machineNumber (batch b) =? k) calculated))).
Proof.
  intros HN. unfold batchesByMachine.
  remember (Z.to_nat N) as n eqn:En.
  assert (HNn : N = Z.of_nat n) by lia.
  rewrite HNn, Array_from_whole.
  split; [| split].
  - rewrite !length_map, length_seq. reflexivity.
  - rewrite !map_map. simpl.
    rewrite <- seq_shift, map_map.
    apply map_ext. intros i. lia.
  - intros k Hk.
    rewrite map_map, nth_error_map, nth_error_seq.
    destruct (Nat.ltb_spec (Z.to_nat (k - 1)) n) as [_ | Hge]; [| lia].
    simpl.
    replace (Z.of_nat (Z.to_nat (k - 1)) + 1) with k by lia.
    reflexivity.
Qed.

Lemma batchesByMachine_buckets_witness :
  1 <= 3
  /\ List.length (batchesByMachine
                    (calculatedBatches (map (fun b => b InProgress) MOCK_BATCHES))
                    (inject_Z 3)) = 3%nat.
Proof.
  split; [lia |].
  apply (batchesByMachine_buckets
           (calculatedBatches (map (fun b => b InProgress) MOCK_BATCHES)) 3).
  lia.
Defined.

(** The scenario of three machines and batches on machines 1, 1 and 2. *)
Example batchesByMachine_scenario :
  map (fun bucket => List.length (mb_batches bucket))
      (batchesByMachine
         (calculatedBatches
            [ mkBatch "1" None "A" 1 "2023-10-01" "2023-10-02" 100 InProgress None None;
              mkBatch "2" None "B" 1 "2023-10-02" "2023-10-03" 100 InProgress None None;
              mkBatch "3" None "C" 2 "2023-10-03" "2023-10-04" 100 InProgress None None ])
         3)
  = [2; 1; 0]%nat.
Proof. reflexivity. Qed.

(** ** Deleting a batch *)

Lemma filter_all_true {A} (f : A -> bool) (l : list A) :
  (forall x, In x l -> f x = true) -> filter f l = l.
Proof.
  induction l as [| a r IH]; intros H; [reflexivity |].
  simpl. rewrite (H a (or_introl eq_refl)). f_equal.
  apply IH. intros x Hx. apply H. right. exact Hx.
Qed.

Lemma keeps_other_id (batchId : string) (b : Batch) :
  negb (id b =? batchId)%string = true <-> id b <> batchId.
Proof.
  rewrite negb_true_iff. apply String.eqb_neq.
Qed.

(** C6, as the code has it.  [deleteBatch] keeps exactly the batches whose
    id differs from the given one, in their order and unchanged: the batch
    of that id goes and the others stay.  When no batch has that id the
    batch list is left as it was, and the operation still ends as every
    deletion does: it sets the notification of a deletion, the rest of the
    state untouched. *)
Theorem deleteBatch_removes_exactly (batchId : string) (s : AppState) :
  (forall b, In b (batches (deleteBatch batchId s))
             <-> In b (batches s) /\ id b <> batchId)
  /\ (forall l1 b l2,
        batches s = l1 ++ b :: l2 -> id b = batchId ->
        (forall x, In x (l1 ++ l2) -> id x <> batchId) ->
        batches (deleteBatch batchId s) = l1 ++ l2)
  /\ ((forall b, In b (batches s) -> id b <> batchId) ->
      deleteBatch batchId s
      = setNotification (Some "Batch deleted successfully!") s
      /\ batches (deleteBatch batchId s) = batches s)
  /\ notification (deleteBatch batchId s) = Some "Batch deleted successfully!"
  /\ settings (deleteBatch batchId s) = settings s
  /\ batchTypes (deleteBatch batchId s) = batchTypes s.
Proof.
  split; [| split; [| split]].
  - intros b. simpl. rewrite filter_In, keeps_other_id. reflexivity.
  - intros l1 b l2 Hs Hb Hothers. simpl. rewrite Hs.
    rewrite filter_app. simpl.
    rewrite <- Hb, String.eqb_refl. simpl.
    rewrite <- filter_app. apply filter_all_true.
    intros x Hx. apply keeps_other_id. rewrite Hb. apply Hothers, Hx.
  - intros Hnone.
    assert (Hf : filter (fun b => negb (id b =? batchId)%string) (batches s)
                 = batches s).
    { apply filter_all_true. intros x Hx. apply keeps_other_id, Hnone, Hx. }
    split.
    + unfold deleteBatch. rewrite Hf. destruct s; reflexivity.
    + simpl. exact Hf.
  - repeat split.
Qed.

Lemma deleteBatch_removes_exactly_witness :
  batches (deleteBatch "9" seededState) = batches seededState.
Proof.
  apply (deleteBatch_removes_exactly "9" seededState).
  intros b Hb. simpl in Hb.
  repeat (destruct Hb as [<- | Hb]; [discriminate |]).
  contradiction.
Defined.

(** C6 as the specification words it does not hold: a deletion that finds
    no batch is not silent.  No batch of the seeded state has the id [9];
    deleting it sets the notification of a deletion, where there was none,
    and so changes the state. *)
Lemma deleteBatch_miss_notifies :
  (forall b, In b (batches seededState) -> id b <> "9")
  /\ batches (deleteBatch "9" seededState) = batches seededState
  /\ notification seededState = None
  /\ notification (deleteBatch "9" seededState)
     = Some "Batch deleted successfully!"
  /\ deleteBatch "9" seededState <> seededState.
Proof.
  split.
  - intros b Hb. simpl in Hb.
    repeat (destruct Hb as [<- | Hb]; [discriminate |]).
    contradiction.
  - split; [reflexivity |]. split; [reflexivity |]. split; [reflexivity |].
    intros E. apply (f_equal notification) in E. discriminate E.
Qed.

(** ** Adding a batch *)

Lemma to_int_proper (n : Z) :
  Z.to_int n <> Decimal.Pos Decimal.Nil /\ Z.to_int n <> Decimal.Neg Decimal.Nil.
Proof.
  destruct n as [| p | p]; simpl; split; try discriminate;
    intros [= H]; exact (DecimalPos.Unsigned.to_uint_nonnil p H).
Qed.

Lemma Number_toString_inj (n m : Z) :
  JS.Number_toString n = JS.Number_toString m -> n = m.
Proof.
  unfold JS.Number_toString. intros H.
  apply DecimalZ.to_int_inj.
  destruct (to_int_proper n) as [Hn1 Hn2], (to_int_proper m) as [Hm1 Hm2].
  pose proof (NilZero.isi (Z.to_int n) Hn1 Hn2) as En.
  pose proof (NilZero.isi (Z.to_int m) Hm1 Hm2) as Em.
  rewrite H in En. rewrite En in Em. injection Em as Em. exact Em.
Qed.

(** C7, as the code has it.  [addBatch] puts one new batch in front of the
    list and leaves the batches already there as they were; the new batch
    has status [InProgress] and the input's other fields, and its id is the
    decimal text of the clock reading.  That id differs from every existing
    one when each existing id is the text of another reading; the list is
    not consulted. *)
Theorem addBatch_prepends (now : Z) (newBatch : NewBatch) (s : AppState) :
  exists b',
    batches (addBatch now newBatch s) = b' :: batches s
    /\ status b' = InProgress
    /\ id b' = JS.Number_toString now
    /\ batchNumber b' = nb_batchNumber newBatch
    /\ machineNumber b' = nb_machineNumber newBatch
    /\ meterValue b' = nb_meterValue newBatch
    /\ ((forall b, In b (batches s) ->
           exists t, t <> now /\ id b = JS.Number_toString t) ->
        freshId now newBatch s).
Proof.
  eexists. split; [reflexivity |].
  repeat (split; [reflexivity |]).
  intros Hold b b' Hb Hhd. simpl in Hhd. injection Hhd as <-. simpl.
  destruct (Hold b Hb) as [t [Ht Hid]]. rewrite Hid.
  intros Heq. apply Number_toString_inj in Heq. congruence.
Qed.

Lemma addBatch_prepends_witness :
  freshId 1700000000000
    (mkNewBatch "ACR001" 1 "2023-11-14" "2023-11-15" 100 (Some "#16a34a") None)
    seededState.
Proof.
  destruct (addBatch_prepends 1700000000000
              (mkNewBatch "ACR001" 1 "2023-11-14" "2023-11-15" 100
                 (Some "#16a34a") None)
              seededState)
    as [b' [_ [_ [_ [_ [_ [_ Hfresh]]]]]]].
  apply Hfresh.
  intros b Hb. simpl in Hb.
  destruct Hb as [<- | [<- | [<- | [<- | [<- | []]]]]].
  - exists 1. split; [lia | reflexivity].
  - exists 2. split; [lia | reflexivity].
  - exists 3. split; [lia | reflexivity].
  - exists 4. split; [lia | reflexivity].
  - exists 5. split; [lia | reflexivity].
Defined.

(** C7 as the specification words it does not hold for every input: a
    second batch added at the clock reading of the first gets the first
    one's id. *)
Lemma addBatch_same_reading_not_fresh :
  ~ freshId 1700000000000
      (mkNewBatch "WFP001" 2 "2023-11-14" "2023-11-16" 250 (Some "#06b6d4") None)
      (addBatch 1700000000000
         (mkNewBatch "ACR001" 1 "2023-11-14" "2023-11-15" 100 (Some "#16a34a") None)
         seededState).
Proof.
  intros Hfresh.
  eapply Hfresh; [left; reflexivity | reflexivity | reflexivity].
Qed.

(** ** Adding a batch type *)

Lemma isWhiteSpace_toUpperCase_char (c : ascii) :
  JS.isWhiteSpace (JS.toUpperCase_char c) = JS.isWhiteSpace c.
Proof.
  destruct c as [[] [] [] [] [] [] [] []]; reflexivity.
Qed.

Lemma trimStart_toUpperCase (s : string) :
  JS.trimStart (JS.toUpperCase s) = JS.toUpperCase (JS.trimStart s).
Proof.
  induction s as [| c r IH]; [reflexivity |].
  simpl. rewrite isWhiteSpace_toUpperCase_char.
  destruct (JS.isWhiteSpace c); [exact IH | reflexivity].
Qed.

Lemma trimEnd_toUpperCase (s : string) :
  JS.trimEnd (JS.toUpperCase s) = JS.toUpperCase (JS.trimEnd s).
Proof.
  induction s as [| c r IH]; [reflexivity |].
  simpl. rewrite IH, isWhiteSpace_toUpperCase_char.
  destruct (JS.trimEnd r); simpl.
  - destruct (JS.isWhiteSpace c); reflexivity.
  - reflexivity.
Qed.

Lemma trim_toUpperCase (s : string) :
  JS.trim (JS.toUpperCase s) = JS.toUpperCase (JS.trim s).
Proof.
  unfold JS.trim. rewrite trimStart_toUpperCase. apply trimEnd_toUpperCase.
Qed.

Lemma includes_In (l : list string) (x : string) :
  JS.includes l x = true <-> In x l.
Proof.
  unfold JS.includes. rewrite existsb_exists. split.
  - intros [y [Hy He]]. apply String.eqb_eq in He. subst. exact Hy.
  - intros Hx. exists x. split; [exact Hx | apply String.eqb_refl].
Qed.

Lemma truthy_nonempty (s : string) : JS.truthy s = true <-> s <> "".
Proof.
  destruct s; simpl; split; congruence.
Qed.

(** C8, as the code has it.  A submission is compared after trimming: when
    the trimmed text is blank, or equals an existing batch number but for
    case, the list of batch types is left as it was; otherwise the type is
    appended, its batch number trimmed and in upper case, and is in the
    list from then on.  For an existing batch number without surrounding
    white space, a submitted text equal to it but for case is refused. *)
Theorem handleAddBatchType_unique
    (now : Z) (newBatchNumber newBatchColor : string) (s : AppState) :
  ((exists bt, In bt (batchTypes s) /\ sameButCase (JS.trim newBatchNumber) bt) ->
   batchTypes (handleAddBatchType now newBatchNumber newBatchColor s)
   = batchTypes s)
  /\ ((exists bt, In bt (batchTypes s)
                  /\ JS.trim (bt_batchNumber bt) = bt_batchNumber bt
                  /\ sameButCase newBatchNumber bt) ->
      batchTypes (handleAddBatchType now newBatchNumber newBatchColor s)
      = batchTypes s)
  /\ (JS.trim newBatchNumber = "" ->
      batchTypes (handleAddBatchType now newBatchNumber newBatchColor s)
      = batchTypes s)
  /\ (JS.trim newBatchNumber <> "" ->
      (forall bt, In bt (batchTypes s) ->
                  ~ sameButCase (JS.trim newBatchNumber) bt) ->
      batchTypes (handleAddBatchType now newBatchNumber newBatchColor s)
      = batchTypes s
        ++ [mkBatchType (JS.Number_toString now)
              (JS.toUpperCase (JS.trim newBatchNumber)) newBatchColor]).
Proof.
  assert (Hdup :
    (exists bt, In bt (batchTypes s) /\ sameButCase (JS.trim newBatchNumber) bt) ->
    batchTypes (handleAddBatchType now newBatchNumber newBatchColor s)
    = batchTypes s).
  { intros [bt [Hin Hsame]]. unfold handleAddBatchType.
    destruct (JS.truthy (JS.trim newBatchNumber)); simpl; [| reflexivity].
    assert (Hinc : JS.includes (existingBatchNumbers (batchTypes s))
                     (JS.toUpperCase (JS.trim newBatchNumber)) = true).
    { apply includes_In. unfold existingBatchNumbers. rewrite <- Hsame.
      apply (in_map (fun bt => JS.toUpperCase (bt_batchNumber bt))), Hin. }
    rewrite Hinc. reflexivity. }
  split; [exact Hdup |]. split; [| split].
  - intros [bt [Hin [Htrim Hsame]]]. apply Hdup.
    exists bt. split; [exact Hin |].
    unfold sameButCase in *.
    rewrite <- trim_toUpperCase, <- Hsame, trim_toUpperCase, Htrim.
    reflexivity.
  - intros Hblank. unfold handleAddBatchType. rewrite Hblank. reflexivity.
  - intros Hne Hnew. unfold handleAddBatchType.
    apply truthy_nonempty in Hne. rewrite Hne. simpl.
    destruct (JS.includes (existingBatchNumbers (batchTypes s))
                (JS.toUpperCase (JS.trim newBatchNumber))) eqn:Hinc.
    + apply includes_In in Hinc. unfold existingBatchNumbers in Hinc.
      apply in_map_iff in Hinc. destruct Hinc as [bt [Hsame Hin]].
      exfalso. exact (Hnew bt Hin Hsame).
    + reflexivity.
Qed.

Lemma handleAddBatchType_unique_witness :
  batchTypes (handleAddBatchType 1700000000000 " summer-run-01 " "#14b8a6" seededState)
  = MOCK_BATCH_TYPES ++ [mkBatchType "1700000000000" "SUMMER-RUN-01" "#14b8a6"]
  /\ batchTypes (handleAddBatchType 1700000000000 "summer-lite" "#14b8a6" seededState)
     = MOCK_BATCH_TYPES.
Proof.
  split.
  - destruct (handleAddBatchType_unique 1700000000000 " summer-run-01 " "#14b8a6"
                seededState) as [_ [_ [_ Hnew]]].
    rewrite Hnew; [reflexivity | discriminate |].
    intros bt Hin. simpl in Hin.
    repeat (destruct Hin as [<- | Hin]; [discriminate |]).
    contradiction.
  - destruct (handleAddBatchType_unique 1700000000000 "summer-lite" "#14b8a6"
                seededState) as [Hdup _].
    rewrite Hdup; [reflexivity |].
    exists (mkBatchType "6" "SUMMER-LITE" "#eab308").
    split; [| reflexivity].
    simpl. tauto.
Defined.

(** C8 as the specification words it does not hold for every submission.
    With white space around it, [acr001] differs from every existing batch
    number, case ignored or not; it is refused as a duplicate, for it is
    compared after trimming. *)
Lemma handleAddBatchType_padded_refused :
  (forall bt, In bt (batchTypes seededState) -> ~ sameButCase " acr001 " bt)
  /\ (forall bt, In bt (batchTypes seededState) ->
        bt_batchNumber bt <> " acr001 ")
  /\ batchTypes (handleAddBatchType 1700000000000 " acr001 " "#14b8a6" seededState)
     = batchTypes seededState
  /\ notification (handleAddBatchType 1700000000000 " acr001 " "#14b8a6"
                     seededState)
     = Some "Batch number must be unique.".
Proof.
  split; [| split; [| split; reflexivity]].
  - intros bt Hin. simpl in Hin.
    repeat (destruct Hin as [<- | Hin]; [discriminate |]).
    contradiction.
  - intros bt Hin. simpl in Hin.
    repeat (destruct Hin as [<- | Hin]; [discriminate |]).
    contradiction.
Qed.

(** A blank batch number differs from every existing one as well, and is
    refused for being blank. *)
Lemma handleAddBatchType_blank_refused :
  (forall bt, In bt (batchTypes seededState) -> ~ sameButCase "" bt)
  /\ batchTypes (handleAddBatchType 1700000000000 "" "#14b8a6" seededState)
     = batchTypes seededState
  /\ notification (handleAddBatchType 1700000000000 "" "#14b8a6" seededState)
     = Some "Batch number cannot be empty.".
Proof.
  split; [| split; reflexivity].
  intros bt Hin. simpl in Hin.
  repeat (destruct Hin as [<- | Hin]; [discriminate |]).
  contradiction.
Qed.

(** ** Storing settings *)

Lemma handleComplete_accepts (formData : Settings) (s : AppState) :
  JS.truthy (companyName formData) = true ->
  (0 < numberOfMachines formData)%Q ->
  settings (handleComplete formData s) = Some formData.
Proof.
  intros Hname Hn. unfold handleComplete.
  rewrite Hname. simpl.
  destruct (Qle_bool (numberOfMachines formData) 0) eqn:Hle.
  - apply Qle_bool_iff in Hle. lra.
  - reflexivity.
Qed.

(** C9.  Neither path keeps [numberOfMachines] at [1] or more.  The wizard
    tests for a number above [0] and so stores one half; the handler of the
    settings form tests nothing and stores whatever the form holds, [0]
    included. *)
Theorem settings_below_one_stored :
  settings (handleComplete (mkSettings "Geetha Tex" (1 # 2)) initialState)
  = Some (mkSettings "Geetha Tex" (1 # 2))
  /\ ~ (1 <= numberOfMachines (mkSettings "Geetha Tex" (1 # 2)))%Q
  /\ (forall formData s,
        settings (handleSettingsSubmit formData s) = Some formData)
  /\ settings (handleSettingsSubmit (mkSettings "Geetha Tex" 0) seededState)
     = Some (mkSettings "Geetha Tex" 0)
  /\ ~ (1 <= numberOfMachines (mkSettings "Geetha Tex" 0))%Q.
Proof.
  split; [reflexivity |].
  split; [intros H; vm_compute in H; apply H; reflexivity |].
  split; [reflexivity |].
  split; [reflexivity |].
  intros H. vm_compute in H. apply H. reflexivity.
Qed.

(** With one half a machine configured there is no bucket at all. *)
Example batchesByMachine_half_machine :
  batchesByMachine (calculatedBatches (batches seededState)) (1 # 2) = [].
Proof. reflexivity. Qed.

(** What the wizard does refuse: a blank company name, and a number of
    machines of [0] or less. *)
Lemma handleComplete_guard (formData : Settings) (s : AppState) :
  (numberOfMachines formData <= 0)%Q \/ companyName formData = "" ->
  handleComplete formData s = s.
Proof.
  intros [Hn | Hc]; unfold handleComplete.
  - apply Qle_bool_iff in Hn. rewrite Hn, andb_false_r. reflexivity.
  - rewrite Hc. reflexivity.
Qed.

(** ** Seeding *)

Lemma seedingCondition_iff (s : AppState) :
  seedingCondition s = true <-> settings s <> None /\ batches s = [].
Proof.
  unfold seedingCondition.
  destruct (settings s) as [cfg |], (batches s) as [| b r]; simpl;
    split; try discriminate; try tauto.
  - intros _. split; [discriminate | reflexivity].
  - intros [_ H]. discriminate H.
Qed.

(** C3, as the code has it.  Whenever settings exist and the batch list is
    empty after a render, the effect puts the mock batches in; it then holds
    still for as long as there is a batch.  Nothing records that it has run:
    a command that leaves the list empty while settings exist, the deletion
    of the last batch among them, is followed by the mock batches again. *)
Theorem seeding_whenever_empty (s : AppState) :
  (settings s <> None -> batches s = [] ->
   batches (seedingEffect s) = map (fun b => b InProgress) MOCK_BATCHES
   /\ seedingEffect (seedingEffect s) = seedingEffect s)
  /\ (batches s <> [] -> seedingEffect s = s)
  /\ (forall c, settings (handle c s) <> None -> batches (handle c s) = [] ->
        batches (step c s) = map (fun b => b InProgress) MOCK_BATCHES)
  /\ (forall batchId, settings s <> None ->
        (forall b, In b (batches s) -> id b = batchId) ->
        batches (step (DeleteBatch batchId) s)
        = map (fun b => b InProgress) MOCK_BATCHES).
Proof.
  assert (Hseed : forall s', settings s' <> None -> batches s' = [] ->
            batches (seedingEffect s') = map (fun b => b InProgress) MOCK_BATCHES
            /\ seedingEffect (seedingEffect s') = seedingEffect s').
  { intros s' Hs Hb.
    assert (Hc : seedingCondition s' = true)
      by (apply seedingCondition_iff; split; assumption).
    assert (E : seedingEffect s'
                = setBatchTypes MOCK_BATCH_TYPES
                    (setBatches (map (fun b => b InProgress) MOCK_BATCHES) s'))
      by (unfold seedingEffect; rewrite Hc; reflexivity).
    rewrite E. split; [reflexivity |].
    unfold seedingEffect, seedingCondition. simpl.
    destruct (settings s'); reflexivity. }
  split; [apply Hseed |]. split; [| split].
  - intros Hne. unfold seedingEffect.
    destruct (seedingCondition s) eqn:Hc; [| reflexivity].
    apply seedingCondition_iff in Hc. tauto.
  - intros c Hs Hb. exact (proj1 (Hseed (handle c s) Hs Hb)).
  - intros batchId Hs Hall.
    apply (Hseed (handle (DeleteBatch batchId) s)); [exact Hs |].
    simpl. induction (batches s) as [| b r IH]; [reflexivity |].
    simpl. rewrite (Hall b (or_introl eq_refl)), String.eqb_refl. simpl.
    apply IH. intros x Hx. apply Hall. right. exact Hx.
Qed.

Lemma seeding_whenever_empty_witness :
  batches (step (DeleteBatch "5")
             (run [DeleteBatch "1"; DeleteBatch "2"; DeleteBatch "3"; DeleteBatch "4"]
                seededState))
  = map (fun b => b InProgress) MOCK_BATCHES.
Proof.
  apply (seeding_whenever_empty
           (run [DeleteBatch "1"; DeleteBatch "2"; DeleteBatch "3"; DeleteBatch "4"]
              seededState)).
  - discriminate.
  - intros b Hb. simpl in Hb. destruct Hb as [<- | []]. reflexivity.
Defined.

(** C3 as the specification words it does not hold: in the run that
    deletes every batch the effect seeds twice, and the mock batches are
    back at the end. *)
Lemma seeding_twice_after_deleting_all :
  ~ (seedings deleteEverything initialState <= 1)%nat
  /\ batches (run [DeleteBatch "1"; DeleteBatch "2"; DeleteBatch "3"; DeleteBatch "4"]
                seededState)
     = [nth 4 MOCK_BATCHES (fun st => mkBatch "" None "" 0 "" "" 0 st None None)
          InProgress]
  /\ batches (run deleteEverything initialState)
     = map (fun b => b InProgress) MOCK_BATCHES.
Proof.
  split; [| split; reflexivity].
  change (seedings deleteEverything initialState) with 2%nat. lia.
Qed.

(** C10.  When settings exist and the batch list is empty, the effect sets
    the list of batch types to the six mock types, whatever types were
    there; the test does not look at the batch types. *)
Theorem seeding_replaces_batchTypes (s : AppState) :
  settings s <> None -> batches s = [] ->
  batchTypes (seedingEffect s) = MOCK_BATCH_TYPES
  /\ List.length (batchTypes (seedingEffect s)) = 6%nat
  /\ (forall types, seedingCondition (setBatchTypes types s) = seedingCondition s)
  /\ (forall types, batchTypes (seedingEffect (setBatchTypes types s))
                    = MOCK_BATCH_TYPES).
Proof.
  intros Hs Hb.
  assert (Hind : forall types,
            seedingCondition (setBatchTypes types s) = seedingCondition s)
    by reflexivity.
  assert (Hc : seedingCondition s = true)
    by (apply seedingCondition_iff; split; assumption).
  assert (Hall : forall types,
            batchTypes (seedingEffect (setBatchTypes types s)) = MOCK_BATCH_TYPES).
  { intros types. unfold seedingEffect. rewrite Hind, Hc. reflexivity. }
  assert (E : batchTypes (seedingEffect s) = MOCK_BATCH_TYPES)
    by (unfold seedingEffect; rewrite Hc; reflexivity).
  repeat split; try assumption.
  rewrite E. reflexivity.
Qed.

(** A batch type of the user's own is lost with the last batch. *)
Lemma seeding_replaces_batchTypes_witness :
  In (mkBatchType "1700000000000" "SUMMER-RUN-01" "#14b8a6")
     (batchTypes
        (run [SubmitBatchType 1700000000000 "summer-run-01" "#14b8a6";
              DeleteBatch "1"; DeleteBatch "2"; DeleteBatch "3"; DeleteBatch "4"]
           seededState))
  /\ batchTypes
       (run [SubmitBatchType 1700000000000 "summer-run-01" "#14b8a6";
             DeleteBatch "1"; DeleteBatch "2"; DeleteBatch "3"; DeleteBatch "4";
             DeleteBatch "5"]
          seededState)
     = MOCK_BATCH_TYPES.
Proof.
  split; [simpl; tauto |].
  apply (seeding_replaces_batchTypes
           (handle (DeleteBatch "5")
              (run [SubmitBatchType 1700000000000 "summer-run-01" "#14b8a6";
                    DeleteBatch "1"; DeleteBatch "2"; DeleteBatch "3";
                    DeleteBatch "4"]
                 seededState))).
  - discriminate.
  - reflexivity.
Defined.

(** * Further properties *)

(** ** Updating in place *)

Lemma updateBatch_positions (updatedBatch : Batch) (s : AppState) :
  map id (batches (updateBatch updatedBatch s)) = map id (batches s)
  /\ (forall i b, nth_error (batches s) i = Some b ->
        id b <> id updatedBatch ->
        nth_error (batches (updateBatch updatedBatch s)) i = Some b)
  /\ (forall i b, nth_error (batches s) i = Some b ->
        id b = id updatedBatch ->
        nth_error (batches (updateBatch updatedBatch s)) i = Some updatedBatch).
Proof.
  simpl. split; [| split].
  - rewrite map_map. apply map_ext_in. intros b _.
    destruct (String.eqb_spec (id b) (id updatedBatch)) as [E | _];
      [symmetry; exact E | reflexivity].
  - intros i b Hi Hne. rewrite nth_error_map, Hi. simpl.
    apply String.eqb_neq in Hne. rewrite Hne. reflexivity.
  - intros i b Hi He. rewrite nth_error_map, Hi. simpl.
    rewrite He, String.eqb_refl. reflexivity.
Qed.

Lemma calculatedBatches_Permutation (batches : list Batch) :
  Permutation (calculatedBatches batches) (map deriveBatch batches).
Proof. unfold calculatedBatches. apply sort_Permutation. Qed.

Lemma In_calculatedBatches (b : Batch) (batches : list Batch) :
  In b batches -> In (deriveBatch b) (calculatedBatches batches).
Proof.
  intros Hb.
  apply (Permutation_in _ (Permutation_sym (calculatedBatches_Permutation batches))).
  apply in_map, Hb.
Qed.

Lemma calculatedBatches_sorted (batches : list Batch) :
  Forall validStart batches ->
  StronglySorted notEarlier (calculatedBatches batches).
Proof.
  intros Hv. unfold calculatedBatches. apply sort_StronglySorted.
  apply Forall_map. exact Hv.
Qed.

(** [updateBatch] replaces in place: the list keeps its length and, position
    by position, its ids; a batch with another id is left as it was; when no
    batch has the id of the update the list is unchanged. *)
Theorem updateBatch_in_place (updatedBatch : Batch) (s : AppState) :
  map id (batches (updateBatch updatedBatch s)) = map id (batches s)
  /\ (forall i b, nth_error (batches s) i = Some b ->
        id b <> id updatedBatch ->
        nth_error (batches (updateBatch updatedBatch s)) i = Some b)
  /\ (forall i b, nth_error (batches s) i = Some b ->
        id b = id updatedBatch ->
        nth_error (batches (updateBatch updatedBatch s)) i = Some updatedBatch)
  /\ ((forall b, In b (batches s) -> id b <> id updatedBatch) ->
      batches (updateBatch updatedBatch s) = batches s).
Proof.
  destruct (updateBatch_positions updatedBatch s) as [Hids [Hother Hsame]].
  split; [exact Hids |]. split; [exact Hother |]. split; [exact Hsame |].
  simpl.
  intros Hnone. rewrite <- (map_id (batches s)) at 2.
  apply map_ext_in. intros b Hb.
  apply Hnone in Hb. apply String.eqb_neq in Hb. rewrite Hb. reflexivity.
Qed.

Lemma updateBatch_in_place_witness :
  batches (updateBatch
             (mkBatch "9" (Some "") "ACR001" 1 "2023-11-14" "2023-11-15" 100
                Completed None None)
             seededState)
  = batches seededState.
Proof.
  apply (updateBatch_in_place
           (mkBatch "9" (Some "") "ACR001" 1 "2023-11-14" "2023-11-15" 100
              Completed None None)
           seededState).
  intros b Hb. simpl in Hb.
  repeat (destruct Hb as [<- | Hb]; [discriminate |]).
  contradiction.
Defined.

(** ** Batch types *)

Lemma find_some_id (typeId : string) (types : list BatchType) (bt : BatchType) :
  find (fun t => (bt_id t =? typeId)%string) types = Some bt ->
  In bt types /\ bt_id bt = typeId.
Proof.
  intros H. apply find_some in H. destruct H as [Hin He].
  apply String.eqb_eq in He. tauto.
Qed.

Lemma find_none_id (typeId : string) (types : list BatchType) :
  find (fun t => (bt_id t =? typeId)%string) types = None ->
  forall bt, In bt types -> bt_id bt <> typeId.
Proof.
  intros H bt Hin. apply String.eqb_neq. exact (find_none _ _ H bt Hin).
Qed.

Lemma same_id_same_type (types : list BatchType) (a b : BatchType) :
  NoDup (map bt_id types) -> In a types -> In b types ->
  bt_id a = bt_id b -> a = b.
Proof.
  induction types as [| t r IH]; intros Hnd Ha Hb He; [contradiction |].
  simpl in Hnd. inversion Hnd as [| ? ? Hnot Hnd']; subst.
  destruct Ha as [-> | Ha], Hb as [-> | Hb].
  - reflexivity.
  - exfalso. apply Hnot. rewrite He. apply in_map, Hb.
  - exfalso. apply Hnot. rewrite <- He. apply in_map, Ha.
  - apply IH; assumption.
Qed.

(** [handleUpdateColor] never touches the batches, the settings, the
    notification, or the ids of the batch types; for an id that no batch
    type has it changes nothing at all; and when the ids of the batch types
    are distinct it changes nothing but the colour of the type with that id:
    the batch numbers stay as they are. *)
Theorem handleUpdateColor_only_colour (typeId color : string) (s : AppState) :
  batches (handleUpdateColor typeId color s) = batches s
  /\ settings (handleUpdateColor typeId color s) = settings s
  /\ notification (handleUpdateColor typeId color s) = notification s
  /\ map bt_id (batchTypes (handleUpdateColor typeId color s))
     = map bt_id (batchTypes s)
  /\ ((forall bt, In bt (batchTypes s) -> bt_id bt <> typeId) ->
      handleUpdateColor typeId color s = s)
  /\ (NoDup (map bt_id (batchTypes s)) ->
      map bt_batchNumber (batchTypes (handleUpdateColor typeId color s))
      = map bt_batchNumber (batchTypes s)
      /\ forall bt, In bt (batchTypes s) ->
           In (if (bt_id bt =? typeId)%string
               then mkBatchType (bt_id bt) (bt_batchNumber bt) color
               else bt)
              (batchTypes (handleUpdateColor typeId color s))).
Proof.
  unfold handleUpdateColor.
  destruct (find (fun bt => (bt_id bt =? typeId)%string) (batchTypes s))
    as [found |] eqn:Hfind.
  - destruct (find_some_id _ _ _ Hfind) as [Hin Hid].
    simpl. do 3 (split; [reflexivity |]).
    split; [| split].
    + rewrite map_map. apply map_ext. intros bt. simpl.
      destruct (String.eqb_spec (bt_id bt) (bt_id found)); [simpl; congruence | reflexivity].
    + intros Hnone. exfalso. exact (Hnone found Hin Hid).
    + intros Hnd.
      assert (Hmap :
        map (fun bt => if (bt_id bt =? bt_id found)%string
                       then mkBatchType (bt_id found) (bt_batchNumber found) color
                       else bt) (batchTypes s)
        = map (fun bt => if (bt_id bt =? typeId)%string
                         then mkBatchType (bt_id bt) (bt_batchNumber bt) color
                         else bt) (batchTypes s)).
      { apply map_ext_in. intros bt Hbt. rewrite <- Hid.
        destruct (String.eqb_spec (bt_id bt) (bt_id found)) as [E | _];
          [| reflexivity].
        assert (bt = found) as ->
          by (apply (same_id_same_type (batchTypes s)); assumption).
        reflexivity. }
      rewrite Hmap. split.
      * rewrite map_map. apply map_ext. intros bt.
        destruct (bt_id bt =? typeId)%string; reflexivity.
      * intros bt Hbt.
        apply (in_map (fun bt => if (bt_id bt =? typeId)%string
                         then mkBatchType (bt_id bt) (bt_batchNumber bt) color
                         else bt)), Hbt.
  - do 4 (split; [reflexivity |]).
    split; [intros _; reflexivity |].
    intros _. split; [reflexivity |].
    intros bt Hbt.
    pose proof (find_none_id _ _ Hfind bt Hbt) as Hne.
    apply String.eqb_neq in Hne. rewrite Hne. exact Hbt.
Qed.

Lemma handleUpdateColor_only_colour_witness :
  map bt_batchNumber (batchTypes (handleUpdateColor "2" "#000000" seededState))
  = map bt_batchNumber (batchTypes seededState)
  /\ handleUpdateColor "7" "#000000" seededState = seededState.
Proof.
  destruct (handleUpdateColor_only_colour "2" "#000000" seededState)
    as [_ [_ [_ [_ [_ Hnd]]]]].
  destruct (handleUpdateColor_only_colour "7" "#000000" seededState)
    as [_ [_ [_ [_ [Hnone _]]]]].
  split.
  - apply Hnd. simpl.
    repeat (constructor; [simpl; intuition discriminate |]). constructor.
  - apply Hnone. intros bt Hbt. simpl in Hbt.
    repeat (destruct Hbt as [<- | Hbt]; [discriminate |]).
    contradiction.
Defined.

Lemma toUpperCase_char_idem (c : ascii) :
  JS.toUpperCase_char (JS.toUpperCase_char c) = JS.toUpperCase_char c.
Proof.
  destruct c as [[] [] [] [] [] [] [] []]; reflexivity.
Qed.

Lemma toUpperCase_idem (s : string) :
  JS.toUpperCase (JS.toUpperCase s) = JS.toUpperCase s.
Proof.
  induction s as [| c r IH]; [reflexivity |].
  simpl. rewrite toUpperCase_char_idem, IH. reflexivity.
Qed.

Lemma trimEnd_cons (c : ascii) (r : string) :
  JS.trimEnd (String c r)
  = match JS.trimEnd r with
    | EmptyString =>
        if JS.isWhiteSpace c then EmptyString else String c EmptyString
    | r' => String c r'
    end.
Proof. reflexivity. Qed.

Lemma trimEnd_idem (s : string) : JS.trimEnd (JS.trimEnd s) = JS.trimEnd s.
Proof.
  induction s as [| c r IH]; [reflexivity |].
  rewrite trimEnd_cons. destruct (JS.trimEnd r) as [| d r'] eqn:Er.
  - destruct (JS.isWhiteSpace c) eqn:Ec; [reflexivity |].
    rewrite trimEnd_cons. simpl. rewrite Ec. reflexivity.
  - rewrite trimEnd_cons, IH. reflexivity.
Qed.

Lemma trimStart_head (s : string) :
  JS.trimStart s = ""
  \/ exists c r, JS.trimStart s = String c r /\ JS.isWhiteSpace c = false.
Proof.
  induction s as [| c r IH]; [left; reflexivity |].
  simpl. destruct (JS.isWhiteSpace c) eqn:Ec; [exact IH |].
  right. exists c, r. split; [reflexivity | exact Ec].
Qed.

Lemma trim_idem (s : string) : JS.trim (JS.trim s) = JS.trim s.
Proof.
  unfold JS.trim.
  destruct (trimStart_head s) as [E | [c [r [E Ec]]]]; rewrite E.
  - reflexivity.
  - assert (Hs : JS.trimStart (JS.trimEnd (String c r)) = JS.trimEnd (String c r)).
    { rewrite trimEnd_cons. destruct (JS.trimEnd r); rewrite ?Ec; simpl;
        rewrite Ec; reflexivity. }
    rewrite Hs. apply trimEnd_idem.
Qed.

Lemma normalNumber_stored (text : string) :
  JS.trim text <> "" -> normalNumber (JS.toUpperCase (JS.trim text)).
Proof.
  intros Hne. unfold normalNumber. split; [| split].
  - destruct (JS.trim text); [congruence | discriminate].
  - rewrite trim_toUpperCase, trim_idem. reflexivity.
  - apply toUpperCase_idem.
Qed.

(** [handleAddBatchType] keeps the list of batch types well formed: batch
    numbers that differ from one another when case is ignored still do
    afterwards, and batch numbers that are non-blank, trimmed and in upper
    case are joined only by one of the same kind.  The batches and the
    settings are not touched. *)
Theorem handleAddBatchType_keeps_distinct
    (now : Z) (newBatchNumber newBatchColor : string) (s : AppState) :
  (distinctNumbers (batchTypes s) ->
   distinctNumbers (batchTypes (handleAddBatchType now newBatchNumber newBatchColor s)))
  /\ (Forall (fun bt => normalNumber (bt_batchNumber bt)) (batchTypes s) ->
      Forall (fun bt => normalNumber (bt_batchNumber bt))
        (batchTypes (handleAddBatchType now newBatchNumber newBatchColor s)))
  /\ batches (handleAddBatchType now newBatchNumber newBatchColor s) = batches s
  /\ settings (handleAddBatchType now newBatchNumber newBatchColor s) = settings s.
Proof.
  unfold handleAddBatchType, distinctNumbers.
  destruct (JS.truthy (JS.trim newBatchNumber)) eqn:Ht; simpl;
    [| repeat split; auto].
  destruct (JS.includes (existingBatchNumbers (batchTypes s))
              (JS.toUpperCase (JS.trim newBatchNumber))) eqn:Hinc; simpl;
    [repeat split; auto |].
  split; [| split; [| split; reflexivity]].
  - intros Hnd. unfold existingBatchNumbers. rewrite map_app. simpl.
    rewrite toUpperCase_idem.
    eapply Permutation_NoDup; [apply Permutation_cons_append |].
    constructor; [| exact Hnd].
    intros Hin. apply includes_In in Hin.
    unfold existingBatchNumbers in Hinc. congruence.
  - intros Hall. apply Forall_app. split; [exact Hall |].
    constructor; [| constructor]. simpl.
    apply normalNumber_stored. apply truthy_nonempty. exact Ht.
Qed.

Lemma handleAddBatchType_keeps_distinct_witness :
  distinctNumbers
    (batchTypes (handleAddBatchType 1700000000000 " summer-run-01 " "#14b8a6"
                   seededState))
  /\ Forall (fun bt => normalNumber (bt_batchNumber bt))
       (batchTypes (handleAddBatchType 1700000000000 " summer-run-01 " "#14b8a6"
                      seededState)).
Proof.
  destruct (handleAddBatchType_keeps_distinct 1700000000000 " summer-run-01 "
              "#14b8a6" seededState) as [Hd [Hn _]].
  split.
  - apply Hd. unfold distinctNumbers. simpl.
    repeat (constructor; [simpl; intuition discriminate |]). constructor.
  - apply Hn. apply Forall_forall. intros bt Hbt. simpl in Hbt.
    repeat (destruct Hbt as [<- | Hbt];
            [unfold normalNumber; simpl; repeat split;
             discriminate || reflexivity |]).
    contradiction.
Defined.

Lemma NoDup_map_filter {K V} (key : V -> K) (keep : V -> bool) (xs : list V) :
  NoDup (map key xs) -> NoDup (map key (filter keep xs)).
Proof.
  intros Hnd. induction xs as [| x r IH]; [constructor |].
  cbn [map] in Hnd. inversion Hnd as [| ? ? Hnot Hnd']; subst.
  cbn [filter]. destruct (keep x); [| apply IH, Hnd'].
  cbn [map]. constructor; [| apply IH, Hnd'].
  intros Hin. apply Hnot.
  apply in_map_iff in Hin. destruct Hin as [v [Hv Hin]].
  apply filter_In in Hin. rewrite <- Hv. apply in_map. tauto.
Qed.

(** [deleteBatchType] takes out exactly the types with the given id and has
    no effect on the batches: a batch keeps its batch number and colour when
    the type it was made from is deleted.  With no type of that id the list
    is unchanged; distinct batch numbers stay distinct. *)
Theorem deleteBatchType_no_cascade (batchTypeId : string) (s : AppState) :
  batches (deleteBatchType batchTypeId s) = batches s
  /\ (forall bt, In bt (batchTypes (deleteBatchType batchTypeId s))
                 <-> In bt (batchTypes s) /\ bt_id bt <> batchTypeId)
  /\ ((forall bt, In bt (batchTypes s) -> bt_id bt <> batchTypeId) ->
      batchTypes (deleteBatchType batchTypeId s) = batchTypes s)
  /\ (distinctNumbers (batchTypes s) ->
      distinctNumbers (batchTypes (deleteBatchType batchTypeId s))).
Proof.
  split; [reflexivity |]. split; [| split].
  - intros bt. simpl. rewrite filter_In, negb_true_iff.
    split; intros [H1 H2]; (split; [exact H1 |]); apply String.eqb_neq; exact H2.
  - intros Hnone. simpl. apply filter_all_true.
    intros bt Hbt. apply negb_true_iff, String.eqb_neq, Hnone, Hbt.
  - unfold distinctNumbers, existingBatchNumbers. simpl.
    apply NoDup_map_filter.
Qed.

Lemma deleteBatchType_no_cascade_witness :
  batchTypes (deleteBatchType "7" seededState) = batchTypes seededState.
Proof.
  apply (deleteBatchType_no_cascade "7" seededState).
  intros bt Hbt. simpl in Hbt.
  repeat (destruct Hbt as [<- | Hbt]; [discriminate |]).
  contradiction.
Defined.

(** ** Runs *)

(** After every command the seeding condition is off: whenever settings
    exist the batch list is not empty.  No sequence of commands, deletions
    included, ends with settings and an empty batch list. *)
Theorem run_never_empty (cs : list Command) (s : AppState) :
  cs <> [] -> settings (run cs s) <> None -> batches (run cs s) <> [].
Proof.
  assert (Hstep : forall c s', seedingCondition (step c s') = false).
  { intros c s'. unfold step, seedingEffect.
    destruct (seedingCondition (handle c s')) eqn:Hc; [| exact Hc].
    unfold seedingCondition. simpl.
    destruct (settings (handle c s')); reflexivity. }
  revert s. induction cs as [| c r IH]; intros s Hne Hs; [congruence |].
  simpl in *. destruct r as [| c' r'].
  - simpl in *. intros Hb.
    pose proof (Hstep c s) as Hc.
    assert (Ht : seedingCondition (step c s) = true)
      by (apply seedingCondition_iff; split; assumption).
    congruence.
  - apply IH; [discriminate | exact Hs].
Qed.

Lemma run_never_empty_witness :
  batches (run deleteEverything initialState) <> [].
Proof.
  apply (run_never_empty deleteEverything initialState); discriminate.
Defined.

(** The reset clears the settings and the batches and nothing else: batch
    types and theme outlive it, and no seeding follows it.  Completing the
    wizard after a reset ends, from whatever state, with the mock batches
    and the mock batch types. *)
Theorem reset_then_setup (formData : Settings) (s : AppState) :
  JS.truthy (companyName formData) = true ->
  (0 < numberOfMachines formData)%Q ->
  step ResetAll s = mkState None [] (batchTypes s) (theme s) (notification s)
  /\ run [ResetAll; CompleteSetup formData] s
     = mkState (Some formData) (map (fun b => b InProgress) MOCK_BATCHES)
         MOCK_BATCH_TYPES (theme s) (notification s).
Proof.
  intros Hname Hn.
  assert (Hreset :
    step ResetAll s = mkState None [] (batchTypes s) (theme s) (notification s))
    by reflexivity.
  split; [exact Hreset |].
  simpl run. rewrite Hreset.
  unfold step, handle, handleComplete. rewrite Hname. simpl.
  destruct (Qle_bool (numberOfMachines formData) 0) eqn:Hle.
  - apply Qle_bool_iff in Hle. lra.
  - reflexivity.
Qed.

Lemma reset_then_setup_witness :
  batchTypes (run [ResetAll; CompleteSetup (mkSettings "Geetha Tex" 3)]
                (handleAddBatchType 1700000000000 "summer-run-01" "#14b8a6"
                   seededState))
  = MOCK_BATCH_TYPES.
Proof.
  destruct (reset_then_setup (mkSettings "Geetha Tex" 3)
              (handleAddBatchType 1700000000000 "summer-run-01" "#14b8a6"
                 seededState)) as [_ H]; [reflexivity | reflexivity |].
  rewrite H. reflexivity.
Defined.

(** ** More on the derived quantities *)

Lemma Z_le_of_Q_pred_lt (n k : Z) :
  (inject_Z k - 1 < inject_Z n)%Q -> k <= n.
Proof.
  intros H0.
  assert (H : (inject_Z (k - 1) < inject_Z n)%Q).
  { unfold Z.sub. rewrite inject_Z_plus, inject_Z_opp.
    change (inject_Z 1) with 1%Q. lra. }
  rewrite <- Zlt_Qlt in H. lia.
Qed.

Lemma Z_le_of_Q_lt_succ (n k : Z) :
  (inject_Z n < inject_Z k + 1)%Q -> n <= k.
Proof.
  intros H0.
  assert (H : (inject_Z n < inject_Z (k + 1))%Q).
  { rewrite inject_Z_plus. change (inject_Z 1) with 1%Q. lra. }
  rewrite <- Zlt_Qlt in H. lia.
Qed.

(** A number of two decimal places nearest to a binary64 quotient of about
    [4] is as near to [4] as one nearest to the exact quotient can be: the
    rounding of the quotient is too small to reach the next hundredth. *)
Lemma hundredths_of_quotient (ft n : Z) (x f : Q) :
  1 <= ft ->
  (4 * inject_Z ft - 2 <= x * inject_Z ft)%Q ->
  (x * inject_Z ft < 4 * inject_Z ft + 2)%Q ->
  (x - (1 # 2 ^ 51) <= f)%Q -> (f <= x + (1 # 2 ^ 51))%Q ->
  nearest (f * 100) n ->
  (inject_Z ft * (inject_Z n / 100 - 4) <= 2 + inject_Z ft * (1 # 200))%Q
  /\ (- (2 + inject_Z ft * (1 # 200)) <= inject_Z ft * (inject_Z n / 100 - 4))%Q.
Proof.
  intros Hft Hx1 Hx2 Hf1 Hf2 [N1 N2].
  assert (He : (1 # 2 ^ 51 <= 1 # 1000000000000000)%Q)
    by (apply Qle_bool_iff; vm_compute; reflexivity).
  assert (He0 : (0 <= 1 # 2 ^ 51)%Q) by discriminate.
  set (eps := (1 # 2 ^ 51)%Q) in *.
  assert (HF : (1 <= inject_Z ft)%Q).
  { change 1%Q with (inject_Z 1). rewrite <- Zle_Qle. exact Hft. }
  set (F := inject_Z ft) in *. set (N := inject_Z n) in *.
  assert (E : (F * (N / 100 - 4) == (2 * F * N - 800 * F) * (1 # 200))%Q)
    by field.
  rewrite E. clear E.
  destruct (Z.le_gt_cases ft 1000000000000) as [Hsmall | Hlarge].
  - assert (HF' : (F <= 1000000000000)%Q).
    { unfold F. change 1000000000000%Q with (inject_Z 1000000000000).
      rewrite <- Zle_Qle. exact Hsmall. }
    assert (A1 : (F * N <= F * (f * 100 + (1 # 2)))%Q)
      by (apply Qmult_le_l; lra).
    assert (A1' : (F * (f * 100 - (1 # 2)) < F * N)%Q)
      by (apply Qmult_lt_l; lra).
    assert (A2 : (F * f <= F * (x + eps))%Q) by (apply Qmult_le_l; lra).
    assert (A2' : (F * (x - eps) <= F * f)%Q) by (apply Qmult_le_l; lra).
    assert (A3 : (F * eps <= 1000000000000 * eps)%Q)
      by (apply Qmult_le_compat_r; lra).
    assert (U : (2 * F * N < 801 * F + 401)%Q) by lra.
    assert (L : (799 * F - 401 < 2 * F * N)%Q) by lra.
    assert (UZ : 2 * ft * n < 801 * ft + 401).
    { rewrite Zlt_Qlt, inject_Z_plus, !inject_Z_mult.
      fold F N. change (inject_Z 2) with 2%Q. change (inject_Z 801) with 801%Q.
      change (inject_Z 401) with 401%Q. exact U. }
    assert (LZ : 799 * ft - 401 < 2 * ft * n).
    { rewrite Zlt_Qlt. unfold Z.sub.
      rewrite inject_Z_plus, inject_Z_opp, !inject_Z_mult.
      fold F N. change (inject_Z 2) with 2%Q. change (inject_Z 799) with 799%Q.
      change (inject_Z 401) with 401%Q. lra. }
    assert (UZ' : 2 * ft * n <= 801 * ft + 400) by lia.
    assert (LZ' : 799 * ft + - (400) <= 2 * ft * n) by lia.
    rewrite Zle_Qle in UZ', LZ'.
    rewrite inject_Z_plus, !inject_Z_mult in UZ'.
    rewrite inject_Z_plus, inject_Z_opp, !inject_Z_mult in LZ'.
    fold F N in UZ', LZ'.
    change (inject_Z 2) with 2%Q in *. change (inject_Z 801) with 801%Q in *.
    change (inject_Z 799) with 799%Q in *. change (inject_Z 400) with 400%Q in *.
    split; lra.
  - assert (HF' : (1000000000000 < F)%Q).
    { unfold F. change 1000000000000%Q with (inject_Z 1000000000000).
      rewrite <- Zlt_Qlt. lia. }
    assert (Hup : (x < 4 + (1 # 10000000000))%Q).
    { destruct (Qlt_le_dec x (4 + (1 # 10000000000))) as [ok | bad]; [exact ok |].
      assert (B : ((4 + (1 # 10000000000)) * F <= x * F)%Q)
        by (apply Qmult_le_compat_r; lra).
      lra. }
    assert (Hdn : (4 - (1 # 10000000000) < x)%Q).
    { destruct (Qlt_le_dec (4 - (1 # 10000000000)) x) as [ok | bad]; [exact ok |].
      assert (B : (x * F <= (4 - (1 # 10000000000)) * F)%Q)
        by (apply Qmult_le_compat_r; lra).
      lra. }
    assert (Hn1 : n <= 400).
    { apply Z_le_of_Q_lt_succ. fold N. change (inject_Z 400) with 400%Q. lra. }
    assert (Hn2 : 400 <= n).
    { apply Z_le_of_Q_pred_lt. fold N. change (inject_Z 400) with 400%Q. lra. }
    assert (En : (F * N == F * 400)%Q).
    { unfold N. replace n with 400 by lia. reflexivity. }
    split; lra.
Qed.

(** The average is [0] below a meter value of [2], where [ftotal] is not
    positive; from [2] on, [ftotal] is at least [1] and the average lies
    between [2] and [6], within [2 / ftotal + 0.005] of [4]. *)
Theorem average_range (b : Batch) :
  ((meterValue b < 2)%Q ->
   ftotal (deriveBatch b) <= 0 /\ (average (deriveBatch b) == 0)%Q)
  /\ ((2 <= meterValue b)%Q ->
      1 <= ftotal (deriveBatch b)
      /\ (2 <= average (deriveBatch b))%Q /\ (average (deriveBatch b) <= 6)%Q
      /\ (inject_Z (ftotal (deriveBatch b)) * (average (deriveBatch b) - 4)
          <= 2 + inject_Z (ftotal (deriveBatch b)) * (1 # 200))%Q
      /\ (- (2 + inject_Z (ftotal (deriveBatch b)) * (1 # 200))
          <= inject_Z (ftotal (deriveBatch b)) * (average (deriveBatch b) - 4))%Q).
Proof.
  destruct (Math_round_nearest (meterValue b / 4)) as [Hlo Hhi].
  assert (Hq : (meterValue b / 4 * 4 == meterValue b)%Q) by field.
  split.
  - intros Hm. simpl. set (ft := JS.Math_round (meterValue b / 4)) in *.
    assert (Hft : ft <= 0).
    { apply Z_le_of_Q_lt_succ. change (inject_Z 0) with 0%Q. lra. }
    split; [exact Hft |].
    destruct (0 <? ft) eqn:E; [apply Z.ltb_lt in E; lia | reflexivity].
  - intros Hm.
    assert (Hm0 : (0 < meterValue b)%Q) by lra.
    assert (Hft : 1 <= ftotal (deriveBatch b)).
    { simpl. apply Z_le_of_Q_pred_lt. change (inject_Z 1) with 1%Q. lra. }
    assert (Hpos : 0 < ftotal (deriveBatch b)) by lia.
    destruct (quotient_range b Hm0 Hpos) as [H2 H6].
    destruct (binary64_2_8 _ H2) as [[Hf1 Hf2] [Hf2' Hf6]]; [lra |].
    specialize (Hf6 (Qlt_le_weak _ _ H6)).
    destruct (deriveBatch_average_rounded b Hm0 Hpos) as [n [Hn Hnear]].
    change (inject_Z (10 ^ Z.of_nat 2)) with 100%Q in *.
    change (JS.Math_round (meterValue b / 4)) with (ftotal (deriveBatch b))
      in Hlo, Hhi.
    set (ft := ftotal (deriveBatch b)) in *.
    set (x := (meterValue b / inject_Z ft)%Q) in *.
    set (f := JS.binary64 x) in *.
    assert (HF : (1 <= inject_Z ft)%Q).
    { change 1%Q with (inject_Z 1). rewrite <- Zle_Qle. exact Hft. }
    assert (Hxm : (x * inject_Z ft == meterValue b)%Q).
    { unfold x. field. lra. }
    assert (Hx1 : (4 * inject_Z ft - 2 <= x * inject_Z ft)%Q) by lra.
    assert (Hx2 : (x * inject_Z ft < 4 * inject_Z ft + 2)%Q) by lra.
    destruct (hundredths_of_quotient ft n x f Hft Hx1 Hx2 Hf1 Hf2 Hnear)
      as [U L].
    destruct Hnear as [N1 N2].
    assert (Hd : (inject_Z n / 100 * 100 == inject_Z n)%Q) by field.
    assert (Hn200 : 200 <= n).
    { apply Z_le_of_Q_pred_lt. change (inject_Z 200) with 200%Q. lra. }
    assert (Hn600 : n <= 600).
    { apply Z_le_of_Q_lt_succ. change (inject_Z 600) with 600%Q. lra. }
    rewrite Zle_Qle in Hn200. rewrite Zle_Qle in Hn600.
    change (inject_Z 200) with 200%Q in Hn200.
    change (inject_Z 600) with 600%Q in Hn600.
    split; [exact Hft |]. rewrite Hn.
    split; [lra |]. split; [lra |]. split; [exact U | exact L].
Qed.

Lemma average_range_witness :
  ftotal (deriveBatch (mkBatch "1" None "A" 1 "2023-10-01" "" (19 # 10) InProgress
                         None None)) <= 0
  /\ (2 <= average (deriveBatch (mkBatch "1" None "A" 1 "2023-10-01" "" scenarioMeter
                                   InProgress None None)))%Q.
Proof.
  split.
  - apply (average_range (mkBatch "1" None "A" 1 "2023-10-01" "" (19 # 10)
                            InProgress None None)).
    reflexivity.
  - apply (average_range (mkBatch "1" None "A" 1 "2023-10-01" "" scenarioMeter
                            InProgress None None)).
    discriminate.
Defined.

(** A larger meter value never gives a smaller [ftotal]. *)
Theorem ftotal_monotone (a b : Batch) :
  (meterValue a <= meterValue b)%Q ->
  ftotal (deriveBatch a) <= ftotal (deriveBatch b).
Proof.
  intros Hle. simpl. unfold JS.Math_round.
  apply Qfloor_resp_le.
  assert (Ha : (meterValue a / 4 * 4 == meterValue a)%Q) by field.
  assert (Hb : (meterValue b / 4 * 4 == meterValue b)%Q) by field.
  lra.
Qed.

Lemma ftotal_monotone_witness :
  ftotal (deriveBatch (mkBatch "1" None "A" 1 "" "" 6 InProgress None None))
  <= ftotal (deriveBatch (mkBatch "2" None "B" 1 "" "" 7 InProgress None None)).
Proof.
  apply (ftotal_monotone (mkBatch "1" None "A" 1 "" "" 6 InProgress None None)
           (mkBatch "2" None "B" 1 "" "" 7 InProgress None None)).
  discriminate.
Defined.

(** ** Totals and buckets *)

Lemma overallFtotal_from (acc : Z) (l : list CalculatedBatch) :
  fold_left (fun sum b => sum + ftotal b) l acc = acc + overallFtotal l.
Proof.
  unfold overallFtotal. revert acc.
  induction l as [| c r IH]; intros acc; simpl; [lia |].
  rewrite IH, (IH (ftotal c)). lia.
Qed.

Lemma overallFtotal_cons (c : CalculatedBatch) (l : list CalculatedBatch) :
  overallFtotal (c :: l) = ftotal c + overallFtotal l.
Proof.
  unfold overallFtotal at 1. simpl. apply overallFtotal_from.
Qed.




Lemma filter_split {A} (p q r : A -> bool) (l : list A) :
  (forall x, r x = p x || q x) -> (forall x, p x && q x = false) ->
  Permutation (filter p l ++ filter q l) (filter r l).
Proof.
  intros Hr Hd. induction l as [| a t IH]; [constructor |].
  simpl. rewrite (Hr a). specialize (Hd a).
  destruct (p a), (q a); simpl in *; try discriminate.
  - apply perm_skip, IH.
  - eapply perm_trans; [apply Permutation_sym, Permutation_middle |].
    apply perm_skip, IH.
  - exact IH.
Qed.

Lemma buckets_upto (calculated : list CalculatedBatch) (n : nat) :
  Permutation
    (List.concat (map (fun i => filter (fun b => machineNumber (batch b) =? Z.of_nat i + 1)
                              calculated)
                 (seq 0 n)))
    (filter (fun b => (1 <=? machineNumber (batch b))
                      && (machineNumber (batch b) <=? Z.of_nat n))
            calculated).
Proof.
  induction n as [| n IH].
  - simpl. rewrite (filter_ext _ (fun _ => false)).
    + induction calculated; [constructor | assumption].
    + intros b. destruct (1 <=? machineNumber (batch b)) eqn:E1; [| reflexivity].
      apply Z.leb_le in E1. simpl. apply Z.leb_gt. lia.
  - rewrite seq_S, map_app, concat_app.
    cbn [map List.concat Nat.add]. rewrite app_nil_r.
    eapply perm_trans; [apply Permutation_app_tail, IH |].
    apply filter_split.
    + intros b.
      destruct (Z.leb_spec 1 (machineNumber (batch b))),
               (Z.leb_spec (machineNumber (batch b)) (Z.of_nat n)),
               (Z.leb_spec (machineNumber (batch b)) (Z.of_nat (S n))),
               (Z.eqb_spec (machineNumber (batch b)) (Z.of_nat n + 1));
        cbn [andb orb]; try reflexivity; exfalso; lia.
    + intros b.
      destruct (Z.leb_spec 1 (machineNumber (batch b))),
               (Z.leb_spec (machineNumber (batch b)) (Z.of_nat n)),
               (Z.eqb_spec (machineNumber (batch b)) (Z.of_nat n + 1));
        cbn [andb orb]; try reflexivity; exfalso; lia.
Qed.

(** The buckets of the Machines page, taken together, hold each calculated
    batch whose machine number lies between [1] and the number of machines
    (cut to an integer) exactly once, and no other batch: a batch of a
    machine beyond the configured number is on no card. *)
Theorem buckets_partition (calculated : list CalculatedBatch) (numberOfMachines : Q) :
  Permutation
    (List.concat (map mb_batches (batchesByMachine calculated numberOfMachines)))
    (filter (fun b => (1 <=? machineNumber (batch b))
                      && (machineNumber (batch b) <=? Qfloor numberOfMachines))
            calculated)
  /\ (forall bucket b,
        In bucket (batchesByMachine calculated numberOfMachines) ->
        In b (mb_batches bucket) ->
        1 <= machineNumber (batch b) <= Qfloor numberOfMachines).
Proof.
  assert (Hperm :
    Permutation
      (List.concat (map mb_batches (batchesByMachine calculated numberOfMachines)))
      (filter (fun b => (1 <=? machineNumber (batch b))
                        && (machineNumber (batch b) <=? Qfloor numberOfMachines))
              calculated)).
  { unfold batchesByMachine, Array_from. rewrite !map_map. simpl.
    eapply perm_trans; [apply buckets_upto |].
    rewrite (filter_ext _ (fun b => (1 <=? machineNumber (batch b))
                        && (machineNumber (batch b) <=? Qfloor numberOfMachines))).
    - apply Permutation_refl.
    - intros b.
      destruct (1 <=? machineNumber (batch b)) eqn:E1; [| reflexivity]. simpl.
      apply Z.leb_le in E1.
      destruct (machineNumber (batch b) <=? Qfloor numberOfMachines) eqn:E2.
      + apply Z.leb_le in E2. apply Z.leb_le. lia.
      + apply Z.leb_gt in E2. apply Z.leb_gt. lia. }
  split; [exact Hperm |].
  intros bucket b Hbucket Hb.
  assert (Hin : In b (List.concat (map mb_batches
                                (batchesByMachine calculated numberOfMachines)))).
  { apply in_concat. exists (mb_batches bucket). split; [| exact Hb].
    apply in_map, Hbucket. }
  eapply Permutation_in in Hin; [| exact Hperm].
  apply filter_In in Hin. destruct Hin as [_ Hr].
  apply andb_true_iff in Hr. rewrite !Z.leb_le in Hr. exact Hr.
Qed.

(** After the number of machines is lowered from three to two, the batch of
    machine 3 is on no card. *)
Example batchesByMachine_lowered :
  map (fun bucket => map (fun b => id (batch b)) (mb_batches bucket))
      (batchesByMachine (calculatedBatches (batches seededState)) 2)
  = [["3"; "1"]; ["5"; "2"]].
Proof. reflexivity. Qed.

Lemma StronglySorted_filter {A} (R : A -> A -> Prop) (p : A -> bool) (l : list A) :
  StronglySorted R l -> StronglySorted R (filter p l).
Proof.
  induction 1 as [| a l Hs IH Hall]; simpl; [constructor |].
  destruct (p a); [| exact IH].
  constructor; [exact IH |].
  rewrite Forall_forall in *. intros x Hx. apply filter_In in Hx.
  apply Hall. tauto.
Qed.

(** The "latest batch" of a machine card is the first batch of its bucket.
    When every start date is valid it is a batch of that machine whose start
    date is the latest of the machine's batches; the card has none exactly
    when the machine has no batch. *)
Theorem latestBatch_is_latest (batches : list Batch) (numberOfMachines : Q)
    (bucket : MachineBucket) :
  Forall validStart batches ->
  In bucket (batchesByMachine (calculatedBatches batches) numberOfMachines) ->
  (forall c, latestBatch (mb_batches bucket) = Some c ->
     machineNumber (batch c) = mb_machineNumber bucket
     /\ In c (calculatedBatches batches)
     /\ forall c', In c' (calculatedBatches batches) ->
          machineNumber (batch c') = mb_machineNumber bucket ->
          notEarlier c c')
  /\ (latestBatch (mb_batches bucket) = None <->
      forall c', In c' (calculatedBatches batches) ->
        machineNumber (batch c') <> mb_machineNumber bucket).
Proof.
  intros Hvalid Hbucket.
  unfold batchesByMachine in Hbucket.
  apply in_map_iff in Hbucket. destruct Hbucket as [num [<- _]]. simpl.
  set (p := fun b : CalculatedBatch => machineNumber (batch b) =? num).
  pose proof (calculatedBatches_Permutation batches) as Hperm.
  pose proof (calculatedBatches_sorted batches Hvalid) as Hsorted.
  pose proof (StronglySorted_filter notEarlier p _ Hsorted) as Hfs.
  assert (Htimes : forall c, In c (calculatedBatches batches) -> notEarlier c c).
  { intros c Hc. eapply Permutation_in in Hc; [| exact Hperm].
    apply in_map_iff in Hc. destruct Hc as [b [<- Hb]].
    rewrite Forall_forall in Hvalid. specialize (Hvalid b Hb).
    unfold validStart in Hvalid. unfold notEarlier, time. simpl.
    destruct (JS.Date_getTime (startDate b)) as [t |]; [| congruence].
    exists t, t. repeat split; lia. }
  split.
  - intros c Hc.
    destruct (filter p (calculatedBatches batches)) as [| h r] eqn:Ef;
      [discriminate |].
    simpl in Hc. injection Hc as <-.
    assert (Hh : In h (filter p (calculatedBatches batches)))
      by (rewrite Ef; left; reflexivity).
    apply filter_In in Hh. destruct Hh as [Hin Hp].
    split; [apply Z.eqb_eq, Hp |]. split; [exact Hin |].
    intros c' Hc' Hm.
    assert (Hc'' : In c' (h :: r)).
    { rewrite <- Ef. apply filter_In. split; [exact Hc' |].
      apply Z.eqb_eq, Hm. }
    destruct Hc'' as [<- | Hr]; [apply Htimes, Hin |].
    apply StronglySorted_inv in Hfs. destruct Hfs as [_ Hall].
    rewrite Forall_forall in Hall. apply Hall, Hr.
  - split.
    + intros Hnone c' Hc' Hm.
      destruct (filter p (calculatedBatches batches)) as [| h r] eqn:Ef;
        [| discriminate].
      assert (Hin : In c' (filter p (calculatedBatches batches))).
      { apply filter_In. split; [exact Hc' | apply Z.eqb_eq, Hm]. }
      rewrite Ef in Hin. exact Hin.
    + intros Hnone.
      destruct (filter p (calculatedBatches batches)) as [| h r] eqn:Ef;
        [reflexivity |].
      assert (Hh : In h (filter p (calculatedBatches batches)))
        by (rewrite Ef; left; reflexivity).
      apply filter_In in Hh. destruct Hh as [Hin Hp].
      exfalso. apply (Hnone h Hin). apply Z.eqb_eq, Hp.
Qed.

Lemma latestBatch_is_latest_witness :
  exists c,
    latestBatch (filter (fun b => machineNumber (batch b) =? 1)
                   (calculatedBatches (batches seededState))) = Some c
    /\ machineNumber (batch c) = 1.
Proof.
  assert (Hvalid : Forall validStart (batches seededState))
    by (repeat constructor; unfold validStart; vm_compute; discriminate).
  assert (Hin : In (mkBucket 1 (filter (fun b => machineNumber (batch b) =? 1)
                                  (calculatedBatches (batches seededState))))
                   (batchesByMachine (calculatedBatches (batches seededState)) 3))
    by (left; reflexivity).
  destruct (latestBatch_is_latest (batches seededState) 3 _ Hvalid Hin)
    as [Hlatest _].
  cbn [mb_batches] in Hlatest.
  destruct (latestBatch (filter (fun b => machineNumber (batch b) =? 1)
                           (calculatedBatches (batches seededState))))
    as [c |] eqn:Hc.
  - exists c. split; [reflexivity | exact (proj1 (Hlatest c eq_refl))].
  - exfalso. vm_compute in Hc. discriminate Hc.
Defined.

Lemma buckets_partition_witness :
  Permutation
    (List.concat
       (map mb_batches
          (batchesByMachine (calculatedBatches (batches seededState)) 2)))
    (filter (fun b => (1 <=? machineNumber (batch b))
                      && (machineNumber (batch b) <=? Qfloor 2))
       (calculatedBatches (batches seededState))).
Proof.
  destruct (buckets_partition (calculatedBatches (batches seededState)) 2)
    as [Hperm _].
  exact Hperm.
Defined.

(** ** Editing a batch *)

Lemma validate_true_iff (existing : list string) (e : Batch) (f : BatchForm) :
  snd (EditBatchModal_validate existing e f) = true
  <-> (JS.includes existing (JS.toUpperCase (JS.trim (bf_batchNumber f))) = false
       \/ JS.toUpperCase (bf_batchNumber f) = JS.toUpperCase (batchNumber e))
      /\ JS.trim (bf_batchNumber f) <> ""
      /\ (0 < bf_meterValue f)%Q.
Proof.
  unfold EditBatchModal_validate.
  destruct (Qle_bool (bf_meterValue f) 0) eqn:Em.
  - simpl. apply Qle_bool_iff in Em. split; [discriminate |].
    intros [_ [_ H]]. lra.
  - assert (Hm : (0 < bf_meterValue f)%Q).
    { destruct (Qlt_le_dec 0 (bf_meterValue f)) as [H | H]; [exact H |].
      apply Qle_bool_iff in H. congruence. }
    destruct (JS.truthy (JS.trim (bf_batchNumber f))) eqn:Et; simpl.
    + apply truthy_nonempty in Et.
      destruct (JS.includes existing (JS.toUpperCase (JS.trim (bf_batchNumber f))));
        simpl.
      * destruct (String.eqb_spec (JS.toUpperCase (bf_batchNumber f))
                    (JS.toUpperCase (batchNumber e))) as [E | N]; simpl.
        -- split; [intros _ | reflexivity]. repeat split; auto.
        -- split; [discriminate |]. intros [[H | H] _]; congruence.
      * split; [intros _ | reflexivity]. repeat split; auto.
    + split; [discriminate |]. intros [_ [H _]].
      destruct (JS.trim (bf_batchNumber f)); [congruence | discriminate].
Qed.

(** Validation passes exactly when it leaves no error message. *)
Lemma validate_errors (existing : list string) (e : Batch) (f : BatchForm) :
  snd (EditBatchModal_validate existing e f) = true
  <-> fst (EditBatchModal_validate existing e f) = mkEditErrors "" "".
Proof.
  unfold EditBatchModal_validate.
  destruct (Qle_bool (bf_meterValue f) 0),
           (JS.truthy (JS.trim (bf_batchNumber f))),
           (JS.includes existing (JS.toUpperCase (JS.trim (bf_batchNumber f)))),
           (JS.toUpperCase (bf_batchNumber f)
            =? JS.toUpperCase (batchNumber e))%string;
    simpl; split; intros H; try reflexivity; discriminate H.
Qed.

(** A refused edit changes nothing.  An accepted edit keeps the ids of the
    list position by position and leaves every batch with another id as it
    was; what it stores has the status of the batch being edited, a
    positive meter value and a batch number that is not blank.  An edit is
    accepted exactly when validation sets no error message. *)
Theorem submitEdit_preserves (batchToEdit : Batch) (formData : BatchForm)
    (s : AppState) :
  (snd (EditBatchModal_validate (batchNumbersOf (batches s)) batchToEdit formData)
   = false ->
   submitEdit batchToEdit formData s = s)
  /\ (snd (EditBatchModal_validate (batchNumbersOf (batches s)) batchToEdit formData)
      = true ->
      map id (batches (submitEdit batchToEdit formData s)) = map id (batches s)
      /\ (forall i b, nth_error (batches s) i = Some b -> id b <> bf_id formData ->
            nth_error (batches (submitEdit batchToEdit formData s)) i = Some b)
      /\ (forall i b, nth_error (batches s) i = Some b -> id b = bf_id formData ->
            exists b',
              nth_error (batches (submitEdit batchToEdit formData s)) i = Some b'
              /\ id b' = id b
              /\ status b' = status batchToEdit
              /\ (0 < meterValue b')%Q
              /\ JS.trim (batchNumber b') <> ""
              /\ batchNumber b' = JS.toUpperCase (bf_batchNumber formData)))
  /\ (snd (EditBatchModal_validate (batchNumbersOf (batches s)) batchToEdit formData)
      = true
      <-> fst (EditBatchModal_validate (batchNumbersOf (batches s)) batchToEdit
                 formData)
          = mkEditErrors "" "").
Proof.
  split; [| split; [| apply validate_errors]].
  - intros Hv. unfold submitEdit, EditBatchModal_handleSubmit. rewrite Hv.
    reflexivity.
  - intros Hv. unfold submitEdit, EditBatchModal_handleSubmit. rewrite Hv.
    apply validate_true_iff in Hv. destruct Hv as [_ [Hnb Hm]].
    set (u := mkBatch (bf_id formData) (bf_name formData)
                (JS.toUpperCase (bf_batchNumber formData))
                (bf_machineNumber formData) (bf_startDate formData)
                (bf_endDate formData) (bf_meterValue formData)
                (status batchToEdit) (bf_color formData) (bf_image formData)).
    destruct (updateBatch_positions u s) as [Hids [Hother Hsame]].
    split; [exact Hids |]. split; [exact Hother |].
    intros i b Hi Hid. exists u. split; [apply (Hsame i b Hi Hid) |].
    split; [symmetry; exact Hid |]. split; [reflexivity |].
    split; [exact Hm |]. split; [| reflexivity].
    simpl. rewrite trim_toUpperCase.
    destruct (JS.trim (bf_batchNumber formData)); [congruence | discriminate].
Qed.

Lemma submitEdit_preserves_witness :
  submitEdit (hd (mkBatch "" None "" 0 "" "" 0 InProgress None None)
                (batches seededState))
    (mkBatchForm "1" (Some "Autumn Collection Run 1") "WFP001" 1
       "2023-10-01" "2023-10-05" scenarioMeter (Some "#16a34a") None)
    seededState
  = seededState
  /\ map id
       (batches
          (submitEdit (hd (mkBatch "" None "" 0 "" "" 0 InProgress None None)
                         (batches seededState))
             (mkBatchForm "1" (Some "Autumn Collection Run 1") "acr002" 1
                "2023-10-01" "2023-10-05" scenarioMeter (Some "#16a34a") None)
             seededState))
     = map id (batches seededState).
Proof.
  split.
  - destruct (submitEdit_preserves
                (hd (mkBatch "" None "" 0 "" "" 0 InProgress None None)
                   (batches seededState))
                (mkBatchForm "1" (Some "Autumn Collection Run 1") "WFP001" 1
                   "2023-10-01" "2023-10-05" scenarioMeter (Some "#16a34a") None)
                seededState) as [Hrefused _].
    apply Hrefused. reflexivity.
  - destruct (submitEdit_preserves
                (hd (mkBatch "" None "" 0 "" "" 0 InProgress None None)
                   (batches seededState))
                (mkBatchForm "1" (Some "Autumn Collection Run 1") "acr002" 1
                   "2023-10-01" "2023-10-05" scenarioMeter (Some "#16a34a") None)
                seededState) as [_ [Haccepted _]].
    apply Haccepted. reflexivity.
Defined.

(** The uniqueness test of the edit form.  A form that keeps the batch
    number of the batch being edited (case aside) is never refused for
    uniqueness: it is accepted when its number is not blank and its meter
    value is positive.  An accepted form whose number is trimmed and is not
    that of the batch being edited stores a number that no batch of the list
    had. *)
Theorem submitEdit_unique (batchToEdit : Batch) (formData : BatchForm)
    (s : AppState) :
  (JS.toUpperCase (bf_batchNumber formData)
   = JS.toUpperCase (batchNumber batchToEdit) ->
   JS.trim (bf_batchNumber formData) <> "" ->
   (0 < bf_meterValue formData)%Q ->
   snd (EditBatchModal_validate (batchNumbersOf (batches s)) batchToEdit formData)
   = true)
  /\ (snd (EditBatchModal_validate (batchNumbersOf (batches s)) batchToEdit
             formData) = true ->
      JS.toUpperCase (bf_batchNumber formData)
      <> JS.toUpperCase (batchNumber batchToEdit) ->
      JS.trim (bf_batchNumber formData) = bf_batchNumber formData ->
      forall b, In b (batches s) ->
                batchNumber b <> JS.toUpperCase (bf_batchNumber formData)).
Proof.
  split.
  - intros Hsame Hnb Hm. apply validate_true_iff. tauto.
  - intros Hv Hdiff Htrim b Hb Heq.
    apply validate_true_iff in Hv. destruct Hv as [[Hinc | Hs] _]; [| contradiction].
    rewrite Htrim in Hinc.
    assert (Hin : JS.includes (batchNumbersOf (batches s))
                    (JS.toUpperCase (bf_batchNumber formData)) = true).
    { apply includes_In. rewrite <- Heq. unfold batchNumbersOf.
      apply (in_map (fun b => batchNumber b)), Hb. }
    congruence.
Qed.

Lemma submitEdit_unique_witness :
  snd (EditBatchModal_validate (batchNumbersOf (batches seededState))
         (hd (mkBatch "" None "" 0 "" "" 0 InProgress None None)
            (batches seededState))
         (mkBatchForm "1" (Some "Autumn Collection Run 1") "acr001" 2
            "2023-10-02" "2023-10-05" 1300 (Some "#16a34a") None))
  = true.
Proof.
  apply (submitEdit_unique
           (hd (mkBatch "" None "" 0 "" "" 0 InProgress None None)
              (batches seededState))
           (mkBatchForm "1" (Some "Autumn Collection Run 1") "acr001" 2
              "2023-10-02" "2023-10-05" 1300 (Some "#16a34a") None)
           seededState).
  - reflexivity.
  - discriminate.
  - reflexivity.
Defined.

(** ** The month of a batch *)

Lemma DayFromYear_step (y : Z) :
  JS.DayFromYear (y + 1)
  = JS.DayFromYear y + 365 + (if JS.isLeapYear y then 1 else 0).
Proof.
  unfold JS.DayFromYear, JS.isLeapYear.
  destruct (Z.eqb_spec (y mod 4) 0), (Z.eqb_spec (y mod 100) 0),
           (Z.eqb_spec (y mod 400) 0);
    cbn [andb orb negb]; Z.div_mod_to_equations; lia.
Qed.

Lemma YearFromDay_unique (y d : Z) :
  JS.DayFromYear y <= d < JS.DayFromYear (y + 1) -> YearFromDay d = y.
Proof.
  intros H. unfold YearFromDay.
  assert (Hest : y - 1 <= 1970 + (400 * d) / 146097 <= y + 1).
  { unfold JS.DayFromYear in H. Z.div_mod_to_equations. lia. }
  set (ye := 1970 + (400 * d) / 146097) in *.
  pose proof (DayFromYear_step (y - 1)) as S0.
  pose proof (DayFromYear_step y) as S1.
  pose proof (DayFromYear_step (y + 1)) as S2.
  replace (y - 1 + 1) with y in S0 by lia.
  assert (ye = y - 1 \/ ye = y \/ ye = y + 1) as [-> | [-> | ->]] by lia.
  - replace (y - 1 + 1) with y by lia.
    destruct (Z.ltb_spec d (JS.DayFromYear (y - 1))).
    + destruct (JS.isLeapYear (y - 1)); lia.
    + destruct (Z.leb_spec (JS.DayFromYear y) d); lia.
  - destruct (Z.ltb_spec d (JS.DayFromYear y)); [lia |].
    destruct (Z.leb_spec (JS.DayFromYear (y + 1)) d); lia.
  - destruct (Z.ltb_spec d (JS.DayFromYear (y + 1))); lia.
Qed.

(** The year that [YearFromDay] gives is the year the day lies in. *)
Lemma YearFromDay_spec (d : Z) :
  JS.DayFromYear (YearFromDay d) <= d < JS.DayFromYear (YearFromDay d + 1).
Proof.
  unfold YearFromDay.
  set (ye := 1970 + (400 * d) / 146097).
  assert (Hlo : JS.DayFromYear (ye - 1) <= d).
  { unfold JS.DayFromYear, ye. Z.div_mod_to_equations. lia. }
  assert (Hhi : d < JS.DayFromYear (ye + 2)).
  { unfold JS.DayFromYear, ye. Z.div_mod_to_equations. lia. }
  replace (ye + 2) with (ye + 1 + 1) in Hhi by lia.
  destruct (Z.ltb_spec d (JS.DayFromYear ye)).
  - replace (ye - 1 + 1) with ye by lia. lia.
  - destruct (Z.leb_spec (JS.DayFromYear (ye + 1)) d); lia.
Qed.

Lemma twelve_months (m : Z) :
  1 <= m <= 12 ->
  m = 1 \/ m = 2 \/ m = 3 \/ m = 4 \/ m = 5 \/ m = 6 \/ m = 7 \/ m = 8
  \/ m = 9 \/ m = 10 \/ m = 11 \/ m = 12.
Proof. lia. Qed.

Ltac split_ltb :=
  repeat match goal with
         | |- context [?a <? ?b] => destruct (Z.ltb_spec a b); try lia
         end.

(** A time value on day [d] of month [m] of year [y] is read back as that
    year and that month (counted from [0]). *)
Lemma MonthFromTime_of_day (t y m d : Z) :
  Day t = JS.DayFromYear y + JS.DayWithinYear y m + (d - 1) ->
  1 <= m <= 12 -> 1 <= d <= JS.DaysInMonth y m ->
  YearFromTime t = y /\ MonthFromTime t = m - 1.
Proof.
  intros HD Hm Hd.
  pose proof (DayFromYear_step y) as Hstep.
  assert (Hy : YearFromTime t = y).
  { unfold YearFromTime. apply YearFromDay_unique. rewrite HD, Hstep.
    unfold JS.DayWithinYear, JS.DaysInMonth in *.
    destruct (twelve_months m Hm)
      as [-> | [-> | [-> | [-> | [-> | [-> | [-> | [-> | [-> | [-> | [-> | ->]]]]]]]]]]];
      cbn [Z.eqb Pos.eqb orb] in Hd; destruct (JS.isLeapYear y); lia. }
  split; [exact Hy |].
  unfold MonthFromTime. rewrite Hy, HD.
  unfold JS.DayWithinYear, JS.DaysInMonth in *.
  destruct (twelve_months m Hm)
    as [-> | [-> | [-> | [-> | [-> | [-> | [-> | [-> | [-> | [-> | [-> | ->]]]]]]]]]]];
    cbn [Z.eqb Pos.eqb orb] in Hd; destruct (JS.isLeapYear y);
    split_ltb; lia.
Qed.

Lemma MakeDate_inv (y m d t : Z) :
  JS.MakeDate y m d = Some t ->
  1 <= m <= 12 /\ 1 <= d <= JS.DaysInMonth y m
  /\ t = (JS.DayFromYear y + JS.DayWithinYear y m + (d - 1)) * JS.msPerDay.
Proof.
  unfold JS.MakeDate.
  destruct (Z.leb_spec 1 m), (Z.leb_spec m 12), (Z.leb_spec 1 d),
           (Z.leb_spec d (JS.DaysInMonth y m));
    cbn [andb]; try discriminate.
  intros [= <-]. repeat split; assumption.
Qed.

Lemma Day_offset (D off : Z) :
  0 <= off < JS.msPerDay -> Day (D * JS.msPerDay + off) = D.
Proof.
  unfold Day, JS.msPerDay. intros H. Z.div_mod_to_equations. lia.
Qed.

Lemma Day_offset_back (D off : Z) :
  - JS.msPerDay <= off < 0 -> Day (D * JS.msPerDay + off) = D - 1.
Proof.
  unfold Day, JS.msPerDay. intros H. Z.div_mod_to_equations. lia.
Qed.

(** In a zone at or east of Greenwich the local year and month of a
    date-only text are those written in it. *)
Lemma local_month_east (y m d t off : Z) :
  JS.MakeDate y m d = Some t -> 0 <= off < JS.msPerDay ->
  YearFromTime (t + off) = y /\ MonthFromTime (t + off) = m - 1.
Proof.
  intros Hmk Hoff.
  destruct (MakeDate_inv y m d t Hmk) as [Hm [Hd ->]].
  apply (MonthFromTime_of_day _ y m d); [| assumption | assumption].
  apply Day_offset, Hoff.
Qed.

(** West of Greenwich, UTC midnight is still the day before: the first of
    a month is read as the month before, any later day as its own month. *)
Lemma local_month_west (y m d t off : Z) :
  JS.MakeDate y m d = Some t -> - JS.msPerDay <= off < 0 ->
  (d = 1 ->
   YearFromTime (t + off) = (if m =? 1 then y - 1 else y)
   /\ MonthFromTime (t + off) = (if m =? 1 then 11 else m - 2))
  /\ (2 <= d ->
      YearFromTime (t + off) = y /\ MonthFromTime (t + off) = m - 1).
Proof.
  intros Hmk Hoff.
  destruct (MakeDate_inv y m d t Hmk) as [Hm [Hd ->]].
  pose proof (Day_offset_back
                (JS.DayFromYear y + JS.DayWithinYear y m + (d - 1)) off Hoff) as HD.
  split.
  - intros ->.
    destruct (Z.eqb_spec m 1) as [-> | Hne].
    + replace 11 with (12 - 1) by lia.
      apply (MonthFromTime_of_day _ (y - 1) 12 31); [| lia | cbn; lia].
      rewrite HD. pose proof (DayFromYear_step (y - 1)) as Hs.
      replace (y - 1 + 1) with y in Hs by lia.
      unfold JS.DayWithinYear. destruct (JS.isLeapYear (y - 1)); lia.
    + replace (m - 2) with (m - 1 - 1) by lia.
      apply (MonthFromTime_of_day _ y (m - 1) (JS.DaysInMonth y (m - 1)));
        [| lia |].
      * rewrite HD. unfold JS.DayWithinYear, JS.DaysInMonth.
        destruct (twelve_months m Hm)
          as [-> | [-> | [-> | [-> | [-> | [-> | [-> | [-> | [-> | [-> | [-> | ->]]]]]]]]]]];
          try lia; cbn [Z.sub Z.add Z.opp Z.pos_sub Pos.pred_double
                        Z.eqb Pos.eqb orb Z.succ_double Z.pred_double Z.double];
          destruct (JS.isLeapYear y); lia.
      * unfold JS.DaysInMonth.
        destruct (m - 1 =? 2); [destruct (JS.isLeapYear y); lia |].
        destruct ((m - 1 =? 4) || (m - 1 =? 6) || (m - 1 =? 9) || (m - 1 =? 11));
          lia.
  - intros Hd2.
    apply (MonthFromTime_of_day _ y m (d - 1)); [| assumption | lia].
    rewrite HD. lia.
Qed.

Lemma In_monthBatches (LocalTZA : Z -> Z) (calculated : list CalculatedBatch)
    (year month : Z) (c : CalculatedBatch) :
  In c (monthBatches LocalTZA calculated year month)
  <-> In c calculated
      /\ exists t, JS.Date_getTime (startDate (batch c)) = Some t
                   /\ YearFromTime (LocalTime LocalTZA t) = year
                   /\ MonthFromTime (LocalTime LocalTZA t) = month.
Proof.
  unfold monthBatches, getFullYear, getMonth. rewrite filter_In.
  destruct (JS.Date_getTime (startDate (batch c))) as [t |]; simpl.
  - rewrite andb_true_iff, !Z.eqb_eq. split.
    + intros [Hin [Hy Hm]]. split; [exact Hin |]. exists t. auto.
    + intros [Hin [t' [[= <-] [Hy Hm]]]]. auto.
  - split; [intros [_ H]; discriminate |].
    intros [_ [t [H _]]]. discriminate.
Qed.

Lemma monthBatches_local (LocalTZA : Z -> Z) (calculated : list CalculatedBatch)
    (c : CalculatedBatch) (t year month y' m' : Z) :
  In c calculated ->
  JS.Date_getTime (startDate (batch c)) = Some t ->
  YearFromTime (LocalTime LocalTZA t) = y' ->
  MonthFromTime (LocalTime LocalTZA t) = m' ->
  (In c (monthBatches LocalTZA calculated year month)
   <-> year = y' /\ month = m').
Proof.
  intros Hin Ht Hy Hm. rewrite In_monthBatches. split.
  - intros [_ [t' [Ht' [Hy' Hm']]]].
    rewrite Ht in Ht'. injection Ht' as <-. split; congruence.
  - intros [-> ->]. split; [exact Hin |]. exists t. auto.
Qed.

(** The monthly report files a batch under the local month of the UTC
    midnight of its start date.  At or east of Greenwich that is the month
    written in the start date.  West of Greenwich a batch that starts on the
    first of a month is filed under the month before (December of the year
    before, for the first of January); a later day is under its own month. *)
Theorem monthBatches_zone (LocalTZA : Z -> Z) (calculated : list CalculatedBatch)
    (c : CalculatedBatch) (y m d t year month : Z) :
  In c calculated ->
  JS.Date_getTime (startDate (batch c)) = Some t ->
  JS.MakeDate y m d = Some t ->
  (0 <= LocalTZA t < JS.msPerDay ->
   (In c (monthBatches LocalTZA calculated year month)
    <-> year = y /\ month = m - 1))
  /\ (- JS.msPerDay <= LocalTZA t < 0 -> d = 1 ->
      (In c (monthBatches LocalTZA calculated year month)
       <-> year = (if m =? 1 then y - 1 else y)
           /\ month = (if m =? 1 then 11 else m - 2)))
  /\ (- JS.msPerDay <= LocalTZA t < 0 -> 2 <= d ->
      (In c (monthBatches LocalTZA calculated year month)
       <-> year = y /\ month = m - 1)).
Proof.
  intros Hin Ht Hmk.
  pose proof (fun y' m' =>
                monthBatches_local LocalTZA calculated c t year month y' m'
                  Hin Ht) as Hiff.
  unfold LocalTime in Hiff.
  split; [| split].
  - intros Hoff.
    destruct (local_month_east y m d t (LocalTZA t) Hmk Hoff) as [Hy Hm].
    apply Hiff; assumption.
  - intros Hoff Hd.
    destruct (local_month_west y m d t (LocalTZA t) Hmk Hoff) as [H1 _].
    destruct (H1 Hd) as [Hy Hm]. apply Hiff; assumption.
  - intros Hoff Hd.
    destruct (local_month_west y m d t (LocalTZA t) Hmk Hoff) as [_ H2].
    destruct (H2 Hd) as [Hy Hm]. apply Hiff; assumption.
Qed.

Lemma monthBatches_zone_witness :
  (In (deriveBatch (hd (mkBatch "" None "" 0 "" "" 0 InProgress None None)
                      (batches seededState)))
      (monthBatches (fun _ => 19800000)
         (calculatedBatches (batches seededState)) 2023 9)
   <-> 2023 = 2023 /\ 9 = 10 - 1)
  /\ (In (deriveBatch (hd (mkBatch "" None "" 0 "" "" 0 InProgress None None)
                         (batches seededState)))
         (monthBatches (fun _ => -18000000)
            (calculatedBatches (batches seededState)) 2023 8)
      <-> 2023 = (if 10 =? 1 then 2023 - 1 else 2023)
          /\ 8 = (if 10 =? 1 then 11 else 10 - 2)).
Proof.
  assert (Hin : In (deriveBatch (hd (mkBatch "" None "" 0 "" "" 0 InProgress None None)
                                   (batches seededState)))
                   (calculatedBatches (batches seededState)))
    by (apply In_calculatedBatches; left; reflexivity).
  assert (Ht : JS.Date_getTime "2023-10-01" = Some 1696118400000) by reflexivity.
  assert (Hmk : JS.MakeDate 2023 10 1 = Some 1696118400000) by reflexivity.
  split.
  - destruct (monthBatches_zone (fun _ => 19800000) _ _ 2023 10 1 1696118400000
                2023 9 Hin Ht Hmk) as [Heast _].
    apply Heast. unfold JS.msPerDay. lia.
  - destruct (monthBatches_zone (fun _ => -18000000) _ _ 2023 10 1 1696118400000
                2023 8 Hin Ht Hmk) as [_ [Hwest _]].
    apply Hwest; [unfold JS.msPerDay; lia | reflexivity].
Defined.

Lemma filter_filter_comm {A} (p q : A -> bool) (l : list A) :
  filter p (filter q l) = filter q (filter p l).
Proof.
  induction l as [| a r IH]; [reflexivity |].
  simpl. destruct (q a) eqn:Eq, (p a) eqn:Ep; simpl; rewrite ?Eq, ?Ep, IH;
    reflexivity.
Qed.

(** A batch without a valid start date is in the report of no month,
    whatever the zone; a batch with one is in the report of exactly one
    month.  A report lists its batches in the order of the projection. *)
Theorem monthBatches_one_month (LocalTZA : Z -> Z)
    (calculated : list CalculatedBatch) (c : CalculatedBatch) :
  In c calculated ->
  (time c = None ->
   forall year month, ~ In c (monthBatches LocalTZA calculated year month))
  /\ (time c <> None ->
      exists year month,
        forall year' month',
          In c (monthBatches LocalTZA calculated year' month')
          <-> year' = year /\ month' = month)
  /\ (forall year month t,
        filter (startsAt t) (monthBatches LocalTZA calculated year month)
        = monthBatches LocalTZA (filter (startsAt t) calculated) year month).
Proof.
  intros Hin. unfold time. split; [| split].
  - intros Hnone year month H. apply In_monthBatches in H.
    destruct H as [_ [t [Ht _]]]. congruence.
  - intros Hsome.
    destruct (JS.Date_getTime (startDate (batch c))) as [t |] eqn:Et;
      [| congruence].
    exists (YearFromTime (LocalTime LocalTZA t)),
           (MonthFromTime (LocalTime LocalTZA t)).
    intros year' month'. rewrite In_monthBatches. split.
    + intros [_ [t' [Ht' [Hy Hm]]]]. rewrite Et in Ht'. injection Ht' as <-.
      split; congruence.
    + intros [-> ->]. split; [exact Hin |]. exists t. auto.
  - intros year month t. unfold monthBatches. apply filter_filter_comm.
Qed.

Lemma monthBatches_one_month_witness :
  ~ In (deriveBatch (nth 1 undatedInput
                       (mkBatch "" None "" 0 "" "" 0 InProgress None None)))
       (monthBatches (fun _ => 0) (calculatedBatches undatedInput) 2023 0).
Proof.
  assert (Hin : In (deriveBatch (nth 1 undatedInput
                         (mkBatch "" None "" 0 "" "" 0 InProgress None None)))
                   (calculatedBatches undatedInput))
    by (apply In_calculatedBatches; right; left; reflexivity).
  destruct (monthBatches_one_month (fun _ => 0) _ _ Hin) as [Hnone _].
  exact (Hnone eq_refl 2023 0).
Defined.

(** ** The calendar *)

Lemma Map_get_push (m : DateMap) (key k : string) (b : CalculatedBatch) :
  Map_get (Map_push m key b) k
  = if (k =? key)%string
    then option_map (fun l => l ++ [b]) (Map_get m k)
    else Map_get m k.
Proof.
  unfold Map_get, Map_push.
  induction m as [| [k0 v0] r IH]; simpl.
  - destruct (k =? key)%string; reflexivity.
  - destruct (String.eqb_spec k0 key) as [-> | Hne]; simpl.
    + destruct (String.eqb_spec key k) as [<- | Hk]; simpl.
      * rewrite String.eqb_refl. reflexivity.
      * exact IH.
    + destruct (String.eqb_spec k0 k) as [-> | Hk]; simpl.
      * apply String.eqb_neq in Hne. rewrite Hne. reflexivity.
      * exact IH.
Qed.

Lemma Map_has_get (m : DateMap) (key : string) :
  Map_has m key = match Map_get m key with Some _ => true | None => false end.
Proof.
  unfold Map_has, Map_get.
  induction m as [| [k0 v0] r IH]; simpl; [reflexivity |].
  destruct (k0 =? key)%string; simpl; [reflexivity | exact IH].
Qed.

Lemma Map_get_set_new (m : DateMap) (key k : string) (v : list CalculatedBatch) :
  Map_has m key = false ->
  Map_get (Map_set m key v) k
  = if (k =? key)%string then Some v else Map_get m k.
Proof.
  intros Hno. unfold Map_set. rewrite Hno.
  unfold Map_get, Map_has in *.
  induction m as [| [k0 v0] r IH]; simpl in *.
  - rewrite String.eqb_sym. destruct (k =? key)%string; reflexivity.
  - apply orb_false_iff in Hno. destruct Hno as [Hk0 Hr].
    destruct (String.eqb_spec k0 k) as [-> | Hk]; simpl.
    + rewrite Hk0. reflexivity.
    + apply IH, Hr.
Qed.

Lemma Map_get_addToCalendar (LocalTZA : Z -> Z) (year month : Z)
    (m : DateMap) (b : CalculatedBatch) (k : string) :
  Map_get (addToCalendar LocalTZA year month m b) k
  = extend (Map_get m k)
      (filter (fun c => (startDate (batch c) =? k)%string)
         (monthBatches LocalTZA [b] year month)).
Proof.
  unfold addToCalendar, monthBatches. cbn [filter].
  destruct (strictEquals (getFullYear LocalTZA (startDate (batch b))) year
            && strictEquals (getMonth LocalTZA (startDate (batch b))) month);
    [| reflexivity].
  cbn [filter]. rewrite Map_get_push.
  rewrite (String.eqb_sym (startDate (batch b)) k).
  destruct (String.eqb_spec k (startDate (batch b))) as [-> | Hne].
  - destruct (Map_has m (startDate (batch b))) eqn:Hh; cbn [negb].
    + rewrite Map_has_get in Hh.
      destruct (Map_get m (startDate (batch b))); [reflexivity | discriminate].
    + rewrite Map_get_set_new by exact Hh. rewrite String.eqb_refl.
      rewrite Map_has_get in Hh.
      destruct (Map_get m (startDate (batch b))); [discriminate | reflexivity].
  - destruct (Map_has m (startDate (batch b))) eqn:Hh; cbn [negb extend].
    + reflexivity.
    + rewrite Map_get_set_new by exact Hh.
      apply String.eqb_neq in Hne. rewrite Hne. reflexivity.
Qed.

Lemma extend_app (o : option (list CalculatedBatch)) (l1 l2 : list CalculatedBatch) :
  extend (extend o l1) l2 = extend o (l1 ++ l2).
Proof.
  destruct l1 as [| a r1], l2 as [| b r2]; simpl; try reflexivity.
  - rewrite app_nil_r. reflexivity.
  - destruct o; simpl; rewrite <- ?app_assoc; reflexivity.
Qed.

Lemma Map_get_batchesByDate_from (LocalTZA : Z -> Z) (year month : Z)
    (batches : list CalculatedBatch) (m : DateMap) (k : string) :
  Map_get (fold_left (addToCalendar LocalTZA year month) batches m) k
  = extend (Map_get m k)
      (filter (fun c => (startDate (batch c) =? k)%string)
         (monthBatches LocalTZA batches year month)).
Proof.
  revert m. induction batches as [| b r IH]; intros m; [reflexivity |].
  cbn [fold_left]. rewrite IH, Map_get_addToCalendar, extend_app.
  f_equal. unfold monthBatches. cbn [filter].
  destruct (strictEquals (getFullYear LocalTZA (startDate (batch b))) year
            && strictEquals (getMonth LocalTZA (startDate (batch b))) month);
    [| reflexivity].
  cbn [filter app].
  destruct (startDate (batch b) =? k)%string; reflexivity.
Qed.

(** The batches of a day cell are the batches of the month view whose start
    date is written as the key of the cell, in the order they came in. *)
Lemma dayBatches_filter (LocalTZA : Z -> Z) (year month : Z)
    (batches : list CalculatedBatch) (day : Z) :
  dayBatches LocalTZA year month batches day
  = filter (fun c => (startDate (batch c) =? dateString year month day)%string)
      (monthBatches LocalTZA batches year month).
Proof.
  unfold dayBatches, batchesByDate.
  rewrite Map_get_batchesByDate_from. cbn [Map_get find option_map].
  destruct (filter _ _); reflexivity.
Qed.

Lemma range_forallb (P : Z -> bool) (lo : Z) (len : nat) :
  forallb (fun i => P (lo + Z.of_nat i)) (seq 0 len) = true ->
  forall n, lo <= n < lo + Z.of_nat len -> P n = true.
Proof.
  intros H n Hn. rewrite forallb_forall in H.
  specialize (H (Z.to_nat (n - lo))).
  replace (lo + Z.of_nat (Z.to_nat (n - lo))) with n in H by lia.
  apply H. apply in_seq. lia.
Qed.

Ltac ten_cases k :=
  assert (k = 0 \/ k = 1 \/ k = 2 \/ k = 3 \/ k = 4 \/ k = 5 \/ k = 6 \/ k = 7
          \/ k = 8 \/ k = 9)
    as [-> | [-> | [-> | [-> | [-> | [-> | [-> | [-> | [-> | ->]]]]]]]]] by lia.

Lemma of_lu_digitUint (k : Z) (t : Decimal.uint) :
  0 <= k <= 9 ->
  DecimalPos.Unsigned.of_lu (digitUint k t)
  = (Z.to_N k + 10 * DecimalPos.Unsigned.of_lu t)%N.
Proof. intros H. ten_cases k; reflexivity. Qed.

Lemma revapp_digitUint (k : Z) (t acc : Decimal.uint) :
  Decimal.revapp (digitUint k t) acc = Decimal.revapp t (digitUint k acc).
Proof.
  unfold digitUint.
  destruct k as [| [[[[]|[]|]|[[]|[]|]|]|[[[]|[]|]|[[]|[]|]|]|] |]; reflexivity.
Qed.

Lemma unorm_digitUint (k : Z) (t : Decimal.uint) :
  1 <= k <= 9 -> Decimal.unorm (digitUint k t) = digitUint k t.
Proof. intros H. ten_cases k; try lia; reflexivity. Qed.

Lemma string_of_digitUint (k : Z) (t : Decimal.uint) :
  0 <= k <= 9 ->
  NilEmpty.string_of_uint (digitUint k t)
  = String (digitChar k) (NilEmpty.string_of_uint t).
Proof. intros H. ten_cases k; reflexivity. Qed.

(** A number of four digits is printed as its four digits. *)
Lemma Number_toString_digits (a b c d : Z) :
  1 <= a <= 9 -> 0 <= b <= 9 -> 0 <= c <= 9 -> 0 <= d <= 9 ->
  JS.Number_toString (1000 * a + 100 * b + 10 * c + d)
  = String (digitChar a) (String (digitChar b) (String (digitChar c)
      (String (digitChar d) EmptyString))).
Proof.
  intros Ha Hb Hc Hd.
  set (u := digitUint a (digitUint b (digitUint c (digitUint d Decimal.Nil)))).
  assert (Hof : Z.of_int (Decimal.Pos u) = 1000 * a + 100 * b + 10 * c + d).
  { cbn [Z.of_int]. unfold Z.of_uint.
    replace u with (Decimal.rev (digitUint d (digitUint c (digitUint b
                                   (digitUint a Decimal.Nil))))).
    - rewrite DecimalPos.Unsigned.of_lu_rev.
      rewrite !of_lu_digitUint by lia. cbn [DecimalPos.Unsigned.of_lu].
      rewrite !N2Z.inj_add, !N2Z.inj_mul, !Z2N.id by lia. cbn [Z.of_N]. lia.
    - unfold Decimal.rev. rewrite !revapp_digitUint. reflexivity. }
  unfold JS.Number_toString. rewrite <- Hof, DecimalZ.to_of.
  cbn [Decimal.norm]. unfold u at 1. rewrite unorm_digitUint by assumption.
  assert (Hs : NilZero.string_of_int (Decimal.Pos u) = NilEmpty.string_of_uint u).
  { cbn [NilZero.string_of_int]. unfold NilZero.string_of_uint, u.
    ten_cases a; try lia; reflexivity. }
  fold u. rewrite Hs. unfold u. rewrite !string_of_digitUint by lia. reflexivity.
Qed.

Lemma Number_toString_four (n : Z) :
  1000 <= n <= 9999 ->
  JS.Number_toString n
  = String (digitChar (n / 1000))
      (String (digitChar (n / 100 mod 10))
         (String (digitChar (n / 10 mod 10))
            (String (digitChar (n mod 10)) EmptyString))).
Proof.
  intros Hn.
  rewrite <- Number_toString_digits by (Z.div_mod_to_equations; lia).
  f_equal. Z.div_mod_to_equations. lia.
Qed.

Lemma padStart2_two (n : Z) :
  1 <= n <= 99 ->
  padStart2 (JS.Number_toString n)
  = String (digitChar (n / 10)) (String (digitChar (n mod 10)) EmptyString).
Proof.
  intros Hn. apply String.eqb_eq.
  apply (range_forallb
           (fun n => (padStart2 (JS.Number_toString n)
                      =? String (digitChar (n / 10))
                           (String (digitChar (n mod 10)) EmptyString))%string)
           1 99); [vm_compute; reflexivity | lia].
Qed.

Lemma digit_digitChar (k : Z) : 0 <= k <= 9 -> JS.digit (digitChar k) = Some k.
Proof.
  intros Hk.
  assert (k = 0 \/ k = 1 \/ k = 2 \/ k = 3 \/ k = 4 \/ k = 5 \/ k = 6 \/ k = 7
          \/ k = 8 \/ k = 9) as [-> | [-> | [-> | [-> | [-> | [-> | [-> | [-> | [-> | ->]]]]]]]]]
    by lia; reflexivity.
Qed.

Lemma digit_inv (c : ascii) (k : Z) :
  JS.digit c = Some k -> c = digitChar k /\ 0 <= k <= 9.
Proof.
  destruct c as [[] [] [] [] [] [] [] []]; cbv; intros [= <-];
    split; (reflexivity || (split; discriminate)).
Qed.

(** The key of a day cell, read as a date, is that day. *)
Lemma Date_getTime_dateString (year month day : Z) :
  1000 <= year <= 9999 -> 0 <= month <= 98 -> 1 <= day <= 99 ->
  JS.Date_getTime (dateString year month day)
  = JS.MakeDate year (month + 1) day.
Proof.
  intros Hy Hm Hd. unfold dateString.
  rewrite (Number_toString_four year Hy).
  rewrite (padStart2_two (month + 1)) by lia.
  rewrite (padStart2_two day Hd).
  cbn [String.append JS.Date_getTime].
  rewrite !digit_digitChar by (Z.div_mod_to_equations; lia).
  f_equal; Z.div_mod_to_equations; lia.
Qed.

Lemma MakeDate_inj (y m d y' m' d' t : Z) :
  JS.MakeDate y m d = Some t -> JS.MakeDate y' m' d' = Some t ->
  y = y' /\ m = m' /\ d = d'.
Proof.
  intros H H'.
  assert (Hz : 0 <= 0 < JS.msPerDay) by (unfold JS.msPerDay; lia).
  destruct (local_month_east y m d t 0 H Hz) as [Hy Hm].
  destruct (local_month_east y' m' d' t 0 H' Hz) as [Hy' Hm'].
  assert (Ey : y = y') by congruence.
  assert (Em : m - 1 = m' - 1) by congruence.
  assert (Em' : m = m') by (clear - Em; lia).
  clear Hy Hy' Hm Hm' Em. subst y' m'.
  destruct (MakeDate_inv _ _ _ _ H) as [_ [_ E]].
  destruct (MakeDate_inv _ _ _ _ H') as [_ [_ E']].
  rewrite E in E'. unfold JS.msPerDay in E'.
  repeat split; try reflexivity. clear - E'. lia.
Qed.

Lemma Date_getTime_shape (s : string) (t : Z) :
  JS.Date_getTime s = Some t ->
  exists y1 y2 y3 y4 m1 m2 d1 d2,
    s = String y1 (String y2 (String y3 (String y4 (String "-"
          (String m1 (String m2 (String "-"
          (String d1 (String d2 EmptyString))))))))).
Proof.
  destruct s as [| y1 [| y2 [| y3 [| y4 [| c5 [| m1 [| m2 [| c8 [| d1 [| d2 [| x r]]]]]]]]]]];
    try discriminate;
    destruct c5 as [[] [] [] [] [] [] [] []]; try discriminate;
    destruct c8 as [[] [] [] [] [] [] [] []]; try discriminate.
  intros _. exists y1, y2, y3, y4, m1, m2, d1, d2. reflexivity.
Qed.

(** A valid start date is the key of the day cell of its day, in the month
    view of its month, when its year has four digits without a leading
    zero. *)
Lemma Date_getTime_format (s : string) (y m d t : Z) :
  JS.Date_getTime s = Some t -> JS.MakeDate y m d = Some t ->
  1000 <= y -> s = dateString y (m - 1) d.
Proof.
  intros Hs Hmk Hy.
  destruct (Date_getTime_shape s t Hs)
    as [y1 [y2 [y3 [y4 [m1 [m2 [d1 [d2 ->]]]]]]]].
  cbn [JS.Date_getTime] in Hs.
  destruct (JS.digit y1) as [a |] eqn:E1; [| discriminate].
  destruct (JS.digit y2) as [b |] eqn:E2; [| discriminate].
  destruct (JS.digit y3) as [c |] eqn:E3; [| discriminate].
  destruct (JS.digit y4) as [e |] eqn:E4; [| discriminate].
  destruct (JS.digit m1) as [f |] eqn:E5; [| discriminate].
  destruct (JS.digit m2) as [g |] eqn:E6; [| discriminate].
  destruct (JS.digit d1) as [h |] eqn:E7; [| discriminate].
  destruct (JS.digit d2) as [i |] eqn:E8; [| discriminate].
  apply digit_inv in E1, E2, E3, E4, E5, E6, E7, E8.
  destruct E1 as [-> Ha], E2 as [-> Hb], E3 as [-> Hc], E4 as [-> He],
           E5 as [-> Hf], E6 as [-> Hg], E7 as [-> Hh], E8 as [-> Hi].
  destruct (MakeDate_inj _ _ _ _ _ _ _ Hmk Hs) as [-> [-> ->]].
  destruct (MakeDate_inv _ _ _ _ Hs) as [Hm [Hd _]].
  assert (Hd31 : JS.DaysInMonth (1000 * a + 100 * b + 10 * c + e) (10 * f + g)
                 <= 31).
  { unfold JS.DaysInMonth.
    destruct (10 * f + g =? 2); [destruct (JS.isLeapYear _); lia |].
    destruct ((10 * f + g =? 4) || (10 * f + g =? 6) || (10 * f + g =? 9)
              || (10 * f + g =? 11)); lia. }
  unfold dateString.
  rewrite Number_toString_digits by lia.
  rewrite !padStart2_two by lia.
  cbn [String.append].
  replace (10 * f + g - 1 + 1) with (10 * f + g) by lia.
  repeat f_equal; Z.div_mod_to_equations; lia.
Qed.

Lemma dayBatches_own_cell (LocalTZA : Z -> Z) (batches : list CalculatedBatch)
    (c : CalculatedBatch) (y m d t : Z) :
  In c batches ->
  JS.Date_getTime (startDate (batch c)) = Some t ->
  JS.MakeDate y m d = Some t ->
  1000 <= y ->
  0 <= LocalTZA t < JS.msPerDay ->
  In c (dayBatches LocalTZA y (m - 1) batches d).
Proof.
  intros Hin Ht Hmk Hy Hoff.
  destruct (local_month_east y m d t (LocalTZA t) Hmk Hoff) as [Hly Hlm].
  rewrite dayBatches_filter. apply filter_In. split.
  - apply (monthBatches_local LocalTZA batches c t y (m - 1) y (m - 1) Hin Ht
             Hly Hlm).
    split; reflexivity.
  - apply String.eqb_eq. apply (Date_getTime_format _ y m d t); assumption.
Qed.

Lemma dayBatches_no_other_cell (LocalTZA : Z -> Z)
    (batches : list CalculatedBatch) (c : CalculatedBatch)
    (y m d t year month day : Z) :
  JS.Date_getTime (startDate (batch c)) = Some t ->
  JS.MakeDate y m d = Some t ->
  0 <= LocalTZA t < JS.msPerDay ->
  1000 <= year <= 9999 -> 0 <= month <= 11 -> 1 <= day <= 31 ->
  In c (dayBatches LocalTZA year month batches day) ->
  year = y /\ month = m - 1 /\ day = d.
Proof.
  intros Ht Hmk Hoff Hyear Hmonth Hday Hc.
  destruct (local_month_east y m d t (LocalTZA t) Hmk Hoff) as [Hly Hlm].
  rewrite dayBatches_filter in Hc. apply filter_In in Hc.
  destruct Hc as [Hmb Hkey]. apply String.eqb_eq in Hkey.
  assert (Hin : In c batches).
  { unfold monthBatches in Hmb. apply filter_In in Hmb. tauto. }
  apply (monthBatches_local LocalTZA batches c t year month y (m - 1) Hin Ht
           Hly Hlm) in Hmb.
  destruct Hmb as [-> ->].
  split; [reflexivity |]. split; [reflexivity |].
  rewrite Hkey in Ht.
  rewrite Date_getTime_dateString in Ht by lia.
  destruct (MakeDate_inj _ _ _ _ _ _ _ Ht Hmk) as [_ [_ Hd]]. exact Hd.
Qed.

(** In a zone at or east of Greenwich a batch with a valid start date, of a
    year from 1000 on, is listed on the calendar in the cell of its start
    date, in the view of its month, and in no other day cell of a view of
    the years 1000 to 9999. *)
Theorem calendar_east (LocalTZA : Z -> Z) (batches : list CalculatedBatch)
    (c : CalculatedBatch) (y m d t : Z) :
  In c batches ->
  JS.Date_getTime (startDate (batch c)) = Some t ->
  JS.MakeDate y m d = Some t ->
  1000 <= y ->
  0 <= LocalTZA t < JS.msPerDay ->
  In c (dayBatches LocalTZA y (m - 1) batches d)
  /\ forall year month day,
       1000 <= year <= 9999 -> 0 <= month <= 11 -> 1 <= day <= 31 ->
       In c (dayBatches LocalTZA year month batches day) ->
       year = y /\ month = m - 1 /\ day = d.
Proof.
  intros Hin Ht Hmk Hy Hoff.
  split.
  - apply (dayBatches_own_cell LocalTZA batches c y m d t); assumption.
  - intros year month day Hyear Hmonth Hday Hc.
    apply (dayBatches_no_other_cell LocalTZA batches c y m d t year month day);
      assumption.
Qed.

(** West of Greenwich a batch that starts on the first of a month is listed
    in no day cell of any view of the years 1000 to 9999: the view of its
    own month leaves it out, and the view of the month before has no cell
    for its date. *)
Theorem calendar_west (LocalTZA : Z -> Z) (batches : list CalculatedBatch)
    (c : CalculatedBatch) (y m t : Z) :
  JS.Date_getTime (startDate (batch c)) = Some t ->
  JS.MakeDate y m 1 = Some t ->
  - JS.msPerDay <= LocalTZA t < 0 ->
  forall year month day,
    1000 <= year <= 9999 -> 0 <= month <= 11 -> 1 <= day <= 31 ->
    ~ In c (dayBatches LocalTZA year month batches day).
Proof.
  intros Ht Hmk Hoff year month day Hyear Hmonth Hday Hc.
  rewrite dayBatches_filter in Hc. apply filter_In in Hc.
  destruct Hc as [Hmb Hkey]. apply String.eqb_eq in Hkey.
  assert (Hin : In c batches).
  { unfold monthBatches in Hmb. apply filter_In in Hmb. tauto. }
  destruct (local_month_west y m 1 t (LocalTZA t) Hmk Hoff) as [Hfirst _].
  destruct (Hfirst eq_refl) as [Hly Hlm].
  apply (monthBatches_local LocalTZA batches c t year month _ _ Hin Ht Hly Hlm)
    in Hmb.
  destruct Hmb as [Hy Hm].
  rewrite Hkey in Ht. rewrite Date_getTime_dateString in Ht by lia.
  destruct (MakeDate_inj _ _ _ _ _ _ _ Ht Hmk) as [_ [Hm' _]].
  destruct (MakeDate_inv _ _ _ _ Hmk) as [Hmr _].
  destruct (Z.eqb_spec m 1); lia.
Qed.

Lemma calendar_east_witness :
  In (deriveBatch (hd (mkBatch "" None "" 0 "" "" 0 InProgress None None)
                     (batches seededState)))
     (dayBatches (fun _ => 19800000) 2023 (10 - 1)
        (calculatedBatches (batches seededState)) 1).
Proof.
  assert (Hin : In (deriveBatch (hd (mkBatch "" None "" 0 "" "" 0 InProgress None None)
                                   (batches seededState)))
                   (calculatedBatches (batches seededState)))
    by (apply In_calculatedBatches; left; reflexivity).
  assert (Ht : JS.Date_getTime "2023-10-01" = Some 1696118400000) by reflexivity.
  assert (Hmk : JS.MakeDate 2023 10 1 = Some 1696118400000) by reflexivity.
  destruct (calendar_east (fun _ => 19800000) _ _ 2023 10 1 1696118400000
              Hin Ht Hmk) as [Hcell _]; [lia | unfold JS.msPerDay; lia |].
  exact Hcell.
Defined.

Lemma calendar_west_witness :
  ~ In (deriveBatch (hd (mkBatch "" None "" 0 "" "" 0 InProgress None None)
                       (batches seededState)))
       (dayBatches (fun _ => -18000000) 2023 9
          (calculatedBatches (batches seededState)) 1).
Proof.
  assert (Ht : JS.Date_getTime "2023-10-01" = Some 1696118400000) by reflexivity.
  assert (Hmk : JS.MakeDate 2023 10 1 = Some 1696118400000) by reflexivity.
  apply (calendar_west (fun _ => -18000000)
           (calculatedBatches (batches seededState))
           (deriveBatch (hd (mkBatch "" None "" 0 "" "" 0 InProgress None None)
                           (batches seededState)))
           2023 10 1696118400000 Ht Hmk); unfold JS.msPerDay; lia.
Defined.

(** In a zone at or east of Greenwich, the month view of a batch's start
    date has a day cell for the day of that date, and the batch is among the
    batches of that cell: it is one of the two at most that the cell shows,
    or the cell says that there are more.  What a cell shows and what it
    counts as more add up to the batches of its day, and no cell of another
    day of the view shows the batch. *)
Theorem dayCells_east (LocalTZA : Z -> Z) (batches : list CalculatedBatch)
    (c : CalculatedBatch) (y m d t : Z) :
  In c batches ->
  JS.Date_getTime (startDate (batch c)) = Some t ->
  JS.MakeDate y m d = Some t ->
  1000 <= y <= 9999 ->
  0 <= LocalTZA t < JS.msPerDay ->
  (exists cell,
     In cell (dayCells LocalTZA y (m - 1) batches)
     /\ cell_day cell = d
     /\ (In c (cell_shown cell)
         \/ exists k, cell_more cell = Some k /\ (0 < k)%nat))
  /\ (forall cell, In cell (dayCells LocalTZA y (m - 1) batches) ->
        (List.length (cell_shown cell) <= 2)%nat
        /\ (List.length (cell_shown cell)
            + match cell_more cell with Some k => k | None => 0%nat end
            = List.length (dayBatches LocalTZA y (m - 1) batches (cell_day cell)))%nat
        /\ (In c (cell_shown cell) -> cell_day cell = d)).
Proof.
  intros Hin Ht Hmk Hy Hoff.
  destruct (MakeDate_inv y m d t Hmk) as [Hm [Hd _]].
  assert (Hdim : forall mm, 28 <= JS.DaysInMonth y mm <= 31).
  { intros mm. unfold JS.DaysInMonth.
    destruct (mm =? 2); [destruct (JS.isLeapYear y); lia |].
    destruct ((mm =? 4) || (mm =? 6) || (mm =? 9) || (mm =? 11)); lia. }
  split.
  - exists (dayCell LocalTZA y (m - 1) batches d).
    split; [| split; [reflexivity |]].
    + unfold dayCells. apply in_map_iff. exists (Z.to_nat (d - 1)). split.
      * f_equal. lia.
      * apply in_seq. replace (m - 1 + 1) with m by lia. lia.
    + pose proof (dayBatches_own_cell LocalTZA batches c y m d t Hin Ht Hmk
                    (proj1 Hy) Hoff) as Hc.
      unfold dayCell. cbn [cell_shown cell_more].
      destruct (Nat.ltb_spec 2 (List.length (dayBatches LocalTZA y (m - 1) batches d)))
        as [Hlong | Hshort].
      * right. eexists. split; [reflexivity | lia].
      * left. rewrite firstn_all2 by exact Hshort. exact Hc.
  - intros cell Hcell. unfold dayCells in Hcell.
    apply in_map_iff in Hcell. destruct Hcell as [i [<- Hi]].
    apply in_seq in Hi. unfold dayCell. cbn [cell_shown cell_more cell_day].
    set (l := dayBatches LocalTZA y (m - 1) batches (Z.of_nat i + 1)).
    split; [| split].
    + rewrite length_firstn. lia.
    + rewrite length_firstn.
      destruct (Nat.ltb_spec 2 (List.length l)); lia.
    + intros Hshown.
      assert (Hl : In c l).
      { rewrite <- (firstn_skipn 2 l). apply in_or_app. left. exact Hshown. }
      pose proof (Hdim (m - 1 + 1)) as Hb.
      destruct (dayBatches_no_other_cell LocalTZA batches c y m d t
                  y (m - 1) (Z.of_nat i + 1) Ht Hmk Hoff) as [_ [_ Hday]];
        [lia | lia | lia | exact Hl | exact Hday].
Qed.

Lemma dayCells_east_witness :
  exists cell,
    In cell (dayCells (fun _ => 19800000) 2023 (10 - 1)
               (calculatedBatches (batches seededState)))
    /\ cell_day cell = 1
    /\ (In (deriveBatch (hd (mkBatch "" None "" 0 "" "" 0 InProgress None None)
                            (batches seededState)))
           (cell_shown cell)
        \/ exists k, cell_more cell = Some k /\ (0 < k)%nat).
Proof.
  assert (Hin : In (deriveBatch (hd (mkBatch "" None "" 0 "" "" 0 InProgress None None)
                                   (batches seededState)))
                   (calculatedBatches (batches seededState)))
    by (apply In_calculatedBatches; left; reflexivity).
  assert (Ht : JS.Date_getTime "2023-10-01" = Some 1696118400000) by reflexivity.
  assert (Hmk : JS.MakeDate 2023 10 1 = Some 1696118400000) by reflexivity.
  assert (Hy : 1000 <= 2023 <= 9999) by lia.
  assert (Hoff : 0 <= 19800000 < JS.msPerDay) by (unfold JS.msPerDay; lia).
  destruct (dayCells_east (fun _ => 19800000) _ _ 2023 10 1 1696118400000
              Hin Ht Hmk Hy Hoff) as [Hcell _].
  exact Hcell.
Defined.

(** ** The add form *)

Lemma Qle_bool_false (x y : Q) : Qle_bool x y = false -> (y < x)%Q.
Proof.
  intros E. apply Qnot_le_lt. intros H. apply Qle_bool_iff in H. congruence.
Qed.

Lemma find_first_number (types : list BatchType) (bt : BatchType) :
  In bt types ->
  NoDup (map bt_batchNumber types) ->
  find (fun t => (bt_batchNumber t =? bt_batchNumber bt)%string) types = Some bt.
Proof.
  induction types as [| a r IH]; intros Hin Hnd; [contradiction |].
  simpl in *. inversion Hnd as [| ? ? Hnot Hnd']. subst.
  destruct Hin as [-> | Hin]; [rewrite String.eqb_refl; reflexivity |].
  destruct (String.eqb_spec (bt_batchNumber a) (bt_batchNumber bt)) as [E | _];
    [| apply IH; assumption].
  exfalso. apply Hnot. rewrite E. apply in_map. exact Hin.
Qed.

(** A batch added through the add form, after a batch number of the select
    is chosen, is put at the head of the list with the chosen number (in
    upper case), the colour of the batch type of that number, the status
    "In Progress" and the form's meter value, provided that value is
    positive and the batch numbers of the types are distinct.  With a meter
    value that is not positive the form is refused and nothing changes. *)
Theorem AddBatchModal_chosen_type (now : Z) (bt : BatchType) (formData : AddForm)
    (s : AppState) :
  In bt (batchTypes s) ->
  NoDup (map bt_batchNumber (batchTypes s)) ->
  ((0 < af_meterValue formData)%Q ->
   exists b,
     batches (AddBatchModal_handleSubmit now
                (handleBatchNumberChange (batchTypes s) (bt_batchNumber bt)
                   formData) s)
     = b :: batches s
     /\ batchNumber b = JS.toUpperCase (bt_batchNumber bt)
     /\ color b = Some (bt_color bt)
     /\ status b = InProgress
     /\ meterValue b = af_meterValue formData
     /\ machineNumber b = af_machineNumber formData
     /\ startDate b = af_startDate formData)
  /\ ((af_meterValue formData <= 0)%Q ->
      AddBatchModal_handleSubmit now
        (handleBatchNumberChange (batchTypes s) (bt_batchNumber bt) formData) s
      = s).
Proof.
  intros Hin Hnd.
  unfold AddBatchModal_handleSubmit, AddBatchModal_validate,
    handleBatchNumberChange.
  rewrite (find_first_number _ _ Hin Hnd). cbn [af_meterValue].
  split.
  - intros Hpos.
    destruct (Qle_bool (af_meterValue formData) 0) eqn:E.
    + apply Qle_bool_iff in E. exfalso. apply (Qlt_not_le _ _ Hpos E).
    + eexists. cbn [snd]. simpl. split; [reflexivity |].
      repeat split; reflexivity.
  - intros Hle. apply Qle_bool_iff in Hle. rewrite Hle. reflexivity.
Qed.

Lemma AddBatchModal_chosen_type_witness :
  AddBatchModal_handleSubmit 1700000000000
    (handleBatchNumberChange (batchTypes seededState) "WFP001"
       (mkAddForm "ACR001" 1 "2023-11-14" "2023-11-15" 0 "#16a34a"))
    seededState
  = seededState.
Proof.
  assert (Hin : In (mkBatchType "2" "WFP001" "#06b6d4") (batchTypes seededState))
    by (right; left; reflexivity).
  assert (Hnd : NoDup (map bt_batchNumber (batchTypes seededState))).
  { simpl. repeat (constructor; [simpl; intuition discriminate |]). constructor. }
  destruct (AddBatchModal_chosen_type 1700000000000 _
              (mkAddForm "ACR001" 1 "2023-11-14" "2023-11-15" 0 "#16a34a")
              seededState Hin Hnd) as [_ Hrefused].
  apply Hrefused. discriminate.
Defined.

(** ** What the forms keep *)

Lemma seedingEffect_positive (s : AppState) :
  Forall (fun b => (0 < meterValue b)%Q) (batches s) ->
  Forall (fun b => (0 < meterValue b)%Q) (batches (seedingEffect s)).
Proof.
  intros H. unfold seedingEffect.
  destruct (seedingCondition s); [| exact H].
  simpl. repeat (constructor; [reflexivity |]). constructor.
Qed.

Lemma uiHandle_positive (e : UIEvent) (s : AppState) :
  throughForms e ->
  Forall (fun b => (0 < meterValue b)%Q) (batches s) ->
  Forall (fun b => (0 < meterValue b)%Q) (batches (uiHandle e s)).
Proof.
  intros He H. destruct e as [now f | e f | c]; simpl.
  - unfold AddBatchModal_handleSubmit, AddBatchModal_validate.
    destruct (Qle_bool (af_meterValue f) 0) eqn:E; [exact H |].
    simpl. constructor; [| exact H].
    simpl. apply Qle_bool_false. exact E.
  - unfold submitEdit, EditBatchModal_handleSubmit.
    destruct (snd (EditBatchModal_validate (batchNumbersOf (batches s)) e f))
      eqn:E; [| exact H].
    apply validate_true_iff in E. destruct E as [_ [_ Hm]].
    simpl. apply Forall_map. eapply Forall_impl; [| exact H].
    intros b Hb. simpl. destruct (id b =? bf_id f)%string; [exact Hm | exact Hb].
  - destruct c; simpl in *; try contradiction; try exact H.
    + unfold handleComplete.
      destruct (JS.truthy (companyName formData)
                && negb (Qle_bool (numberOfMachines formData) 0)); exact H.
    + constructor.
    + apply Forall_forall. intros b Hb. apply filter_In in Hb.
      rewrite Forall_forall in H. apply H, Hb.
    + unfold handleAddBatchType.
      destruct (negb (JS.truthy (JS.trim newBatchNumber))); [exact H |].
      destruct (JS.includes (existingBatchNumbers (batchTypes s))
                  (JS.toUpperCase (JS.trim newBatchNumber))); exact H.
    + unfold handleUpdateColor.
      destruct (find (fun bt => (bt_id bt =? typeId)%string) (batchTypes s));
        exact H.
Qed.

(** Every batch that the forms let in has a positive meter value.  When the
    batches of a state have positive meter values, so have those of every
    state that a run of events reaches from it, through the add form, the
    edit form, deletions, the reset and the seeding; the [ftotal] of each of
    its calculated batches is then not negative. *)
Theorem forms_keep_meters_positive (es : list UIEvent) (s : AppState) :
  Forall throughForms es ->
  Forall (fun b => (0 < meterValue b)%Q) (batches s) ->
  Forall (fun b => (0 < meterValue b)%Q) (batches (uiRun es s))
  /\ Forall (fun c => 0 <= ftotal c) (calculatedBatches (batches (uiRun es s))).
Proof.
  intros Hes Hs.
  assert (Hrun : Forall (fun b => (0 < meterValue b)%Q) (batches (uiRun es s))).
  { revert s Hs. induction Hes as [| e r He _ IH]; intros s Hs; [exact Hs |].
    simpl. apply IH. unfold uiStep. apply seedingEffect_positive.
    apply uiHandle_positive; assumption. }
  split; [exact Hrun |].
  eapply Permutation_Forall;
    [apply Permutation_sym, calculatedBatches_Permutation |].
  apply Forall_map. eapply Forall_impl; [| exact Hrun].
  intros b Hb. exact (proj1 (ftotal_bounds b Hb)).
Qed.

Lemma forms_keep_meters_positive_witness :
  Forall (fun b => (0 < meterValue b)%Q)
    (batches
       (uiRun [ AddSubmitted 1700000000000
                  (mkAddForm "acr001" 2 "2023-11-14" "2023-11-15" 100 "#16a34a");
                AddSubmitted 1700000000001
                  (mkAddForm "acr001" 2 "2023-11-14" "2023-11-15" 0 "#16a34a");
                Commanded (DeleteBatch "1");
                Commanded ResetAll ]
          seededState)).
Proof.
  apply (forms_keep_meters_positive
           [ AddSubmitted 1700000000000
               (mkAddForm "acr001" 2 "2023-11-14" "2023-11-15" 100 "#16a34a");
             AddSubmitted 1700000000001
               (mkAddForm "acr001" 2 "2023-11-14" "2023-11-15" 0 "#16a34a");
             Commanded (DeleteBatch "1");
             Commanded ResetAll ]
           seededState).
  - repeat (constructor; [exact I |]). constructor.
  - simpl. repeat (constructor; [reflexivity |]). constructor.
Defined.

(** ** The calculator *)

Lemma pressAll_app `{HostNumber} (bs bs' : list Button) (c : Calculator num) :
  pressAll (bs ++ bs') c = pressAll bs' (pressAll bs c).
Proof. unfold pressAll. apply fold_left_app. Qed.

Lemma press_input_frame `{HostNumber} (value : string) (c : Calculator num) :
  calc_operator (press (ButtonInput value) c) = calc_operator c
  /\ calc_previousValue (press (ButtonInput value) c) = calc_previousValue c
  /\ forall c', calc_input c' = calc_input c ->
        calc_input (press (ButtonInput value) c')
        = calc_input (press (ButtonInput value) c).
Proof.
  simpl. unfold handleInput.
  split; [| split].
  - destruct ((calc_input c =? "0")%string && negb (value =? ".")%string);
      [reflexivity |].
    destruct ((value =? ".")%string && String_includes (calc_input c) ".");
      reflexivity.
  - destruct ((calc_input c =? "0")%string && negb (value =? ".")%string);
      [reflexivity |].
    destruct ((value =? ".")%string && String_includes (calc_input c) ".");
      reflexivity.
  - intros c' E. rewrite E.
    destruct ((calc_input c =? "0")%string && negb (value =? ".")%string);
      [reflexivity |].
    destruct ((value =? ".")%string && String_includes (calc_input c) ".");
      [exact E | reflexivity].
Qed.

(** Keying in values changes the display only, and what it makes of the
    display depends on the display only. *)
Lemma pressAll_inputs `{HostNumber} (values : list string) (c : Calculator num) :
  calc_operator (pressAll (map ButtonInput values) c) = calc_operator c
  /\ calc_previousValue (pressAll (map ButtonInput values) c)
     = calc_previousValue c
  /\ forall c', calc_input c' = calc_input c ->
        calc_input (pressAll (map ButtonInput values) c')
        = calc_input (pressAll (map ButtonInput values) c).
Proof.
  revert c. induction values as [| v r IH]; intros c.
  - split; [reflexivity |]. split; [reflexivity |]. intros c' E. exact E.
  - destruct (press_input_frame v c) as [Ho [Hp Hi]].
    destruct (IH (press (ButtonInput v) c)) as [Ho' [Hp' Hi']].
    change (pressAll (map ButtonInput (v :: r)) c)
      with (pressAll (map ButtonInput r) (press (ButtonInput v) c)).
    split; [congruence |]. split; [congruence |].
    intros c' E.
    change (pressAll (map ButtonInput (v :: r)) c')
      with (pressAll (map ButtonInput r) (press (ButtonInput v) c')).
    apply Hi'. apply Hi. exact E.
Qed.

Lemma press_operator `{HostNumber} (op : string) (c : Calculator num) :
  press (ButtonOperator op) c
  = mkCalculator "0" (Some op) (Some (parseFloat (calc_input c))).
Proof.
  simpl. unfold handleOperator, setInput, setOperator, setPreviousValue.
  reflexivity.
Qed.

Lemma pressAll_after_operator `{HostNumber} (op : string) (values : list string)
    (c : Calculator num) :
  pressAll (ButtonOperator op :: map ButtonInput values) c
  = mkCalculator (shown values) (Some op) (Some (parseFloat (calc_input c))).
Proof.
  change (pressAll (ButtonOperator op :: map ButtonInput values) c)
    with (pressAll (map ButtonInput values) (press (ButtonOperator op) c)).
  rewrite press_operator.
  set (c0 := mkCalculator "0" (Some op) (Some (parseFloat (calc_input c)))).
  destruct (pressAll_inputs values c0) as [Ho [Hp Hi]].
  specialize (Hi initialCalculator eq_refl). unfold shown. rewrite Hi.
  destruct (pressAll (map ButtonInput values) c0) as [i o p].
  simpl in Ho, Hp. subst o p. reflexivity.
Qed.

(** An operator button always leaves the display at [0] and keeps the
    number that was on the display as the only operand: the intermediate
    result that [handleOperator] asks [handleEquals] for is replaced by the
    setters that follow.  So a chained calculation drops what came before
    its last operator: [a op1 b op2 c =] shows [b op2 c], whatever [a] and
    [op1] were. *)
Theorem chained_operation_drops_first `{HostNumber} (a b c : list string)
    (op1 op2 : string) (s : Calculator num) :
  press (ButtonOperator op1) s
  = mkCalculator "0" (Some op1) (Some (parseFloat (calc_input s)))
  /\ pressAll (map ButtonInput a
               ++ ButtonOperator op1 :: map ButtonInput b
               ++ ButtonOperator op2 :: map ButtonInput c
               ++ [ButtonEquals]) s
     = match arith op2 with
       | Some f =>
           mkCalculator
             (String_of_number (f (parseFloat (shown b)) (parseFloat (shown c))))
             None None
       | None =>
           mkCalculator (shown c) (Some op2) (Some (parseFloat (shown b)))
       end.
Proof.
  split; [apply press_operator |].
  rewrite pressAll_app.
  rewrite (app_comm_cons (map ButtonInput b)), pressAll_app.
  rewrite pressAll_after_operator.
  rewrite (app_comm_cons (map ButtonInput c)), pressAll_app.
  rewrite pressAll_after_operator.
  cbn [calc_input]. unfold pressAll. cbn [fold_left press].
  unfold handleEquals. cbn [calc_operator calc_previousValue calc_input].
  destruct (arith op2) as [f |] eqn:Ef.
  - assert (Ht : JS.truthy op2 = true).
    { destruct op2; [| reflexivity]. discriminate Ef. }
    rewrite Ht. reflexivity.
  - destruct (JS.truthy op2); reflexivity.
Qed.

Lemma points_app (x y : string) :
  points (x ++ y) = (points x + points y)%nat.
Proof.
  induction x as [| ch r IH]; [reflexivity |].
  simpl. rewrite IH. lia.
Qed.

Lemma String_includes_point (x : string) :
  String_includes x "." = true <-> (0 < points x)%nat.
Proof.
  induction x as [| ch r IH].
  - simpl. split; [discriminate | lia].
  - cbn [String_includes points String.prefix].
    destruct (Ascii.ascii_dec "." ch) as [<- | Hne].
    + rewrite Ascii.eqb_refl. simpl. split; [lia |].
      intros _. destruct r; reflexivity.
    + destruct (Ascii.eqb_spec ch "."%char) as [-> | _]; [congruence |].
      simpl. exact IH.
Qed.

(** Keyed in through the input buttons, the display never gets a second
    decimal point: with at most one point before, there is at most one
    after, and the operator and the operand that are kept stay as they
    are. *)
Theorem handleInput_one_point {number : Type} (values : list string)
    (c : Calculator number) :
  Forall buttonValue values ->
  (points (calc_input c) <= 1)%nat ->
  (points (calc_input (fold_left (fun c value => handleInput value c c) values c))
   <= 1)%nat
  /\ calc_operator (fold_left (fun c value => handleInput value c c) values c)
     = calc_operator c
  /\ calc_previousValue (fold_left (fun c value => handleInput value c c) values c)
     = calc_previousValue c.
Proof.
  intros Hvalues. revert c.
  induction Hvalues as [| v r Hv _ IH]; intros c Hc;
    [split; [exact Hc |]; split; reflexivity |].
  cbn [fold_left].
  assert (Hstep : (points (calc_input (handleInput v c c)) <= 1)%nat
                  /\ calc_operator (handleInput v c c) = calc_operator c
                  /\ calc_previousValue (handleInput v c c)
                     = calc_previousValue c).
  { unfold handleInput.
    destruct ((calc_input c =? "0")%string && negb (v =? ".")%string) eqn:E1.
    - apply andb_true_iff in E1. destruct E1 as [_ E1].
      apply negb_true_iff, String.eqb_neq in E1.
      destruct Hv as [-> | Hv]; [congruence |].
      simpl. rewrite Hv. repeat split; lia.
    - destruct ((v =? ".")%string && String_includes (calc_input c) ".") eqn:E2;
        [repeat split; exact Hc |].
      simpl. rewrite points_app. split; [| split; reflexivity].
      destruct Hv as [-> | Hv]; [| lia].
      rewrite String.eqb_refl in E2. simpl in E2.
      assert (Hnone : ~ (0 < points (calc_input c))%nat).
      { intros Hp. apply String_includes_point in Hp. congruence. }
      simpl. lia. }
  destruct Hstep as [Hp [Ho Hprev]].
  destruct (IH (handleInput v c c) Hp) as [Hp' [Ho' Hprev']].
  split; [exact Hp' |]. split; congruence.
Qed.

Lemma handleInput_one_point_witness :
  (points (calc_input
             (fold_left (fun c value => handleInput value c c)
                ["."; "5"; "."; "2"] (@initialCalculator Z)))
   <= 1)%nat.
Proof.
  apply (handleInput_one_point ["."; "5"; "."; "2"] (@initialCalculator Z)).
  - repeat constructor; (left; reflexivity) || (right; reflexivity).
  - simpl. lia.
Defined.

(** ** The totals of a month *)

Lemma overallFtotal_filter_le (p : CalculatedBatch -> bool)
    (l : list CalculatedBatch) :
  Forall (fun c => 0 <= ftotal c) l ->
  0 <= overallFtotal (filter p l) <= overallFtotal l.
Proof.
  induction 1 as [| c r Hc _ IH]; [unfold overallFtotal; simpl; lia |].
  simpl. destruct (p c); rewrite !overallFtotal_cons; lia.
Qed.

Lemma totalMeter_from (acc : Q) (l : list CalculatedBatch) :
  Forall (fun c => (0 <= meterValue (batch c))%Q) l ->
  (acc <= fold_left (fun sum b => (sum + meterValue (batch b))%Q) l acc)%Q.
Proof.
  intros H. revert acc. induction H as [| c r Hc _ IH]; intros acc; simpl.
  - apply Qle_refl.
  - eapply Qle_trans; [| apply IH]. lra.
Qed.

(** With positive meter values, the totals of a month's report are not
    negative and do not exceed those of the whole: the report counts at most
    as many batches as there are, and its total of [ftotal] is at most the
    overall FTotal of the dashboard. *)
Theorem monthlyReport_totals (LocalTZA : Z -> Z) (batches : list Batch)
    (year month : Z) :
  Forall (fun b => (0 < meterValue b)%Q) batches ->
  (totalBatches (monthlyReport
                   (monthBatches LocalTZA (calculatedBatches batches) year month))
   <= List.length batches)%nat
  /\ 0 <= totalFtotal (monthlyReport
                         (monthBatches LocalTZA (calculatedBatches batches)
                            year month))
       <= overallFtotal (calculatedBatches batches)
  /\ (0 <= totalMeter (monthlyReport
                         (monthBatches LocalTZA (calculatedBatches batches)
                            year month)))%Q.
Proof.
  intros Hpos.
  pose proof (calculatedBatches_Permutation batches) as Hperm.
  assert (Hall : Forall (fun c => 0 <= ftotal c /\ (0 <= meterValue (batch c))%Q)
                   (calculatedBatches batches)).
  { eapply Permutation_Forall; [apply Permutation_sym, Hperm |].
    apply Forall_map. eapply Forall_impl; [| exact Hpos].
    intros b Hb. split; [exact (proj1 (ftotal_bounds b Hb)) |].
    apply Qlt_le_weak. exact Hb. }
  split; [| split].
  - simpl. unfold monthBatches.
    rewrite <- (length_map deriveBatch batches).
    rewrite <- (Permutation_length Hperm). apply filter_length_le.
  - apply overallFtotal_filter_le.
    eapply Forall_impl; [| exact Hall]. intros c [H _]. exact H.
  - simpl. apply totalMeter_from. unfold monthBatches.
    apply Forall_forall. intros c Hc. apply filter_In in Hc.
    rewrite Forall_forall in Hall. apply (Hall c). tauto.
Qed.

Lemma monthlyReport_totals_witness :
  0 <= totalFtotal
         (monthlyReport (monthBatches (fun _ => 19800000)
                           (calculatedBatches (batches seededState)) 2023 9))
    <= overallFtotal (calculatedBatches (batches seededState)).
Proof.
  apply (monthlyReport_totals (fun _ => 19800000) (batches seededState) 2023 9).
  repeat constructor.
Defined.
